(** * The namespace-class controller: reconciliation over a modelled object store

    Shallow embedding of [internal/controller/namespace_controller.go] and of
    the [NamespaceClass] types of [api/v1].  The controller talks to the
    cluster through the [client.Client] interface; here the cluster is an
    explicit state (three finite maps, a log of the calls issued and a script
    of injected transport failures) threaded through a state-and-error monad.
    Store mutations survive an error: nothing is rolled back. *)

From Stdlib Require Import Ascii String.
From stdpp Require Import gmap strings list fin_maps.

Local Open Scope string_scope.
Local Open Scope list_scope.
Local Open Scope stdpp_scope.

(** ** Errors *)

(** The error values the controller can observe.  [ErrNotFound] is the one
    kind it branches on ([errors.IsNotFound]); [ErrDecode] is what
    [UnmarshalJSON] returns on a malformed manifest; [ErrTransport] stands for
    any other API failure; [ErrPanic] is the run-time panic of an
    out-of-range slice expression, which unwinds through every caller just as
    a returned error does. *)
Inductive error : Type :=
| ErrNotFound
| ErrAlreadyExists
| ErrDecode
| ErrTransport
| ErrPanic.

Inductive result (A : Type) : Type :=
| Ok (a : A)
| Err (e : error).
Arguments Ok {A} a.
Arguments Err {A} e.

Definition IsNotFound (e : error) : bool :=
  match e with ErrNotFound => true | _ => false end.

Definition isOk {A} (r : result A) : bool :=
  match r with Ok _ => true | Err _ => false end.

(** ** Data model *)

(** [unstructured.Unstructured]: the addressable fields and the rest of the
    document kept as an opaque body. *)
Record Unstructured : Type := mkUnstructured {
  objAPIVersion : string;
  objKind : string;
  objNamespace : string;
  objName : string;
  objBody : string
}.

Definition SetNamespace (obj : Unstructured) (ns : string) : Unstructured :=
  mkUnstructured (objAPIVersion obj) (objKind obj) ns (objName obj) (objBody obj).

(** The object at the address of [obj] with the content [body]. *)
Definition withBody (obj : Unstructured) (body : string) : Unstructured :=
  mkUnstructured (objAPIVersion obj) (objKind obj) (objNamespace obj) (objName obj)
                 body.

(** [runtime.RawExtension]: the raw bytes of a manifest, represented by what
    [Unstructured.UnmarshalJSON] makes of them: either a document, or bytes
    that do not decode. *)
Inductive RawExtension : Type :=
| RawObject (doc : Unstructured)
| RawMalformed (bytes : string).

Definition UnmarshalJSON (raw : RawExtension) : result Unstructured :=
  match raw with
  | RawObject doc => Ok doc
  | RawMalformed _ => Err ErrDecode
  end.

(** [schema.GroupVersionKind] and the parsing of an apiVersion string, as
    k8s.io/apimachinery does it: [schema.ParseGroupVersion] takes the empty
    string and a lone slash for the empty group and version, a string without
    slash for a version of the core group, a string with one slash for group
    and version, and rejects the rest; [Unstructured.GroupVersionKind] answers
    the zero value when the apiVersion is rejected. *)
Record GVK : Type := mkGVK { Group : string; Version : string; gvkKind : string }.

Global Instance GVK_eq_dec : EqDecision GVK.
Proof. solve_decision. Defined.

Fixpoint count_slash (s : string) : nat :=
  match s with
  | EmptyString => 0
  | String c rest => (if Ascii.eqb c "/"%char then 1 else 0) + count_slash rest
  end.

Fixpoint cut_slash (s : string) : string * string :=
  match s with
  | EmptyString => (EmptyString, EmptyString)
  | String c rest =>
      if Ascii.eqb c "/"%char then (EmptyString, rest)
      else let '(g, v) := cut_slash rest in (String c g, v)
  end.

Definition ParseGroupVersion (gv : string) : result (string * string) :=
  if bool_decide (gv = "") || bool_decide (gv = "/") then Ok ("", "")
  else match count_slash gv with
       | 0 => Ok ("", gv)
       | 1 => Ok (cut_slash gv)
       | _ => Err ErrDecode
       end.

Definition gvkOf (apiVersion kind : string) : GVK :=
  match ParseGroupVersion apiVersion with
  | Ok (g, v) => mkGVK g v kind
  | Err _ => mkGVK "" "" ""
  end.

Definition GroupVersionKind (obj : Unstructured) : GVK :=
  gvkOf (objAPIVersion obj) (objKind obj).

(** [akuityiov1.ResourceStatus], with the field names of the source. *)
Record ResourceStatus : Type := mkResourceStatus {
  Kind : string;
  Name : string;
  APIVersion : string
}.

Global Instance ResourceStatus_eq_dec : EqDecision ResourceStatus.
Proof. solve_decision. Defined.

(** [akuityiov1.NamespaceClass]: name, [Spec.Resources], [Status.Resources]. *)
Record NamespaceClass : Type := mkNamespaceClass {
  ncName : string;
  SpecResources : list RawExtension;
  StatusResources : list ResourceStatus
}.

(** [corev1.Namespace]: name, labels, annotations.  A nil Go map reads like
    the empty map, so both are [∅]. *)
Record Namespace : Type := mkNamespace {
  nsName : string;
  Labels : gmap string string;
  Annotations : gmap string string
}.

Definition zeroNamespace : Namespace := mkNamespace "" ∅ ∅.
Definition zeroNamespaceClass : NamespaceClass := mkNamespaceClass "" [] [].

Definition classLabel : string := "namespaceclass.akuity.io/name".
Definition lastNameAnnotation : string := "namespaceclass.akuity.io/last-name".

(** Address of a managed resource in the store. *)
Definition ObjectKey : Type := (string * string * string * string)%type.

Definition keyOf (obj : Unstructured) : ObjectKey :=
  (objAPIVersion obj, objKind obj, objNamespace obj, objName obj).

(** ** The cluster *)

Inductive Call : Type :=
| CallGetNamespace (name : string)
| CallGetNamespaceClass (name : string)
| CallListNamespaces
| CallGet (key : ObjectKey)
| CallCreate (obj : Unstructured)
| CallUpdate (obj : Unstructured)
| CallDelete (obj : Unstructured)
| CallUpdateNamespace (ns : Namespace)
| CallStatusUpdate (nc : NamespaceClass).

(** Namespaces and classes are cluster-scoped and stored under their name;
    managed resources are namespaced objects of other kinds and live in a map
    of their own.  [calls] logs every API call, oldest first.  [faults] is
    consumed one entry per call: [true] makes that call fail with a transport
    error and no effect. *)
Record Cluster : Type := mkCluster {
  namespaces : gmap string (gmap string string * gmap string string);
  classes : gmap string (list RawExtension * list ResourceStatus);
  objects : gmap ObjectKey string;
  calls : list Call;
  faults : list bool
}.

(** ** The monad: state that persists, errors that abort *)

Definition M (A : Type) : Type := Cluster → result A * Cluster.

Global Instance M_ret : MRet M := λ A a st, (Ok a, st).
Global Instance M_bind : MBind M := λ A B f m st,
  match m st with
  | (Ok a, st') => f a st'
  | (Err e, st') => (Err e, st')
  end.

Definition fail {A} (e : error) : M A := λ st, (Err e, st).

Definition lift {A} (r : result A) : M A := λ st, (r, st).

(** An API call is logged and consumes one entry of the fault script. *)
Definition record (c : Call) (st : Cluster) : Cluster :=
  mkCluster (namespaces st) (classes st) (objects st) (calls st ++ [c])
            (tail (faults st)).

(** An API call: either hit by the next scripted fault, or run. *)
Definition api {A} (c : Call) (op : M A) : M A := λ st,
  if hd false (faults st) then (Err ErrTransport, record c st)
  else op (record c st).

Definition setNamespaces (f : gmap string (gmap string string * gmap string string) →
                              gmap string (gmap string string * gmap string string))
    (st : Cluster) : Cluster :=
  mkCluster (f (namespaces st)) (classes st) (objects st) (calls st) (faults st).

Definition setClasses (f : gmap string (list RawExtension * list ResourceStatus) →
                           gmap string (list RawExtension * list ResourceStatus))
    (st : Cluster) : Cluster :=
  mkCluster (namespaces st) (f (classes st)) (objects st) (calls st) (faults st).

Definition setObjects (f : gmap ObjectKey string → gmap ObjectKey string)
    (st : Cluster) : Cluster :=
  mkCluster (namespaces st) (classes st) (f (objects st)) (calls st) (faults st).

(** *** client.Client *)

(** [r.Get(ctx, name, namespace)]: the stored namespace is written into the
    object passed in; the model returns it. *)
Definition GetNamespace (name : string) : M Namespace :=
  api (CallGetNamespace name) (λ st,
    match namespaces st !! name with
    | Some (ls, an) => (Ok (mkNamespace name ls an), st)
    | None => (Err ErrNotFound, st)
    end).

Definition GetNamespaceClass (name : string) : M NamespaceClass :=
  api (CallGetNamespaceClass name) (λ st,
    match classes st !! name with
    | Some (spec, status) => (Ok (mkNamespaceClass name spec status), st)
    | None => (Err ErrNotFound, st)
    end).

(** A stored namespace as the object the client hands out. *)
Definition toNamespace (e : string * (gmap string string * gmap string string))
  : Namespace := mkNamespace e.1 e.2.1 e.2.2.

(** [r.List(ctx, &namespaces)]. *)
Definition ListNamespaces : M (list Namespace) :=
  api CallListNamespaces (λ st,
    (Ok (toNamespace <$> map_to_list (namespaces st)), st)).

(** [r.Get(ctx, key, obj)] on an unstructured object.  The key is that of
    [obj] (line 97) and the kind looked up is [obj]'s own.  As for the typed
    gets above, the answer is decoded into the object passed in: on success
    the content of [obj] is replaced by that of the live object found at its
    address. *)
Definition Get (obj : Unstructured) : M Unstructured :=
  api (CallGet (keyOf obj)) (λ st,
    match objects st !! keyOf obj with
    | Some body => (Ok (withBody obj body), st)
    | None => (Err ErrNotFound, st)
    end).

Definition Create (obj : Unstructured) : M unit :=
  api (CallCreate obj) (λ st,
    match objects st !! keyOf obj with
    | Some _ => (Err ErrAlreadyExists, st)
    | None => (Ok (), setObjects <[keyOf obj := objBody obj]> st)
    end).

(** [r.Update(ctx, obj)]: full-object replacement of an existing object. *)
Definition Update (obj : Unstructured) : M unit :=
  api (CallUpdate obj) (λ st,
    match objects st !! keyOf obj with
    | Some _ => (Ok (), setObjects <[keyOf obj := objBody obj]> st)
    | None => (Err ErrNotFound, st)
    end).

Definition Delete (obj : Unstructured) : M unit :=
  api (CallDelete obj) (λ st,
    match objects st !! keyOf obj with
    | Some _ => (Ok (), setObjects (delete (keyOf obj)) st)
    | None => (Err ErrNotFound, st)
    end).

(** [r.Update(ctx, namespace)]. *)
Definition UpdateNamespace (ns : Namespace) : M unit :=
  api (CallUpdateNamespace ns) (λ st,
    match namespaces st !! nsName ns with
    | Some _ => (Ok (), setNamespaces <[nsName ns := (Labels ns, Annotations ns)]> st)
    | None => (Err ErrNotFound, st)
    end).

(** [r.Status().Update(ctx, namespaceClass)]: only the status sub-object of
    the stored class is replaced.  The answer of the server is decoded into
    the class in hand: its ledger is the ledger that was sent, its spec the
    stored spec.  The model is of a class in hand that carries the stored
    spec, as every class does that [Reconcile] fetches and hands down (no
    call of the controller writes a spec): the class in hand is then as
    before the call, and nothing is returned. *)
Definition StatusUpdate (nc : NamespaceClass) : M unit :=
  api (CallStatusUpdate nc) (λ st,
    match classes st !! ncName nc with
    | Some (spec, _) =>
        (Ok (), setClasses <[ncName nc := (spec, StatusResources nc)]> st)
    | None => (Err ErrNotFound, st)
    end).

(** [if err := call; err != nil { ... }]: run [m] and hand its outcome to the
    caller instead of aborting. *)
Definition attempt {A} (m : M A) : M (result A) := λ st,
  let '(r, st') := m st in (Ok r, st').

(** ** The controller *)

(** Get the namespace.  A missing namespace is not an error: the object
    passed in is left as it was. *)
Definition fetchNamespace (namespacedName : string) (namespace : Namespace)
  : M Namespace :=
  r ← attempt (GetNamespace namespacedName);
  match r with
  | Ok found => mret found
  | Err err => if IsNotFound err then mret namespace else fail err
  end.

(** Get the NamespaceClass, with the same tolerance. *)
Definition fetchNamespaceClass (label : string) (namespaceClass : NamespaceClass)
  : M NamespaceClass :=
  r ← attempt (GetNamespaceClass label);
  match r with
  | Ok found => mret found
  | Err err => if IsNotFound err then mret namespaceClass else fail err
  end.

(** Check if the resource exists in the NamespaceClass status. *)
Definition resourceExistsInNamespaceClassStatus
    (obj : Unstructured) (namespaceClass : NamespaceClass) : bool :=
  existsb (λ resource,
             bool_decide (Name resource = objName obj)
             && bool_decide (APIVersion resource = objAPIVersion obj)
             && bool_decide (Kind resource = objKind obj))
          (StatusResources namespaceClass).

(** Check if the same resource exists in the new NamespaceClass: the loop
    over [Spec.Resources], which answers [false] as soon as a manifest does
    not decode. *)
Fixpoint resourceExistsInSpec (obj : Unstructured) (resources : list RawExtension)
  : bool :=
  match resources with
  | [] => false
  | newResource :: rest =>
      match UnmarshalJSON newResource with
      | Err _ => false
      | Ok newObj =>
          if bool_decide (GroupVersionKind newObj = GroupVersionKind obj) then true
          else resourceExistsInSpec obj rest
      end
  end.

Definition resourceExistsInNamespaceClass
    (obj : Unstructured) (namespaceClass : NamespaceClass) : bool :=
  resourceExistsInSpec obj (SpecResources namespaceClass).

Definition statusOf (obj : Unstructured) : ResourceStatus :=
  mkResourceStatus (objKind obj) (objName obj) (objAPIVersion obj).

(** The Get, then Create-or-Update, of one decoded manifest.  [Get] leaves
    the live object in [obj], and that is what [Update] then sends. *)
Definition createOrUpdate (obj : Unstructured) : M Unstructured :=
  got ← attempt (Get obj);
  match got with
  | Err err =>
      if IsNotFound err then Create obj ;; mret obj
      else fail err
  | Ok obj => Update obj ;; mret obj
  end.

(** Add the resource in namespaceClass status, if it is not already present. *)
Definition trackResource (obj : Unstructured) (namespaceClass : NamespaceClass)
  : M NamespaceClass :=
  if negb (resourceExistsInNamespaceClassStatus obj namespaceClass) then
    let namespaceClass :=
      mkNamespaceClass (ncName namespaceClass) (SpecResources namespaceClass)
                       (StatusResources namespaceClass ++ [statusOf obj]) in
    StatusUpdate namespaceClass ;; mret namespaceClass
  else mret namespaceClass.

(** Handle the creation and updating of resources defined in the
    NamespaceClass.  The loop ranges over [resources]; [namespaceClass] is the
    in-memory class whose status grows on the way. *)
Fixpoint handleResources_range (namespace : Namespace)
    (resources : list RawExtension) (namespaceClass : NamespaceClass)
  : M NamespaceClass :=
  match resources with
  | [] => mret namespaceClass
  | resource :: rest =>
      obj ← lift (UnmarshalJSON resource);
      obj ← createOrUpdate (SetNamespace obj (nsName namespace));
      namespaceClass ← trackResource obj namespaceClass;
      handleResources_range namespace rest namespaceClass
  end.

Definition handleResources (namespace : Namespace) (namespaceClass : NamespaceClass)
  : M NamespaceClass :=
  handleResources_range namespace (SpecResources namespaceClass) namespaceClass.

(** Delete resources that are no longer defined in the new NamespaceClass. *)
Fixpoint handleNamespaceClassChange_range (namespace : Namespace)
    (resources : list RawExtension) (namespaceClass : NamespaceClass) : M unit :=
  match resources with
  | [] => mret ()
  | resource :: rest =>
      obj ← lift (UnmarshalJSON resource);
      let obj := SetNamespace obj (nsName namespace) in
      got ← attempt (Get obj);
      match got with
      | Err err =>
          if IsNotFound err then
            handleNamespaceClassChange_range namespace rest namespaceClass
          else fail err
      | Ok obj =>
          (if negb (resourceExistsInNamespaceClass obj namespaceClass) then Delete obj
           else mret ()) ;;
          handleNamespaceClassChange_range namespace rest namespaceClass
      end
  end.

Definition handleNamespaceClassChange (namespace : Namespace) (lastName : string)
    (namespaceClass : NamespaceClass) : M unit :=
  oldNamespaceClass ← fetchNamespaceClass lastName zeroNamespaceClass;
  handleNamespaceClassChange_range namespace (SpecResources oldNamespaceClass)
                                   namespaceClass.

(** *** The orphan sweep and its slice

    [handleResourcesDeletion] ranges over [Status.Resources] while its body
    shortens that very slice with [append(s[:i], s[i+1:]...)].  A Go [range]
    fixes the slice header once, and the [append] shifts the tail left inside
    the same backing array, so both loops read the array as it currently is.
    The in-memory ledger is therefore a backing array of fixed size and a
    current length.  The declared-set check of the outer loop reads the spec
    of the class in hand, which a status update leaves as it is when it is
    the stored spec (see [StatusUpdate]). *)

(** [append(s[:i], s[i+1:]...)] on a slice of length [len]: slots below [i]
    keep their value, slots [i .. len-2] receive their right neighbour, slots
    from [len-1] on are left as they were. *)
Definition removeAt (backing : list ResourceStatus) (len i : nat)
  : list ResourceStatus :=
  take i backing ++ take (len - S i) (drop (S i) backing) ++ drop (len - 1) backing.

Definition sameResource (statusResource : ResourceStatus) (obj : Unstructured) : bool :=
  bool_decide (Name statusResource = objName obj)
  && bool_decide (APIVersion statusResource = objAPIVersion obj)
  && bool_decide (Kind statusResource = objKind obj).

(** Remove the resource from namespaceClass status: the inner loop, over the
    indices [idxs] of the slice as it was when the loop started.  The loop
    goes on after a removal; [s[i+1:]] panics once [i+1] exceeds the current
    length.  A [range] never reads past the end of its array, so the missing
    slot of the first [match] does not arise. *)
Fixpoint untrack_range (name : string) (spec : list RawExtension)
    (obj : Unstructured) (idxs : list nat)
    (backing : list ResourceStatus) (len : nat) : M (list ResourceStatus * nat) :=
  match idxs with
  | [] => mret (backing, len)
  | i :: rest =>
      match backing !! i with
      | None => fail ErrPanic
      | Some statusResource =>
          if sameResource statusResource obj then
            if bool_decide (S i ≤ len)%nat then
              let backing := removeAt backing len i in
              let len := len - 1 in
              StatusUpdate (mkNamespaceClass name spec (take len backing)) ;;
              untrack_range name spec obj rest backing len
            else fail ErrPanic
          else untrack_range name spec obj rest backing len
      end
  end.

(** The outer loop, over the indices [js] of the slice as it was on entry.
    The object to delete is rebuilt from the ledger entry and the namespace. *)
Fixpoint handleResourcesDeletion_range (namespace : Namespace)
    (name : string) (spec : list RawExtension) (js : list nat)
    (backing : list ResourceStatus) (len : nat) : M (list ResourceStatus * nat) :=
  match js with
  | [] => mret (backing, len)
  | j :: rest =>
      match backing !! j with
      | None => fail ErrPanic
      | Some resource =>
          let obj := mkUnstructured (APIVersion resource) (Kind resource)
                                    (nsName namespace) (Name resource) "" in
          if negb (resourceExistsInSpec obj spec) then
            Delete obj ;;
            '(backing, len) ← untrack_range name spec obj (seq 0 len) backing len;
            handleResourcesDeletion_range namespace name spec rest backing len
          else handleResourcesDeletion_range namespace name spec rest backing len
      end
  end.

(** Handle the deletion of resources that are no longer defined in the
    existing NamespaceClass.  Returns the class as it is in memory afterwards. *)
Definition handleResourcesDeletion (namespace : Namespace)
    (namespaceClass : NamespaceClass) : M NamespaceClass :=
  let ledger := StatusResources namespaceClass in
  '(backing, len) ←
    handleResourcesDeletion_range namespace (ncName namespaceClass)
      (SpecResources namespaceClass) (seq 0 (length ledger)) ledger (length ledger);
  mret (mkNamespaceClass (ncName namespaceClass) (SpecResources namespaceClass)
                         (take len backing)).

Definition setLastName (namespace : Namespace) (name : string) : Namespace :=
  mkNamespace (nsName namespace) (Labels namespace)
              (<[lastNameAnnotation := name]> (Annotations namespace)).

(** The annotation step of [handleNamespaceAnnotations]: the annotation is
    set on the in-memory namespace, and when it held another class name the
    class-change sweep runs with the namespace so updated.  Returns the
    in-memory namespace. *)
Definition detectClassChange (namespace : Namespace)
    (namespaceClass : NamespaceClass) : M Namespace :=
  match Annotations namespace !! lastNameAnnotation with
  | None => mret (setLastName namespace (ncName namespaceClass))
  | Some lastName =>
      if bool_decide (lastName ≠ ncName namespaceClass) then
        let namespace := setLastName namespace (ncName namespaceClass) in
        handleNamespaceClassChange namespace lastName namespaceClass ;;
        mret namespace
      else mret namespace
  end.

(** Handles the deletion of resources that are no longer defined in the
    NamespaceClass, using the last-name annotation to check if the
    NamespaceClass has changed. *)
Definition handleNamespaceAnnotations (namespace : Namespace)
    (namespaceClass : NamespaceClass) : M unit :=
  namespace ← detectClassChange namespace namespaceClass;
  UpdateNamespace namespace ;;
  handleResourcesDeletion namespace namespaceClass ;;
  mret ().

(** [Reconcile]: the request names a namespace; the result is [nil] or the
    error ([ctrl.Result] is always the zero value). *)
Definition Reconcile (req : string) : M unit :=
  namespace ← fetchNamespace req zeroNamespace;
  match Labels namespace !! classLabel with
  | None => mret ()
  | Some label =>
      namespaceClass ← fetchNamespaceClass label zeroNamespaceClass;
      namespaceClass ← handleResources namespace namespaceClass;
      handleNamespaceAnnotations namespace namespaceClass
  end.

(** *** Watch-to-request mapping *)

(** [client.Object] as far as the type assertion of the mapper tells apart. *)
Inductive Object : Type :=
| ObjNamespaceClass (nc : NamespaceClass)
| ObjNamespace (ns : Namespace)
| ObjUnstructured (u : Unstructured).

(** [reconcile.Request] with [NamespacedName{Name: ns.Name}]. *)
Record Request : Type := mkRequest { reqName : string }.

(** [ns.Labels[key]] read without the ok flag: the empty string when absent. *)
Definition labelOrEmpty (ns : Namespace) : string :=
  default "" (Labels ns !! classLabel).

Fixpoint enqueueMatching (namespaceClass : NamespaceClass) (items : list Namespace)
    (reqs : list Request) : list Request :=
  match items with
  | [] => reqs
  | ns :: rest =>
      if bool_decide (labelOrEmpty ns = ncName namespaceClass) then
        enqueueMatching namespaceClass rest (reqs ++ [mkRequest (nsName ns)])
      else enqueueMatching namespaceClass rest reqs
  end.

(** mapNamespaceClassToNamespaces maps a NamespaceClass to a list of
    Namespaces that use it. *)
Definition mapNamespaceClassToNamespaces (obj : Object) (st : Cluster)
  : list Request * Cluster :=
  match obj with
  | ObjNamespaceClass namespaceClass =>
      match ListNamespaces st with
      | (Err _, st') => ([], st')
      | (Ok items, st') => (enqueueMatching namespaceClass items [], st')
      end
  | _ => ([], st)
  end.

(** ** Vocabulary of the statements *)

(** [preserves R m]: whatever the outcome of [m], the cluster it leaves is
    related by [R] to the cluster it started from. *)
Definition preserves (R : relation Cluster) {A} (m : M A) : Prop :=
  ∀ st, R st (m st).2.

(** [issues P st st']: the log of [st'] extends that of [st] by calls that
    all satisfy [P]. *)
Definition issues (P : Call → Prop) : relation Cluster := λ st st',
  ∃ new, calls st' = calls st ++ new ∧ Forall P new.

Definition keyNamespace (k : ObjectKey) : string := k.1.2.

(** The calls open to the convergence stage for namespace [ns] and class
    [name]: get, create and full-object update of resources in [ns], and
    status updates of the class. *)
Definition convergeCall (ns name : string) (c : Call) : Prop :=
  match c with
  | CallGet k => keyNamespace k = ns
  | CallCreate obj | CallUpdate obj => objNamespace obj = ns
  | CallStatusUpdate nc => ncName nc = name
  | _ => False
  end.

Record converges (ns name : string) (st st' : Cluster) : Prop := mkConverges {
  conv_namespaces : namespaces st' = namespaces st;
  conv_classes : ∀ n, n ≠ name → classes st' !! n = classes st !! n;
  conv_specs : ∀ n, fst <$> classes st' !! n = fst <$> classes st !! n;
  conv_objects : objects st ⊆ objects st';
  conv_elsewhere : ∀ k, keyNamespace k ≠ ns → objects st' !! k = objects st !! k;
  conv_calls : issues (convergeCall ns name) st st'
}.

(** The declared-set check looks at the group-version-kind of its argument
    only, so it is a function of the object's address. *)
Definition keyDeclared (spec : list RawExtension) (k : ObjectKey) : bool :=
  resourceExistsInSpec (mkUnstructured k.1.1.1 k.1.1.2 k.1.2 k.2 "") spec.

Definition decodable (raw : RawExtension) : Prop := isOk (UnmarshalJSON raw) = true.

(** The calls open to the class-change sweep and to the orphan sweep; a
    delete goes only to an object whose group-version-kind [spec] does not
    declare. *)
Definition sweepCall (spec : list RawExtension) (c : Call) : Prop :=
  match c with
  | CallGetNamespaceClass _ | CallGet _ => True
  | CallDelete obj => resourceExistsInSpec obj spec = false
  | _ => False
  end.

Definition orphanCall (spec : list RawExtension) (c : Call) : Prop :=
  match c with
  | CallStatusUpdate _ => True
  | CallDelete obj => resourceExistsInSpec obj spec = false
  | _ => False
  end.

(** [tearsDown P spec st st']: from [st] to [st'] only calls in [P] were
    issued, namespaces and class specs are as before, and every object is
    either as before or gone, the latter only where [spec] does not declare
    its group-version-kind. *)
Record tearsDown (P : Call → Prop) (spec : list RawExtension) (st st' : Cluster)
  : Prop := mkTearsDown {
  tear_namespaces : namespaces st' = namespaces st;
  tear_specs : ∀ n, fst <$> classes st' !! n = fst <$> classes st !! n;
  tear_objects : ∀ k, objects st' !! k = objects st !! k
                      ∨ (objects st' !! k = None ∧ keyDeclared spec k = false);
  tear_calls : issues P st st'
}.

(** Calls that leave alone every object whose group-version-kind [spec]
    declares. *)
Definition spares (spec : list RawExtension) (c : Call) : Prop :=
  match c with
  | CallDelete obj => resourceExistsInSpec obj spec = false
  | _ => True
  end.

Definition noConvergeCall (c : Call) : Prop :=
  match c with
  | CallCreate _ | CallUpdate _ | CallStatusUpdate _ => False
  | _ => True
  end.

Definition requestsFor (name : string) (items : list Namespace) : list Request :=
  (λ ns, mkRequest (nsName ns)) <$> filter (λ ns, labelOrEmpty ns = name) items.

(** ** Kinds of call *)

Definition isApply (c : Call) : bool :=
  match c with CallCreate _ | CallUpdate _ => true | _ => false end.

Definition isDelete (c : Call) : bool :=
  match c with CallDelete _ => true | _ => false end.

Definition isStatusUpdate (c : Call) : bool :=
  match c with CallStatusUpdate _ => true | _ => false end.

Definition isPersist (c : Call) : bool :=
  match c with CallUpdateNamespace _ => true | _ => false end.

Definition isMutation (c : Call) : bool :=
  isApply c || isDelete c || isStatusUpdate c || isPersist c.

(** The calls a computation adds to the log of [st]. *)
Definition newCalls {A} (m : M A) (st : Cluster) : list Call :=
  drop (length (calls st)) (calls (m st).2).

(** ** Concrete clusters *)

Definition configMap (name body : string) : Unstructured :=
  mkUnstructured "v1" "ConfigMap" "" name body.
Definition secret (name body : string) : Unstructured :=
  mkUnstructured "v1" "Secret" "" name body.
Definition networkPolicy (name body : string) : Unstructured :=
  mkUnstructured "networking.k8s.io/v1" "NetworkPolicy" "" name body.

Definition inDev (obj : Unstructured) : ObjectKey := keyOf (SetNamespace obj "dev").

(** Namespace [dev] is labelled with a class that does not exist. *)
Definition absentClassCluster : Cluster :=
  mkCluster {[ "dev" := ({[ classLabel := "ghost" ]}, ∅) ]} ∅ ∅ [] [].

(** Class [web] declares a ConfigMap, then a manifest that does not decode,
    then a NetworkPolicy. *)
Definition malformedSecondSpec : list RawExtension :=
  [RawObject (configMap "settings" "replicas=3"); RawMalformed "{";
   RawObject (networkPolicy "deny-all" "ingress=none")].

Definition malformedSecondCluster : Cluster :=
  mkCluster {[ "dev" := ({[ classLabel := "web" ]}, ∅) ]}
            {[ "web" := (malformedSecondSpec, []) ]} ∅ [] [].

(** Class [web] declares ConfigMap [settings] with [replicas=3]; the live
    object in [dev] still says [replicas=1]. *)
Definition driftedCluster : Cluster :=
  mkCluster
    {[ "dev" := ({[ classLabel := "web" ]}, {[ lastNameAnnotation := "web" ]}) ]}
    {[ "web" := ([RawObject (configMap "settings" "replicas=3")],
                 [statusOf (configMap "settings" "")]) ]}
    {[ inDev (configMap "settings" "") := "replicas=1" ]} [] [].

(** Class [web] was edited down to its ConfigMap; the ledger still lists the
    Secret and the NetworkPolicy in front of it, and all three are live. *)
Definition shrunkLedger : list ResourceStatus :=
  [statusOf (secret "token" ""); statusOf (networkPolicy "deny-all" "");
   statusOf (configMap "settings" "")].

Definition shrunkClassCluster : Cluster :=
  mkCluster
    {[ "dev" := ({[ classLabel := "web" ]}, {[ lastNameAnnotation := "web" ]}) ]}
    {[ "web" := ([RawObject (configMap "settings" "replicas=3")], shrunkLedger) ]}
    {[ inDev (secret "token" "") := "s3cr3t";
       inDev (networkPolicy "deny-all" "") := "ingress=none";
       inDev (configMap "settings" "") := "replicas=3" ]} [] [].

(** Namespace [dev] moves from class [internal] (a Secret and a ConfigMap) to
    class [public] (a ConfigMap and a NetworkPolicy). *)
Definition internalSpec : list RawExtension :=
  [RawObject (secret "token" "s3cr3t"); RawObject (configMap "settings" "internal")].
Definition publicSpec : list RawExtension :=
  [RawObject (configMap "settings" "public");
   RawObject (networkPolicy "allow-all" "ingress=any")].

Definition relabelledCluster : Cluster :=
  mkCluster
    {[ "dev" := ({[ classLabel := "public" ]}, {[ lastNameAnnotation := "internal" ]}) ]}
    {[ "internal" := (internalSpec, [statusOf (secret "token" "");
                                     statusOf (configMap "settings" "")]);
       "public" := (publicSpec, []) ]}
    {[ inDev (secret "token" "") := "s3cr3t";
       inDev (configMap "settings" "") := "internal" ]} [] [].

(** The annotation stage for a namespace last bound to class [legacy], whose
    only manifest does not decode. *)
Definition brokenOldClassCluster : Cluster :=
  mkCluster
    {[ "dev" := ({[ classLabel := "web" ]}, {[ lastNameAnnotation := "legacy" ]}) ]}
    {[ "legacy" := ([RawMalformed "{"], []); "web" := ([], []) ]} ∅ [] [].

Definition devFromLegacy : Namespace :=
  mkNamespace "dev" {[ classLabel := "web" ]} {[ lastNameAnnotation := "legacy" ]}.

Definition devFirstTime : Namespace :=
  mkNamespace "dev" {[ classLabel := "web" ]} ∅.

Definition emptyWeb : NamespaceClass := mkNamespaceClass "web" [] [].

(** ** Claims the code does not meet, as predicates *)

(** A pass that ends without error and without a single mutating call. *)
Definition zeroMutations (req : string) (st : Cluster) : Prop :=
  (Reconcile req st).1 = Ok ()
  ∧ forallb (λ c, negb (isMutation c)) (newCalls (Reconcile req) st) = true.

(** A pass that fails before any resource is created or updated. *)
Definition abortsBeforeAnyApply (req : string) (st : Cluster) : Prop :=
  isOk (Reconcile req st).1 = false
  ∧ forallb (λ c, negb (isApply c)) (newCalls (Reconcile req) st) = true.

(** An annotation stage that persists the namespace exactly once. *)
Definition persistsExactlyOnce (namespace : Namespace) (nc : NamespaceClass)
    (st : Cluster) : Prop :=
  length (List.filter isPersist (newCalls (handleNamespaceAnnotations namespace nc) st))
  = 1.


(** ** Vocabulary of the further properties *)

(** [surfaces m]: every call of [m] consumes one entry of the fault script,
    and unless [m] ends in a transport error none of the entries it consumed
    was a failure: an API failure is never swallowed. *)
Definition surfaces {A} (m : M A) : Prop :=
  ∀ st, ∃ new,
    calls (m st).2 = calls st ++ new
    ∧ faults (m st).2 = drop (length new) (faults st)
    ∧ ((m st).1 ≠ Err ErrTransport →
       Forall (λ b, b = false) (take (length new) (faults st))).

(** [untouched ns st st']: nothing changed but objects of namespace [ns]. *)
Record untouched (ns : string) (st st' : Cluster) : Prop := mkUntouched {
  unt_namespaces : namespaces st' = namespaces st;
  unt_classes : classes st' = classes st;
  unt_objects : ∀ k, keyNamespace k ≠ ns → objects st' !! k = objects st !! k
}.

(** [ledgerOnly ns name st st']: nothing changed but objects of namespace
    [ns] and the status of class [name]. *)
Record ledgerOnly (ns name : string) (st st' : Cluster) : Prop := mkLedgerOnly {
  led_namespaces : namespaces st' = namespaces st;
  led_classes : ∀ n, n ≠ name → classes st' !! n = classes st !! n;
  led_specs : ∀ n, fst <$> classes st' !! n = fst <$> classes st !! n;
  led_objects : ∀ k, keyNamespace k ≠ ns → objects st' !! k = objects st !! k
}.

(** A script with one failure, at the second call. *)
Definition flakyCluster : Cluster :=
  mkCluster {[ "dev" := ({[ classLabel := "web" ]}, ∅) ]}
            {[ "web" := ([RawObject (configMap "settings" "replicas=3")], []) ]}
            ∅ [] [false; true].

(** Namespace [dev] carries no class label; [prod] does not exist. *)
Definition unlabelledCluster : Cluster :=
  mkCluster {[ "dev" := ({[ "team" := "payments" ]}, ∅) ]}
            {[ "web" := ([RawObject (configMap "settings" "replicas=3")], []) ]}
            ∅ [] [].

(** Namespace [dev] is labelled [web] for the first time: no annotation, an
    empty ledger, no object yet. *)
Definition freshCluster : Cluster :=
  mkCluster {[ "dev" := ({[ classLabel := "web" ]}, ∅) ]}
            {[ "web" := ([RawObject (configMap "settings" "replicas=3")], []) ]}
            ∅ [] [].

(** The objects a list of manifests declares in namespace [ns]: address and
    content of each, the first manifest winning where two share an address. *)
Definition declaredObjects (ns : string) (docs : list Unstructured)
  : gmap ObjectKey string :=
  list_to_map ((λ doc, (keyOf (SetNamespace doc ns), objBody doc)) <$> docs).

(** The object the orphan sweep rebuilds from a ledger entry (lines 200-204):
    kind, name and apiVersion of the entry, the namespace in hand, no
    content. *)
Definition entryObject (ns : string) (resource : ResourceStatus) : Unstructured :=
  mkUnstructured (APIVersion resource) (Kind resource) ns (Name resource) "".

(** A ledger entry whose group-version-kind [spec] declares. *)
Definition entryDeclared (ns : string) (spec : list RawExtension)
    (resource : ResourceStatus) : Prop :=
  resourceExistsInSpec (entryObject ns resource) spec = true.

Global Instance entryDeclared_dec (ns : string) (spec : list RawExtension)
    (resource : ResourceStatus) : Decision (entryDeclared ns spec resource) :=
  decide (resourceExistsInSpec (entryObject ns resource) spec = true).

(** A fault script that fails no call. *)
Definition noFaults (st : Cluster) : Prop := Forall (λ b, b = false) (faults st).

(** The calls of a pass that finds every resource in place: reads,
    full-object updates and the update of the namespace. *)
Definition steadyCall (c : Call) : Prop :=
  match c with
  | CallCreate _ | CallDelete _ | CallStatusUpdate _ | CallListNamespaces => False
  | _ => True
  end.

(** [settled st st']: the store of [st'] is that of [st], only steady calls
    were issued, and what is left of the fault script fails no call. *)
Record settled (st st' : Cluster) : Prop := mkSettled {
  set_namespaces : namespaces st' = namespaces st;
  set_classes : classes st' = classes st;
  set_objects : objects st' = objects st;
  set_calls : issues steadyCall st st';
  set_faults : noFaults st'
}.

(** ** Vocabulary of the amended claims *)

(** Namespace [dev] was bound to class [internal] and is now labelled with a
    class that does not exist; the objects of [internal] are live. *)
Definition ghostAfterInternalCluster : Cluster :=
  mkCluster
    {[ "dev" := ({[ classLabel := "ghost" ]}, {[ lastNameAnnotation := "internal" ]}) ]}
    {[ "internal" := (internalSpec, [statusOf (secret "token" "");
                                     statusOf (configMap "settings" "")]) ]}
    {[ inDev (secret "token" "") := "s3cr3t";
       inDev (configMap "settings" "") := "internal" ]} [] [].

(** The same move away from class [legacy], whose only manifest does not
    decode. *)
Definition ghostAfterLegacyCluster : Cluster :=
  mkCluster
    {[ "dev" := ({[ classLabel := "ghost" ]}, {[ lastNameAnnotation := "legacy" ]}) ]}
    {[ "legacy" := ([RawMalformed "{"], []) ]} ∅ [] [].

(** The calls of a convergence stage that applies manifests of [docs] only:
    calls of [convergeCall], where a create or an update goes to the address
    of one of [docs]. *)
Definition appliesOnly (ns name : string) (docs : list Unstructured) (c : Call)
  : Prop :=
  convergeCall ns name c
  ∧ match c with
    | CallCreate obj | CallUpdate obj =>
        ∃ doc, doc ∈ docs ∧ keyOf obj = keyOf (SetNamespace doc ns)
    | _ => True
    end.




(** * Reasoning about the monad *)

Lemma bind_run {A B} (m : M A) (f : A → M B) (st : Cluster) :
  (m ≫= f) st =
  match m st with
  | (Ok a, st') => f a st'
  | (Err e, st') => (Err e, st')
  end.
Proof. reflexivity. Qed.

Lemma bind_Ok {A B} (m : M A) (f : A → M B) (st st' : Cluster) (b : B) :
  (m ≫= f) st = (Ok b, st') →
  ∃ a st1, m st = (Ok a, st1) ∧ f a st1 = (Ok b, st').
Proof.
  rewrite bind_run. destruct (m st) as [[a|e] st1]; [eauto | discriminate].
Qed.

Lemma attempt_run {A} (m : M A) (st : Cluster) :
  attempt m st = (Ok (m st).1, (m st).2).
Proof. unfold attempt. by destruct (m st). Qed.

Lemma api_run {A} (c : Call) (op : M A) (st : Cluster) :
  api c op st =
  if hd false (faults st) then (Err ErrTransport, record c st) else op (record c st).
Proof. reflexivity. Qed.

Lemma api_Ok {A} (c : Call) (op : M A) (st st' : Cluster) (a : A) :
  api c op st = (Ok a, st') → op (record c st) = (Ok a, st').
Proof. rewrite api_run. by destruct (hd false (faults st)). Qed.

Lemma Get_run (obj : Unstructured) (st : Cluster) :
  Get obj st =
  if hd false (faults st) then (Err ErrTransport, record (CallGet (keyOf obj)) st)
  else match objects st !! keyOf obj with
       | Some body => (Ok (withBody obj body), record (CallGet (keyOf obj)) st)
       | None => (Err ErrNotFound, record (CallGet (keyOf obj)) st)
       end.
Proof. unfold Get. rewrite api_run. by destruct (hd false (faults st)). Qed.

Lemma Create_run (obj : Unstructured) (st : Cluster) :
  Create obj st =
  if hd false (faults st) then (Err ErrTransport, record (CallCreate obj) st)
  else match objects st !! keyOf obj with
       | Some _ => (Err ErrAlreadyExists, record (CallCreate obj) st)
       | None => (Ok (), setObjects <[keyOf obj := objBody obj]>
                                    (record (CallCreate obj) st))
       end.
Proof. unfold Create. rewrite api_run. by destruct (hd false (faults st)). Qed.

Lemma Update_run (obj : Unstructured) (st : Cluster) :
  Update obj st =
  if hd false (faults st) then (Err ErrTransport, record (CallUpdate obj) st)
  else match objects st !! keyOf obj with
       | Some _ => (Ok (), setObjects <[keyOf obj := objBody obj]>
                                      (record (CallUpdate obj) st))
       | None => (Err ErrNotFound, record (CallUpdate obj) st)
       end.
Proof. unfold Update. rewrite api_run. by destruct (hd false (faults st)). Qed.

Lemma Delete_run (obj : Unstructured) (st : Cluster) :
  Delete obj st =
  if hd false (faults st) then (Err ErrTransport, record (CallDelete obj) st)
  else match objects st !! keyOf obj with
       | Some _ => (Ok (), setObjects (delete (keyOf obj)) (record (CallDelete obj) st))
       | None => (Err ErrNotFound, record (CallDelete obj) st)
       end.
Proof. unfold Delete. rewrite api_run. by destruct (hd false (faults st)). Qed.

Lemma UpdateNamespace_run (ns : Namespace) (st : Cluster) :
  UpdateNamespace ns st =
  if hd false (faults st) then (Err ErrTransport, record (CallUpdateNamespace ns) st)
  else match namespaces st !! nsName ns with
       | Some _ =>
           (Ok (), setNamespaces <[nsName ns := (Labels ns, Annotations ns)]>
                                 (record (CallUpdateNamespace ns) st))
       | None => (Err ErrNotFound, record (CallUpdateNamespace ns) st)
       end.
Proof. unfold UpdateNamespace. rewrite api_run. by destruct (hd false (faults st)). Qed.

Lemma StatusUpdate_run (nc : NamespaceClass) (st : Cluster) :
  StatusUpdate nc st =
  if hd false (faults st) then (Err ErrTransport, record (CallStatusUpdate nc) st)
  else match classes st !! ncName nc with
       | Some (spec, _) =>
           (Ok (), setClasses <[ncName nc := (spec, StatusResources nc)]>
                              (record (CallStatusUpdate nc) st))
       | None => (Err ErrNotFound, record (CallStatusUpdate nc) st)
       end.
Proof. unfold StatusUpdate. rewrite api_run. by destruct (hd false (faults st)). Qed.

(** ** Relations that every step of a computation preserves *)

Section Preserves.
Context (R : relation Cluster) `{!PreOrder R}.

Lemma preserves_ret {A} (a : A) : preserves R (mret a).
Proof. intros st. reflexivity. Qed.

Lemma preserves_fail {A} (e : error) : preserves R (@fail A e).
Proof. intros st. reflexivity. Qed.

Lemma preserves_lift {A} (r : result A) : preserves R (lift r).
Proof. intros st. reflexivity. Qed.

Lemma preserves_bind {A B} (m : M A) (f : A → M B) :
  preserves R m → (∀ a, preserves R (f a)) → preserves R (m ≫= f).
Proof.
  intros Hm Hf st. rewrite bind_run. specialize (Hm st).
  destruct (m st) as [[a|e] st1]; simpl in *; [| done].
  etrans; [exact Hm | apply Hf].
Qed.

Lemma preserves_attempt {A} (m : M A) : preserves R m → preserves R (attempt m).
Proof. intros Hm st. rewrite attempt_run. apply Hm. Qed.

Lemma preserves_api {A} (c : Call) (op : M A) :
  (∀ st, R st (record c st)) →
  (∀ st, R st (op st).2) →
  preserves R (api c op).
Proof.
  intros Hc Hop st. rewrite api_run. destruct (hd false (faults st)); simpl.
  - apply Hc.
  - etrans; [apply Hc | apply Hop].
Qed.
End Preserves.

Lemma issues_preorder (P : Call → Prop) : PreOrder (issues P).
Proof.
  split.
  - intros st. exists []. by rewrite app_nil_r.
  - intros st1 st2 st3 (n1 & E1 & F1) (n2 & E2 & F2). exists (n1 ++ n2).
    rewrite E2, E1, <- app_assoc. split; [done | by apply Forall_app].
Qed.
Global Existing Instance issues_preorder.

Lemma issues_record (P : Call → Prop) (c : Call) (st : Cluster) :
  P c → issues P st (record c st).
Proof. intros Hc. exists [c]. split; [done | by constructor]. Qed.

Lemma issues_silent (P : Call → Prop) (st st' : Cluster) :
  calls st' = calls st → issues P st st'.
Proof. intros E. exists []. by rewrite app_nil_r. Qed.

Lemma issues_weaken (P Q : Call → Prop) (st st' : Cluster) :
  (∀ c, P c → Q c) → issues P st st' → issues Q st st'.
Proof.
  intros HPQ (new & E & F). exists new. split; [done |].
  eapply Forall_impl; eauto.
Qed.

(** ** The frame of the convergence stage *)

Lemma converges_preorder (ns name : string) : PreOrder (converges ns name).
Proof.
  split.
  - intros st. split; done.
  - intros st1 st2 st3 [N1 C1 S1 O1 E1 L1] [N2 C2 S2 O2 E2 L2]. split.
    + congruence.
    + intros n Hn. by rewrite C2, C1.
    + intros n. by rewrite S2, S1.
    + by etrans.
    + intros k Hk. by rewrite E2, E1.
    + by etrans.
Qed.
Global Existing Instance converges_preorder.

Lemma converges_record (ns name : string) (c : Call) (st : Cluster) :
  convergeCall ns name c → converges ns name st (record c st).
Proof. intros Hc. split; try done. by apply issues_record. Qed.

Lemma createOrUpdate_converges (ns name : string) (obj : Unstructured) :
  objNamespace obj = ns →
  preserves (converges ns name) (createOrUpdate obj).
Proof.
  intros Hns st. unfold createOrUpdate. rewrite bind_run, attempt_run.
  unfold Get. rewrite api_run.
  assert (Hget : converges ns name st (record (CallGet (keyOf obj)) st))
    by (apply converges_record; done).
  set (st1 := record (CallGet (keyOf obj)) st) in *.
  destruct (hd false (faults st)); cbn [fst snd IsNotFound]; [done |].
  destruct (objects st1 !! keyOf obj) as [body|] eqn:Hlive; cbn [fst snd IsNotFound].
  - set (live := withBody obj body).
    rewrite bind_run. unfold Update. rewrite api_run.
    assert (Hupd : converges ns name st1 (record (CallUpdate live) st1))
      by (apply converges_record; done).
    destruct (hd false (faults st1)); cbn [fst snd IsNotFound]; [by etrans |].
    change (objects (record (CallUpdate live) st1) !! keyOf live)
      with (objects st1 !! keyOf obj). rewrite Hlive. cbn [fst snd IsNotFound].
    etrans; [exact Hget |]. etrans; [exact Hupd |].
    split; simpl; try done.
    + by rewrite insert_id.
    + intros k _. by rewrite insert_id.
    + by apply issues_silent.
  - rewrite bind_run. unfold Create. rewrite api_run.
    assert (Hcre : converges ns name st1 (record (CallCreate obj) st1))
      by (apply converges_record; done).
    destruct (hd false (faults st1)); cbn [fst snd IsNotFound]; [by etrans |].
    change (objects (record (CallCreate obj) st1) !! keyOf obj)
      with (objects st1 !! keyOf obj). rewrite Hlive. cbn [fst snd IsNotFound].
    etrans; [exact Hget |]. etrans; [exact Hcre |].
    split; simpl; try done.
    + by apply insert_subseteq.
    + intros k Hk. apply lookup_insert_ne. intros <-. apply Hk.
      by destruct obj.
    + by apply issues_silent.
Qed.

Lemma StatusUpdate_converges (ns name : string) (nc : NamespaceClass) :
  ncName nc = name →
  preserves (converges ns name) (StatusUpdate nc).
Proof.
  intros Hname. apply preserves_api; [apply _ | |].
  - intros st. by apply converges_record.
  - intros st. destruct (classes st !! ncName nc) as [[spec status]|] eqn:Hc;
      simpl; [| reflexivity].
    split; simpl; try done.
    + intros n Hn. apply lookup_insert_ne. congruence.
    + intros n. destruct (decide (ncName nc = n)) as [<-|Hn].
      * by rewrite lookup_insert_eq, Hc.
      * by rewrite lookup_insert_ne.
    + by apply issues_silent.
Qed.

Lemma trackResource_name (obj : Unstructured) (nc nc' : NamespaceClass)
    (st st' : Cluster) :
  trackResource obj nc st = (Ok nc', st') →
  ncName nc' = ncName nc ∧ SpecResources nc' = SpecResources nc.
Proof.
  unfold trackResource.
  destruct (negb _).
  - intros H. apply bind_Ok in H as (? & ? & _ & H). by inversion H.
  - intros H. by inversion H.
Qed.

Lemma trackResource_converges (ns : string) (obj : Unstructured)
    (nc : NamespaceClass) :
  preserves (converges ns (ncName nc)) (trackResource obj nc).
Proof.
  unfold trackResource. destruct (negb _); [| apply preserves_ret; apply _].
  apply preserves_bind; [apply _ | | intros; apply preserves_ret; apply _].
  by apply StatusUpdate_converges.
Qed.

Lemma handleResources_range_converges (namespace : Namespace)
    (resources : list RawExtension) (nc : NamespaceClass) :
  preserves (converges (nsName namespace) (ncName nc))
            (handleResources_range namespace resources nc).
Proof.
  revert nc. induction resources as [|resource rest IH]; intros nc; simpl.
  - apply preserves_ret; apply _.
  - apply preserves_bind; [apply _ | apply preserves_lift; apply _ |].
    intros obj. apply preserves_bind; [apply _ | |].
    { by apply createOrUpdate_converges. }
    intros obj'. intros st. rewrite bind_run.
    pose proof (trackResource_converges (nsName namespace) obj' nc st) as Ht.
    destruct (trackResource obj' nc st) as [[nc'|e] st1] eqn:Htrack; simpl in *;
      [| done].
    apply trackResource_name in Htrack as [Hname _].
    etrans; [exact Ht |]. rewrite <- Hname. apply IH.
Qed.

(** ** The frame of the two deletion sweeps *)

Lemma resourceExistsInSpec_gvk (obj obj' : Unstructured) (spec : list RawExtension) :
  GroupVersionKind obj = GroupVersionKind obj' →
  resourceExistsInSpec obj spec = resourceExistsInSpec obj' spec.
Proof.
  intros E. induction spec as [|r spec IH]; simpl; [done |].
  destruct (UnmarshalJSON r); [| done]. by rewrite E, IH.
Qed.

Lemma resourceExistsInSpec_key (obj : Unstructured) (spec : list RawExtension) :
  resourceExistsInSpec obj spec = keyDeclared spec (keyOf obj).
Proof. by apply resourceExistsInSpec_gvk. Qed.

Lemma resourceExistsInSpec_true (obj : Unstructured) (spec : list RawExtension) :
  resourceExistsInSpec obj spec = true →
  ∃ y, RawObject y ∈ spec ∧ GroupVersionKind y = GroupVersionKind obj.
Proof.
  induction spec as [|r spec IH]; simpl; [done |].
  destruct r as [y|bytes]; simpl; [| done].
  case_bool_decide as E.
  - intros _. exists y. split; [left | done].
  - intros H. destruct (IH H) as (y' & Hin & E'). exists y'. split; [by right | done].
Qed.

Lemma resourceExistsInSpec_declared (obj y : Unstructured) (spec : list RawExtension) :
  Forall decodable spec →
  RawObject y ∈ spec →
  GroupVersionKind y = GroupVersionKind obj →
  resourceExistsInSpec obj spec = true.
Proof.
  intros Hdec Hin E. induction Hdec as [|r spec Hr Hdec IH]; [by inversion Hin |].
  simpl. destruct r as [y'|bytes]; [| discriminate Hr]. simpl.
  case_bool_decide as E'; [done |].
  apply IH. inversion Hin; subst; [congruence | done].
Qed.

Lemma tearsDown_preorder (P : Call → Prop) (spec : list RawExtension) :
  PreOrder (tearsDown P spec).
Proof.
  split.
  - intros st. split; try done. by left.
  - intros st1 st2 st3 [N1 S1 O1 L1] [N2 S2 O2 L2]. split.
    + congruence.
    + intros n. by rewrite S2, S1.
    + intros k. destruct (O2 k) as [E2|[E2 D2]]; [| by right].
      rewrite E2. apply O1.
    + by etrans.
Qed.
Global Existing Instance tearsDown_preorder.

Lemma tearsDown_record (P : Call → Prop) (spec : list RawExtension)
    (c : Call) (st : Cluster) :
  P c → tearsDown P spec st (record c st).
Proof. intros Hc. split; try done; [by left | by apply issues_record]. Qed.

Lemma Get_tearsDown (P : Call → Prop) (spec : list RawExtension) (obj : Unstructured) :
  P (CallGet (keyOf obj)) → preserves (tearsDown P spec) (Get obj).
Proof.
  intros HP. apply preserves_api; [apply _ | |].
  - intros st. by apply tearsDown_record.
  - intros st. destruct (objects st !! keyOf obj); reflexivity.
Qed.

Lemma GetNamespaceClass_tearsDown (P : Call → Prop) (spec : list RawExtension)
    (name : string) :
  P (CallGetNamespaceClass name) →
  preserves (tearsDown P spec) (GetNamespaceClass name).
Proof.
  intros HP. apply preserves_api; [apply _ | |].
  - intros st. by apply tearsDown_record.
  - intros st. destruct (classes st !! name) as [[??]|]; reflexivity.
Qed.

Lemma Delete_tearsDown (P : Call → Prop) (spec : list RawExtension)
    (obj : Unstructured) :
  P (CallDelete obj) → resourceExistsInSpec obj spec = false →
  preserves (tearsDown P spec) (Delete obj).
Proof.
  intros HP Hundeclared. apply preserves_api; [apply _ | |].
  - intros st. by apply tearsDown_record.
  - intros st. destruct (objects st !! keyOf obj) eqn:Hlive; simpl; [| reflexivity].
    split; simpl; try done; [| by apply issues_silent].
    intros k. destruct (decide (keyOf obj = k)) as [<-|Hk].
    + right. split; [apply lookup_delete_eq |].
      by rewrite <- resourceExistsInSpec_key.
    + left. by apply lookup_delete_ne.
Qed.

Lemma StatusUpdate_tearsDown (P : Call → Prop) (spec : list RawExtension)
    (nc : NamespaceClass) :
  P (CallStatusUpdate nc) → preserves (tearsDown P spec) (StatusUpdate nc).
Proof.
  intros HP. apply preserves_api; [apply _ | |].
  - intros st. by apply tearsDown_record.
  - intros st. destruct (classes st !! ncName nc) as [[sp status]|] eqn:Hc;
      simpl; [| reflexivity].
    split; simpl; try done; [| by left | by apply issues_silent].
    intros n. destruct (decide (ncName nc = n)) as [<-|Hn].
    + by rewrite lookup_insert_eq, Hc.
    + by rewrite lookup_insert_ne.
Qed.

Lemma fetchNamespaceClass_tearsDown (P : Call → Prop) (spec : list RawExtension)
    (label : string) (nc : NamespaceClass) :
  P (CallGetNamespaceClass label) →
  preserves (tearsDown P spec) (fetchNamespaceClass label nc).
Proof.
  intros HP. unfold fetchNamespaceClass.
  apply preserves_bind; [apply _ | |].
  - apply preserves_attempt. by apply GetNamespaceClass_tearsDown.
  - intros [found|e]; [apply preserves_ret; apply _ |].
    destruct (IsNotFound e); [apply preserves_ret | apply preserves_fail]; apply _.
Qed.

Lemma handleNamespaceClassChange_range_tearsDown (namespace : Namespace)
    (resources : list RawExtension) (nc : NamespaceClass) :
  preserves (tearsDown (sweepCall (SpecResources nc)) (SpecResources nc))
            (handleNamespaceClassChange_range namespace resources nc).
Proof.
  induction resources as [|resource rest IH]; simpl.
  - apply preserves_ret; apply _.
  - apply preserves_bind; [apply _ | apply preserves_lift; apply _ |].
    intros obj. apply preserves_bind; [apply _ | |].
    { apply preserves_attempt. by apply Get_tearsDown. }
    intros [live|e].
    + apply preserves_bind; [apply _ | | by intros].
      destruct (negb _) eqn:Hcheck; [| apply preserves_ret; apply _].
      apply Delete_tearsDown; by apply negb_true_iff.
    + destruct (IsNotFound e); [done | apply preserves_fail; apply _].
Qed.

Lemma handleNamespaceClassChange_tearsDown (namespace : Namespace)
    (lastName : string) (nc : NamespaceClass) :
  preserves (tearsDown (sweepCall (SpecResources nc)) (SpecResources nc))
            (handleNamespaceClassChange namespace lastName nc).
Proof.
  unfold handleNamespaceClassChange. apply preserves_bind; [apply _ | |].
  - by apply fetchNamespaceClass_tearsDown.
  - intros old. apply handleNamespaceClassChange_range_tearsDown.
Qed.

Lemma untrack_range_tearsDown (name : string) (spec : list RawExtension)
    (obj : Unstructured) (idxs : list nat) (backing : list ResourceStatus) (len : nat) :
  preserves (tearsDown (orphanCall spec) spec)
            (untrack_range name spec obj idxs backing len).
Proof.
  revert backing len. induction idxs as [|i rest IH]; intros backing len; simpl.
  - apply preserves_ret; apply _.
  - destruct (backing !! i) as [statusResource|]; [| apply preserves_fail; apply _].
    destruct (sameResource statusResource obj); [| apply IH].
    case_bool_decide; [| apply preserves_fail; apply _].
    apply preserves_bind; [apply _ | | intros; apply IH].
    by apply StatusUpdate_tearsDown.
Qed.

Lemma handleResourcesDeletion_range_tearsDown (namespace : Namespace) (name : string)
    (spec : list RawExtension) (js : list nat)
    (backing : list ResourceStatus) (len : nat) :
  preserves (tearsDown (orphanCall spec) spec)
            (handleResourcesDeletion_range namespace name spec js backing len).
Proof.
  revert backing len. induction js as [|j rest IH]; intros backing len; simpl.
  - apply preserves_ret; apply _.
  - destruct (backing !! j) as [resource|]; [| apply preserves_fail; apply _].
    destruct (negb _) eqn:Hcheck; [| apply IH].
    apply preserves_bind; [apply _ | |].
    { apply Delete_tearsDown; by apply negb_true_iff. }
    intros _. apply preserves_bind; [apply _ | |].
    { apply untrack_range_tearsDown. }
    intros [backing' len']. apply IH.
Qed.

Lemma handleResourcesDeletion_tearsDown (namespace : Namespace) (nc : NamespaceClass) :
  preserves (tearsDown (orphanCall (SpecResources nc)) (SpecResources nc))
            (handleResourcesDeletion namespace nc).
Proof.
  unfold handleResourcesDeletion. apply preserves_bind; [apply _ | |].
  - apply handleResourcesDeletion_range_tearsDown.
  - intros [backing len]. apply preserves_ret; apply _.
Qed.

(** ** What the fetches return *)

Lemma fetchNamespace_found (req : string) (zero : Namespace) (st : Cluster)
    (ls an : gmap string string) :
  namespaces st !! req = Some (ls, an) →
  fetchNamespace req zero st =
  if hd false (faults st) then (Err ErrTransport, record (CallGetNamespace req) st)
  else (Ok (mkNamespace req ls an), record (CallGetNamespace req) st).
Proof.
  intros Hns. unfold fetchNamespace, GetNamespace.
  rewrite bind_run, attempt_run, api_run.
  destruct (hd false (faults st)); [done |].
  change (namespaces (record (CallGetNamespace req) st)) with (namespaces st).
  by rewrite Hns.
Qed.

Lemma fetchNamespaceClass_found (label : string) (zero : NamespaceClass)
    (st : Cluster) (spec : list RawExtension) (status : list ResourceStatus) :
  classes st !! label = Some (spec, status) →
  fetchNamespaceClass label zero st =
  if hd false (faults st) then (Err ErrTransport, record (CallGetNamespaceClass label) st)
  else (Ok (mkNamespaceClass label spec status), record (CallGetNamespaceClass label) st).
Proof.
  intros Hc. unfold fetchNamespaceClass, GetNamespaceClass.
  rewrite bind_run, attempt_run, api_run.
  destruct (hd false (faults st)); [done |].
  change (classes (record (CallGetNamespaceClass label) st)) with (classes st).
  by rewrite Hc.
Qed.

Lemma fetchNamespaceClass_absent (label : string) (zero : NamespaceClass)
    (st : Cluster) :
  classes st !! label = None →
  fetchNamespaceClass label zero st =
  if hd false (faults st) then (Err ErrTransport, record (CallGetNamespaceClass label) st)
  else (Ok zero, record (CallGetNamespaceClass label) st).
Proof.
  intros Hc. unfold fetchNamespaceClass, GetNamespaceClass.
  rewrite bind_run, attempt_run, api_run.
  destruct (hd false (faults st)); [done |].
  change (classes (record (CallGetNamespaceClass label) st)) with (classes st).
  by rewrite Hc.
Qed.

(** ** Successful runs of the convergence stage *)

Lemma createOrUpdate_live (obj obj' : Unstructured) (st st' : Cluster) :
  createOrUpdate obj st = (Ok obj', st') → is_Some (objects st' !! keyOf obj).
Proof.
  unfold createOrUpdate. rewrite bind_run, attempt_run, Get_run.
  destruct (hd false (faults st)); cbn [fst snd IsNotFound]; [done |].
  destruct (objects st !! keyOf obj) as [body|] eqn:Hlive; cbn [fst snd IsNotFound];
    rewrite bind_run; [rewrite Update_run | rewrite Create_run];
    (destruct (hd false _); [done |]);
    change (objects (record _ ?s) !! keyOf _) with (objects s !! keyOf obj);
    rewrite Hlive; intros H; inversion H; subst; cbn; by rewrite lookup_insert_eq.
Qed.

Lemma handleResources_range_name (namespace : Namespace)
    (resources : list RawExtension) (nc nc' : NamespaceClass) (st st' : Cluster) :
  handleResources_range namespace resources nc st = (Ok nc', st') →
  ncName nc' = ncName nc ∧ SpecResources nc' = SpecResources nc.
Proof.
  revert nc st. induction resources as [|resource rest IH]; intros nc st; simpl.
  - intros H. by inversion H.
  - intros H.
    apply bind_Ok in H as (obj & st1 & _ & H).
    apply bind_Ok in H as (obj' & st2 & _ & H).
    apply bind_Ok in H as (nc1 & st3 & Htrack & H).
    apply trackResource_name in Htrack as [Hn Hs].
    apply IH in H as [-> ->]. done.
Qed.

(** After a successful run every manifest of the range decodes and has a live
    object at its address in the namespace. *)
Lemma handleResources_range_live (namespace : Namespace)
    (resources : list RawExtension) (nc nc' : NamespaceClass) (st st' : Cluster) :
  handleResources_range namespace resources nc st = (Ok nc', st') →
  Forall (λ raw, ∃ doc, raw = RawObject doc ∧
            is_Some (objects st' !! keyOf (SetNamespace doc (nsName namespace))))
         resources.
Proof.
  revert nc st. induction resources as [|resource rest IH]; intros nc st; simpl.
  - intros _. constructor.
  - intros H.
    apply bind_Ok in H as (obj & st1 & Hdec & H).
    apply bind_Ok in H as (obj' & st2 & Hcou & H).
    apply bind_Ok in H as (nc1 & st3 & Htrack & H).
    constructor; [| by eapply IH].
    destruct resource as [doc|bytes]; [| discriminate Hdec].
    inversion Hdec; subst. exists obj. split; [done |].
    apply createOrUpdate_live in Hcou as [body Hbody].
    pose proof (trackResource_converges (nsName namespace) obj' nc st2) as Ht.
    rewrite Htrack in Ht.
    pose proof (handleResources_range_converges namespace rest nc1 st3) as Hr.
    rewrite H in Hr. exists body.
    eapply lookup_weaken; [| apply (conv_objects _ _ _ _ Hr)].
    eapply lookup_weaken; [| apply (conv_objects _ _ _ _ Ht)]. done.
Qed.

Lemma Forall_decodable_of_live (ns : string) (objs : gmap ObjectKey string)
    (resources : list RawExtension) :
  Forall (λ raw, ∃ doc, raw = RawObject doc ∧
            is_Some (objs !! keyOf (SetNamespace doc ns))) resources →
  Forall decodable resources.
Proof. intros H. eapply Forall_impl; [exact H |]. by intros raw (doc & -> & _). Qed.

(** ** Successful runs of the class-change sweep *)

Lemma Delete_Ok (obj : Unstructured) (st st' : Cluster) :
  Delete obj st = (Ok (), st') → objects st' !! keyOf obj = None.
Proof.
  rewrite Delete_run. destruct (hd false (faults st)); [done |].
  destruct (objects st !! keyOf obj); [| done].
  intros H; inversion H; subst. cbn. apply lookup_delete_eq.
Qed.

Lemma tearsDown_gone (P : Call → Prop) (spec : list RawExtension)
    (st st' : Cluster) (k : ObjectKey) :
  tearsDown P spec st st' → objects st !! k = None → objects st' !! k = None.
Proof. intros [_ _ Ho _] Hk. destruct (Ho k) as [E|[E _]]; congruence. Qed.

Lemma tearsDown_kept (P : Call → Prop) (spec : list RawExtension)
    (st st' : Cluster) (k : ObjectKey) :
  tearsDown P spec st st' → keyDeclared spec k = true →
  objects st' !! k = objects st !! k.
Proof. intros [_ _ Ho _] Hk. destruct (Ho k) as [E|[_ E]]; congruence. Qed.

(** After a successful sweep no manifest of the range that the new class does
    not declare has a live object at its address. *)
Lemma handleNamespaceClassChange_range_gone (namespace : Namespace)
    (resources : list RawExtension) (nc : NamespaceClass) (st st' : Cluster)
    (x : Unstructured) :
  handleNamespaceClassChange_range namespace resources nc st = (Ok (), st') →
  RawObject x ∈ resources →
  resourceExistsInSpec x (SpecResources nc) = false →
  objects st' !! keyOf (SetNamespace x (nsName namespace)) = None.
Proof.
  intros Hrun Hin Hundeclared. revert st Hrun.
  induction resources as [|resource rest IH]; intros st; [by inversion Hin |].
  simpl. intros H.
  apply bind_Ok in H as (obj & st0 & Hdec & H).
  inversion Hdec; subst st0.
  rewrite bind_run, attempt_run, Get_run in H.
  assert (Hrest : ∀ s, tearsDown (sweepCall (SpecResources nc)) (SpecResources nc) s
            (handleNamespaceClassChange_range namespace rest nc s).2)
    by apply handleNamespaceClassChange_range_tearsDown.
  apply elem_of_cons in Hin as [<-|Hin].
  - injection Hdec as <-.
    set (o := SetNamespace x (nsName namespace)) in *.
    destruct (hd false (faults st)); cbn [fst snd IsNotFound] in H; [done |].
    destruct (objects st !! keyOf o) as [body|] eqn:Hlive;
      cbn [fst snd IsNotFound] in H.
    + apply bind_Ok in H as ([] & st2 & Hdel & H).
      specialize (Hrest st2). rewrite H in Hrest.
      eapply tearsDown_gone; [exact Hrest |].
      unfold resourceExistsInNamespaceClass in Hdel.
      rewrite (resourceExistsInSpec_gvk _ x) in Hdel by done.
      rewrite Hundeclared in Hdel. by apply Delete_Ok in Hdel.
    + specialize (Hrest (record (CallGet (keyOf o)) st)). rewrite H in Hrest.
      eapply tearsDown_gone; [exact Hrest | done].
  - destruct (hd false (faults st)); cbn [fst snd IsNotFound] in H; [done |].
    destruct (objects st !! _) as [body|]; cbn [fst snd IsNotFound] in H.
    + apply bind_Ok in H as ([] & st2 & _ & H). by eapply IH.
    + by eapply IH.
Qed.

Lemma handleNamespaceClassChange_gone (namespace : Namespace) (lastName : string)
    (nc : NamespaceClass) (st st' : Cluster)
    (spec : list RawExtension) (status : list ResourceStatus) (x : Unstructured) :
  classes st !! lastName = Some (spec, status) →
  handleNamespaceClassChange namespace lastName nc st = (Ok (), st') →
  RawObject x ∈ spec →
  resourceExistsInSpec x (SpecResources nc) = false →
  objects st' !! keyOf (SetNamespace x (nsName namespace)) = None.
Proof.
  intros Hold Hrun Hin Hundeclared. unfold handleNamespaceClassChange in Hrun.
  apply bind_Ok in Hrun as (old & st1 & Hfetch & Hrun).
  rewrite (fetchNamespaceClass_found _ _ _ _ _ Hold) in Hfetch.
  destruct (hd false (faults st)); [done |]. inversion Hfetch; subst old st1.
  by eapply handleNamespaceClassChange_range_gone.
Qed.

Lemma convergeCall_spares (ns name : string) (spec : list RawExtension) (c : Call) :
  convergeCall ns name c → spares spec c.
Proof. by destruct c. Qed.

Lemma sweepCall_spares (spec : list RawExtension) (c : Call) :
  sweepCall spec c → spares spec c.
Proof. by destruct c. Qed.

Lemma orphanCall_spares (spec : list RawExtension) (c : Call) :
  orphanCall spec c → spares spec c.
Proof. by destruct c. Qed.

Lemma UpdateNamespace_Ok (ns : Namespace) (st st' : Cluster) :
  UpdateNamespace ns st = (Ok (), st') →
  st' = setNamespaces <[nsName ns := (Labels ns, Annotations ns)]>
                      (record (CallUpdateNamespace ns) st).
Proof.
  rewrite UpdateNamespace_run. destruct (hd false (faults st)); [done |].
  destruct (namespaces st !! nsName ns); [| done]. by intros H; inversion H.
Qed.

(** Claim C4.  A namespace whose last-name annotation names class [A] and
    whose label now names class [B], both in the store: after a successful
    pass, no manifest of [A] whose group-version-kind [B] does not declare has
    a live object left in the namespace; every object that was live and whose
    group-version-kind [B] declares is still there, unchanged, and no delete
    was issued for it; every manifest of [B] has a live object in the
    namespace; and the stored last-name annotation reads [B]. *)
Theorem class_change_teardown (req A B : string) (st : Cluster)
    (ls an : gmap string string) (specA specB : list RawExtension)
    (statusA statusB : list ResourceStatus) :
  namespaces st !! req = Some (ls, an) →
  ls !! classLabel = Some B →
  an !! lastNameAnnotation = Some A →
  A ≠ B →
  classes st !! A = Some (specA, statusA) →
  classes st !! B = Some (specB, statusB) →
  (Reconcile req st).1 = Ok () →
  let st' := (Reconcile req st).2 in
  (∀ x, RawObject x ∈ specA →
        (∀ y, RawObject y ∈ specB → GroupVersionKind y ≠ GroupVersionKind x) →
        objects st' !! keyOf (SetNamespace x req) = None)
  ∧ (∀ y live body, RawObject y ∈ specB →
        GroupVersionKind y = GroupVersionKind live →
        objects st !! keyOf live = Some body →
        objects st' !! keyOf live = Some body
        ∧ CallDelete live ∉ drop (length (calls st)) (calls st'))
  ∧ (∀ z, RawObject z ∈ specB →
        is_Some (objects st' !! keyOf (SetNamespace z req)))
  ∧ namespaces st' !! req = Some (ls, <[lastNameAnnotation := B]> an).
Proof.
  intros Hns Hlabel Han HAB HA HB Hok.
  destruct (Reconcile req st) as [r st'] eqn:Hrun. cbn [fst snd] in Hok |- *.
  subst r. unfold Reconcile in Hrun.
  apply bind_Ok in Hrun as (namespace & s1 & Hfetch & Hrun).
  rewrite (fetchNamespace_found _ _ _ _ _ Hns) in Hfetch.
  destruct (hd false (faults st)); [done |].
  inversion Hfetch; subst namespace s1; clear Hfetch.
  cbn [Labels] in Hrun. rewrite Hlabel in Hrun.
  set (s1 := record (CallGetNamespace req) st) in *.
  apply bind_Ok in Hrun as (nc & s2 & Hfetch & Hrun).
  rewrite (fetchNamespaceClass_found _ _ s1 _ _ HB) in Hfetch.
  destruct (hd false (faults s1)); [done |].
  inversion Hfetch; subst nc s2; clear Hfetch.
  set (s2 := record (CallGetNamespaceClass B) s1) in *.
  set (namespace := mkNamespace req ls an) in *.
  apply bind_Ok in Hrun as (nc & s3 & Hconv & Hrun).
  unfold handleResources in Hconv. cbn [SpecResources] in Hconv.
  pose proof (handleResources_range_live _ _ _ _ _ _ Hconv) as Hlive.
  pose proof (handleResources_range_name _ _ _ _ _ _ Hconv) as [Hname Hspec].
  pose proof (handleResources_range_converges namespace specB
                (mkNamespaceClass B specB statusB) s2) as Hframe.
  rewrite Hconv in Hframe. cbn [snd nsName ncName namespace] in Hframe.
  cbn [ncName SpecResources] in Hname, Hspec.
  assert (Hdec : Forall decodable specB) by (by eapply Forall_decodable_of_live).
  unfold handleNamespaceAnnotations, detectClassChange in Hrun.
  cbn [Annotations namespace] in Hrun.
  rewrite Han, Hname in Hrun. rewrite bool_decide_true in Hrun by done.
  apply bind_Ok in Hrun as (namespace' & s4 & Hsweep & Hrun).
  apply bind_Ok in Hsweep as ([] & s4' & Hsweep & Hret).
  inversion Hret; subst namespace' s4'; clear Hret.
  apply bind_Ok in Hrun as ([] & s5 & Hupd & Hrun).
  apply bind_Ok in Hrun as (ncf & s6 & Horphan & Hret).
  inversion Hret; subst s6; clear Hret.
  apply UpdateNamespace_Ok in Hupd.
  cbn [nsName Labels Annotations setLastName namespace] in Hupd.
  pose proof (handleNamespaceClassChange_tearsDown (setLastName namespace B) A nc s3)
    as Hsweepframe.
  rewrite Hsweep, Hspec in Hsweepframe. cbn [snd] in Hsweepframe.
  pose proof (handleResourcesDeletion_tearsDown (setLastName namespace B) nc s5)
    as Horphanframe.
  rewrite Horphan, Hspec in Horphanframe. cbn [snd] in Horphanframe.
  assert (Hobj5 : objects s5 = objects s4) by (by subst s5).
  assert (HoldA : ∃ status, classes s3 !! A = Some (specA, status)).
  { pose proof (conv_specs _ _ _ _ Hframe A) as E.
    change (classes s2) with (classes st) in E. rewrite HA in E.
    destruct (classes s3 !! A) as [[sp status]|]; [| done].
    injection E as ->. by exists status. }
  destruct HoldA as [statusA' HoldA].
  split; [| split; [| split]].
  - intros x Hx Hundeclared.
    eapply tearsDown_gone; [exact Horphanframe |]. rewrite Hobj5.
    eapply (handleNamespaceClassChange_gone _ _ _ _ _ _ _ x HoldA Hsweep Hx).
    rewrite Hspec. destruct (resourceExistsInSpec x specB) eqn:Hex; [| done].
    apply resourceExistsInSpec_true in Hex as (y & Hy & E). by destruct (Hundeclared y).
  - intros y live body Hy Egvk Hbody.
    assert (Hdeclared : resourceExistsInSpec live specB = true)
      by (by eapply resourceExistsInSpec_declared).
    split.
    + rewrite (tearsDown_kept _ _ _ _ _ Horphanframe)
        by (by rewrite <- resourceExistsInSpec_key).
      rewrite Hobj5.
      rewrite (tearsDown_kept _ _ _ _ _ Hsweepframe)
        by (by rewrite <- resourceExistsInSpec_key).
      eapply lookup_weaken; [exact Hbody | apply (conv_objects _ _ _ _ Hframe)].
    + assert (Hissues : issues (spares specB) st st').
      { etrans; [apply (issues_record _ (CallGetNamespace req)); done |].
        etrans; [apply (issues_record _ (CallGetNamespaceClass B)); done |].
        etrans; [eapply issues_weaken;
                 [apply convergeCall_spares | apply (conv_calls _ _ _ _ Hframe)] |].
        etrans; [eapply issues_weaken;
                 [apply sweepCall_spares | apply (tear_calls _ _ _ _ Hsweepframe)] |].
        etrans; [| eapply issues_weaken;
                   [apply orphanCall_spares | apply (tear_calls _ _ _ _ Horphanframe)]].
        subst s5. exists [CallUpdateNamespace (setLastName namespace B)].
        split; [done | by constructor]. }
      destruct Hissues as (new & E & Hnew). rewrite E, drop_app_length.
      intros Hin. rewrite Forall_forall in Hnew. apply Hnew in Hin.
      cbn in Hin. congruence.
  - intros z Hz. rewrite Forall_forall in Hlive.
    destruct (Hlive _ Hz) as (doc & E & Hsome). injection E as <-.
    set (k := keyOf (SetNamespace z req)) in *.
    assert (Hk : keyDeclared specB k = true).
    { unfold k. rewrite <- resourceExistsInSpec_key.
      by eapply resourceExistsInSpec_declared. }
    rewrite (tearsDown_kept _ _ _ _ _ Horphanframe) by done. rewrite Hobj5.
    by rewrite (tearsDown_kept _ _ _ _ _ Hsweepframe).
  - rewrite (tear_namespaces _ _ _ _ Horphanframe). subst s5. cbn.
    by rewrite lookup_insert_eq.
Qed.

(** Claim C10.  The convergence stage never deletes an object and never
    touches a namespace: whatever its outcome, [handleResources] issues only
    get, create and full-object update calls on resources of the namespace
    being reconciled and status updates of the class in hand; namespaces are
    as before, every object that was live is still live with the content it
    had, objects of other namespaces are as before, so are the other classes,
    and no class spec changes. *)
Theorem handleResources_frame (namespace : Namespace) (nc : NamespaceClass)
    (st : Cluster) :
  let st' := (handleResources namespace nc st).2 in
  (∃ new, calls st' = calls st ++ new
          ∧ Forall (convergeCall (nsName namespace) (ncName nc)) new)
  ∧ namespaces st' = namespaces st
  ∧ (∀ k body, objects st !! k = Some body → objects st' !! k = Some body)
  ∧ (∀ k, keyNamespace k ≠ nsName namespace → objects st' !! k = objects st !! k)
  ∧ (∀ n, n ≠ ncName nc → classes st' !! n = classes st !! n)
  ∧ (∀ n, fst <$> classes st' !! n = fst <$> classes st !! n).
Proof.
  intros st'.
  destruct (handleResources_range_converges namespace (SpecResources nc) nc st)
    as [Hn Hc Hs Ho He Hl].
  fold (handleResources namespace nc) in *. fold st' in Hn, Hc, Hs, Ho, He, Hl.
  repeat split; try done.
  intros k body Hk. by eapply lookup_weaken.
Qed.

Lemma preserves_impl (R R' : relation Cluster) {A} (m : M A) :
  (∀ st st', R st st' → R' st st') → preserves R m → preserves R' m.
Proof. intros HR Hm st. apply HR, Hm. Qed.

(** ** A namespace whose class does not exist *)

Lemma handleResourcesDeletion_empty (namespace : Namespace) (name : string)
    (spec : list RawExtension) (st : Cluster) :
  handleResourcesDeletion namespace (mkNamespaceClass name spec []) st
  = (Ok (mkNamespaceClass name spec []), st).
Proof. reflexivity. Qed.

Lemma UpdateNamespace_issues (P : Call → Prop) (ns : Namespace) :
  P (CallUpdateNamespace ns) → preserves (issues P) (UpdateNamespace ns).
Proof.
  intros HP. apply preserves_api; [apply _ | |].
  - intros st. by apply issues_record.
  - intros st. destruct (namespaces st !! nsName ns); by apply issues_silent.
Qed.

Lemma handleNamespaceAnnotations_zero_issues (namespace : Namespace) :
  preserves (issues noConvergeCall)
            (handleNamespaceAnnotations namespace zeroNamespaceClass).
Proof.
  unfold handleNamespaceAnnotations, detectClassChange.
  apply preserves_bind; [apply _ | |].
  - destruct (Annotations namespace !! lastNameAnnotation) as [lastName|];
      [| apply preserves_ret; apply _].
    case_bool_decide; [| apply preserves_ret; apply _].
    apply preserves_bind; [apply _ | | intros; apply preserves_ret; apply _].
    eapply preserves_impl; [| apply handleNamespaceClassChange_tearsDown].
    intros st st' Hst. eapply issues_weaken; [| apply (tear_calls _ _ _ _ Hst)].
    by intros [].
  - intros namespace'. apply preserves_bind; [apply _ | |].
    + by apply UpdateNamespace_issues.
    + intros _ st. by apply issues_silent.
Qed.

Lemma Reconcile_absent_run (req label : string) (st : Cluster)
    (ls an : gmap string string) :
  namespaces st !! req = Some (ls, an) →
  ls !! classLabel = Some label →
  classes st !! label = None →
  Reconcile req st =
  let s1 := record (CallGetNamespace req) st in
  let s2 := record (CallGetNamespaceClass label) s1 in
  if hd false (faults st) then (Err ErrTransport, s1)
  else if hd false (faults s1) then (Err ErrTransport, s2)
  else handleNamespaceAnnotations (mkNamespace req ls an) zeroNamespaceClass s2.
Proof.
  intros Hns Hlabel Habsent. unfold Reconcile.
  rewrite bind_run, (fetchNamespace_found _ _ _ _ _ Hns).
  destruct (hd false (faults st)); [done |]. cbn [Labels]. rewrite Hlabel.
  rewrite bind_run,
    (fetchNamespaceClass_absent label _ (record (CallGetNamespace req) st) Habsent).
  by destruct (hd false (faults _)).
Qed.

(** ** A class with an undecodable manifest *)

Lemma UnmarshalJSON_Err (raw : RawExtension) :
  isOk (UnmarshalJSON raw) = false → UnmarshalJSON raw = Err ErrDecode.
Proof. by destruct raw. Qed.

Lemma handleResources_range_undecodable (namespace : Namespace)
    (pre post : list RawExtension) (bad : RawExtension)
    (nc : NamespaceClass) (st : Cluster) :
  isOk (UnmarshalJSON bad) = false →
  handleResources_range namespace (pre ++ bad :: post) nc st =
  match handleResources_range namespace pre nc st with
  | (Ok _, st') => (Err ErrDecode, st')
  | (Err e, st') => (Err e, st')
  end.
Proof.
  intros Hbad. revert nc st. induction pre as [|resource pre IH]; intros nc st.
  - cbn [app handleResources_range]. rewrite bind_run.
    by rewrite (UnmarshalJSON_Err _ Hbad).
  - cbn [app handleResources_range]. rewrite !bind_run.
    destruct (lift (UnmarshalJSON resource) st) as [[obj|e] st1]; [| done].
    rewrite !bind_run.
    destruct (createOrUpdate _ st1) as [[obj'|e] st2]; [| done].
    rewrite !bind_run.
    destruct (trackResource obj' nc st2) as [[nc'|e] st3]; [| done].
    apply IH.
Qed.

(** ** The declared-set check on a class with an undecodable manifest *)


(** ** The annotation stage *)

Lemma setLastName_id (namespace : Namespace) (name : string) :
  Annotations namespace !! lastNameAnnotation = Some name →
  setLastName namespace name = namespace.
Proof.
  intros Han. destruct namespace as [n ls an]. unfold setLastName. cbn in *.
  by rewrite insert_id.
Qed.

Lemma detectClassChange_tearsDown (namespace : Namespace) (nc : NamespaceClass) :
  preserves (tearsDown (sweepCall (SpecResources nc)) (SpecResources nc))
            (detectClassChange namespace nc).
Proof.
  unfold detectClassChange.
  destruct (Annotations namespace !! lastNameAnnotation) as [lastName|];
    [| apply preserves_ret; apply _].
  case_bool_decide; [| apply preserves_ret; apply _].
  apply preserves_bind; [apply _ | | intros; apply preserves_ret; apply _].
  apply handleNamespaceClassChange_tearsDown.
Qed.

Lemma detectClassChange_Ok (namespace namespace' : Namespace) (nc : NamespaceClass)
    (st st' : Cluster) :
  detectClassChange namespace nc st = (Ok namespace', st') →
  namespace' = setLastName namespace (ncName nc).
Proof.
  unfold detectClassChange.
  destruct (Annotations namespace !! lastNameAnnotation) as [lastName|] eqn:Han.
  - case_bool_decide as Hne.
    + intros H. apply bind_Ok in H as (? & ? & _ & H). by inversion H.
    + intros H. inversion H; subst. symmetry. by apply setLastName_id.
  - intros H. by inversion H.
Qed.

(** Claim C7, as amended.  In the annotation stage the last-name annotation
    is set on the in-memory namespace before the class-change sweep is
    called; with no class change (annotation unset, or equal to the class
    name) that step issues no call.  If the step fails, the stage stops with
    its error and the namespace is not persisted.  Otherwise the namespace,
    carrying the new annotation, is persisted exactly once: after every call
    of the sweep, and before the calls of the orphan sweep, which are deletes
    and status updates only. *)
Theorem annotation_stage_order (namespace : Namespace) (nc : NamespaceClass)
    (st : Cluster) :
  let updated := setLastName namespace (ncName nc) in
  let spec := SpecResources nc in
  (∀ lastName, Annotations namespace !! lastNameAnnotation = Some lastName →
     lastName ≠ ncName nc →
     detectClassChange namespace nc =
     (handleNamespaceClassChange updated lastName nc ;; mret updated))
  ∧ (Annotations namespace !! lastNameAnnotation = None
     ∨ Annotations namespace !! lastNameAnnotation = Some (ncName nc) →
     detectClassChange namespace nc st = (Ok updated, st))
  ∧ match detectClassChange namespace nc st with
    | (Err e, s1) =>
        handleNamespaceAnnotations namespace nc st = (Err e, s1)
        ∧ (∃ sweep, calls s1 = calls st ++ sweep ∧ Forall (sweepCall spec) sweep)
    | (Ok _, s1) =>
        (∃ sweep, calls s1 = calls st ++ sweep ∧ Forall (sweepCall spec) sweep)
        ∧ ∃ orphan,
            calls (handleNamespaceAnnotations namespace nc st).2 =
              calls s1 ++ CallUpdateNamespace updated :: orphan
            ∧ Forall (orphanCall spec) orphan
    end.
Proof.
  intros updated spec. split; [| split].
  - intros lastName Han Hne. unfold detectClassChange.
    rewrite Han. by rewrite bool_decide_true.
  - intros [Han|Han]; unfold detectClassChange; rewrite Han; [done |].
    rewrite bool_decide_false by (intros H; by apply H).
    unfold updated. by rewrite setLastName_id.
  - pose proof (detectClassChange_tearsDown namespace nc st) as Hsweep.
    unfold handleNamespaceAnnotations. rewrite bind_run.
    destruct (detectClassChange namespace nc st) as [[namespace'|e] s1] eqn:Hdetect;
      cbn [snd] in Hsweep; [| split; [done | apply (tear_calls _ _ _ _ Hsweep)]].
    split; [apply (tear_calls _ _ _ _ Hsweep) |].
    apply detectClassChange_Ok in Hdetect. subst namespace'. fold updated.
    rewrite bind_run, UpdateNamespace_run.
    destruct (hd false (faults s1)); [by exists [] |].
    destruct (namespaces s1 !! nsName updated); [| by exists []].
    set (s2 := setNamespaces _ _). rewrite bind_run.
    pose proof (handleResourcesDeletion_tearsDown updated nc s2) as Horphan.
    apply tear_calls in Horphan as (orphan & E & Horphan).
    exists orphan. split; [| done].
    destruct (handleResourcesDeletion updated nc s2) as [[nc'|e] s3];
      unfold mret, M_ret; cbn [snd] in E |- *; rewrite E; unfold s2; cbn;
      by rewrite <- app_assoc.
Qed.

(** ** Watch-to-request mapping *)

Lemma enqueueMatching_requestsFor (nc : NamespaceClass) (items : list Namespace)
    (reqs : list Request) :
  enqueueMatching nc items reqs = reqs ++ requestsFor (ncName nc) items.
Proof.
  revert reqs. induction items as [|ns items IH]; intros reqs; simpl.
  - by rewrite app_nil_r.
  - unfold requestsFor. rewrite filter_cons. case_bool_decide as Hmatch.
    + rewrite decide_True by done. rewrite IH, <- app_assoc. done.
    + rewrite decide_False by done. apply IH.
Qed.

Lemma ListNamespaces_run (st : Cluster) :
  ListNamespaces st =
  if hd false (faults st) then (Err ErrTransport, record CallListNamespaces st)
  else (Ok (toNamespace <$> map_to_list (namespaces st)),
        record CallListNamespaces st).
Proof. unfold ListNamespaces. rewrite api_run. by destruct (hd false (faults st)). Qed.

Lemma requestsFor_NoDup (name : string)
    (m : gmap string (gmap string string * gmap string string)) :
  NoDup (requestsFor name (toNamespace <$> map_to_list m)).
Proof.
  unfold requestsFor. apply NoDup_fmap_2_strong.
  - intros x y [_ Hx]%list_elem_of_filter [_ Hy]%list_elem_of_filter E.
    apply list_elem_of_fmap in Hx as ([n1 [l1 a1]] & -> & H1).
    apply list_elem_of_fmap in Hy as ([n2 [l2 a2]] & -> & H2).
    apply elem_of_map_to_list in H1, H2. cbn in E. injection E as ->.
    rewrite H1 in H2. by injection H2 as -> ->.
  - apply NoDup_filter, NoDup_fmap_2_strong; [| apply NoDup_map_to_list].
    intros [n1 [l1 a1]] [n2 [l2 a2]] _ _ E. by injection E as -> -> ->.
Qed.

Lemma requestsFor_elem (name n : string)
    (m : gmap string (gmap string string * gmap string string)) :
  mkRequest n ∈ requestsFor name (toNamespace <$> map_to_list m)
  ↔ ∃ ls an, m !! n = Some (ls, an) ∧ default "" (ls !! classLabel) = name.
Proof.
  unfold requestsFor. rewrite list_elem_of_fmap. split.
  - intros (ns & E & [Hmatch Hin]%list_elem_of_filter).
    apply list_elem_of_fmap in Hin as ([n' [ls an]] & -> & Hin).
    apply elem_of_map_to_list in Hin. injection E as ->.
    by exists ls, an.
  - intros (ls & an & Hm & Hmatch). exists (mkNamespace n ls an).
    split; [done |]. apply list_elem_of_filter. split; [done |].
    apply list_elem_of_fmap. exists (n, (ls, an)). split; [done |].
    by apply elem_of_map_to_list.
Qed.

(** Claim C6.  The watch-to-request mapper answers with a function of the
    changed class's name and of the outcome of the namespace list, and
    changes nothing in the store (it issues one list call).  When the list
    fails the answer is empty.  When it succeeds there is exactly one request
    per namespace of the store whose class label reads the class's name (no
    request is repeated, and a namespace is requested if and only if its
    label matches), hence none when no namespace matches.  The label is read
    as Go reads a map, absent meaning the empty string, which for a class
    with a non-empty name is the same as the label being present and equal. *)
Theorem watch_fan_out (nc : NamespaceClass) (st : Cluster) :
  let reqs := (mapNamespaceClassToNamespaces (ObjNamespaceClass nc) st).1 in
  let st' := (mapNamespaceClassToNamespaces (ObjNamespaceClass nc) st).2 in
  reqs = match (ListNamespaces st).1 with
         | Ok items => requestsFor (ncName nc) items
         | Err _ => []
         end
  ∧ (namespaces st' = namespaces st ∧ classes st' = classes st
     ∧ objects st' = objects st ∧ calls st' = calls st ++ [CallListNamespaces])
  ∧ (hd false (faults st) = true → reqs = [])
  ∧ (hd false (faults st) = false →
     NoDup reqs
     ∧ (∀ n, mkRequest n ∈ reqs ↔
             ∃ ls an, namespaces st !! n = Some (ls, an)
                      ∧ default "" (ls !! classLabel) = ncName nc)
     ∧ ((∀ n ls an, namespaces st !! n = Some (ls, an) →
                    default "" (ls !! classLabel) ≠ ncName nc) → reqs = []))
  ∧ (ncName nc ≠ "" →
     ∀ ls : gmap string string,
       default "" (ls !! classLabel) = ncName nc ↔ ls !! classLabel = Some (ncName nc)).
Proof.
  intros reqs st'. subst reqs st'. unfold mapNamespaceClassToNamespaces.
  rewrite ListNamespaces_run.
  destruct (hd false (faults st)); cbn [fst snd].
  - repeat split; try done.
    + destruct (ls !! classLabel); naive_solver.
    + by intros ->.
  - rewrite enqueueMatching_requestsFor. cbn [app].
    split; [done |]. split; [done |]. split; [done |]. split.
    + intros _. split; [apply requestsFor_NoDup |].
      split; [intros n; apply requestsFor_elem |].
      intros Hnone.
      destruct (requestsFor _ _) as [|[n] reqs] eqn:E; [done |].
      assert (Hin : mkRequest n ∈ requestsFor (ncName nc)
                      (toNamespace <$> map_to_list (namespaces st)))
        by (rewrite E; left).
      apply requestsFor_elem in Hin as (ls & an & Hm & Hmatch).
      by destruct (Hnone n ls an).
    + intros Hname ls. destruct (ls !! classLabel); cbn; naive_solver.
Qed.

(** * The claims on concrete clusters *)

(** Claim C2 as stated, refuted: the ConfigMap declared before the malformed
    manifest is created before the pass fails. *)
Lemma malformed_second_applies_first :
  classes malformedSecondCluster !! "web" = Some (malformedSecondSpec, [])
  ∧ isOk (UnmarshalJSON (RawMalformed "{")) = false
  ∧ List.filter isApply (calls (Reconcile "dev" malformedSecondCluster).2)
    = [CallCreate (SetNamespace (configMap "settings" "replicas=3") "dev")]
  ∧ objects (Reconcile "dev" malformedSecondCluster).2
      !! inDev (configMap "settings" "") = Some "replicas=3"
  ∧ ¬ abortsBeforeAnyApply "dev" malformedSecondCluster.
Proof.
  split; [reflexivity |]. split; [reflexivity |]. split; [reflexivity |].
  split; [reflexivity |].
  intros [_ H]. change (false = true) in H. discriminate H.
Qed.

(** Claim C3, at a cluster where the code falls short of it: class [web]
    declares ConfigMap [settings] with [replicas=3] and the live object says
    [replicas=1].  The pass succeeds, the only create-or-update call it sends
    is an update carrying the live content, and the live object still says
    [replicas=1]: it was not replaced by the declared manifest. *)
Theorem drifted_object_not_replaced :
  classes driftedCluster !! "web"
    = Some ([RawObject (configMap "settings" "replicas=3")],
            [statusOf (configMap "settings" "")])
  ∧ objects driftedCluster !! inDev (configMap "settings" "") = Some "replicas=1"
  ∧ (Reconcile "dev" driftedCluster).1 = Ok ()
  ∧ List.filter isApply (calls (Reconcile "dev" driftedCluster).2)
    = [CallUpdate (SetNamespace (configMap "settings" "replicas=1") "dev")]
  ∧ objects (Reconcile "dev" driftedCluster).2 !! inDev (configMap "settings" "")
    = Some "replicas=1".
Proof. repeat split; reflexivity. Qed.

(** C4 on [relabelledCluster]: the Secret of class [internal] is gone, the
    ConfigMap both classes declare is as it was, the NetworkPolicy of class
    [public] is live and the annotation reads [public]. *)
Lemma class_change_teardown_witness :
  objects (Reconcile "dev" relabelledCluster).2
    !! keyOf (SetNamespace (secret "token" "s3cr3t") "dev") = None
  ∧ objects (Reconcile "dev" relabelledCluster).2
      !! keyOf (SetNamespace (configMap "settings" "") "dev") = Some "internal"
  ∧ is_Some (objects (Reconcile "dev" relabelledCluster).2
               !! keyOf (SetNamespace (networkPolicy "allow-all" "ingress=any") "dev"))
  ∧ namespaces (Reconcile "dev" relabelledCluster).2 !! "dev"
    = Some ({[ classLabel := "public" ]},
            <[ lastNameAnnotation := "public" ]> {[ lastNameAnnotation := "internal" ]}).
Proof.
  destruct (class_change_teardown "dev" "internal" "public" relabelledCluster
              {[ classLabel := "public" ]} {[ lastNameAnnotation := "internal" ]}
              internalSpec publicSpec
              [statusOf (secret "token" ""); statusOf (configMap "settings" "")] [])
    as (Hx & Hy & Hz & Hann);
    [reflexivity | reflexivity | reflexivity | discriminate
    | reflexivity | reflexivity | reflexivity |].
  split; [| split; [| split]].
  - apply (Hx (secret "token" "s3cr3t")); [left |].
    intros y Hin. apply elem_of_cons in Hin as [E|Hin].
    { injection E as ->. intros E. apply (f_equal gvkKind) in E. discriminate E. }
    apply elem_of_cons in Hin as [E|Hin].
    { injection E as ->. intros E. apply (f_equal gvkKind) in E. discriminate E. }
    apply elem_of_nil in Hin. destruct Hin.
  - apply (Hy (configMap "settings" "public")
              (SetNamespace (configMap "settings" "") "dev") "internal");
      [left | reflexivity | reflexivity].
  - apply (Hz (networkPolicy "allow-all" "ingress=any")). right; left.
  - exact Hann.
Defined.

(** Claim C5, at a cluster where the code falls short of it: two orphan
    entries ahead of a declared one.  The Secret is deleted and untracked; the
    NetworkPolicy, which slid into the slot just visited, is skipped: it
    stays live and stays in the ledger, and the pass reports success. *)
Theorem orphan_after_removed_entry_is_skipped :
  (Reconcile "dev" shrunkClassCluster).1 = Ok ()
  ∧ resourceExistsInSpec (networkPolicy "deny-all" "")
      [RawObject (configMap "settings" "replicas=3")] = false
  ∧ objects (Reconcile "dev" shrunkClassCluster).2 !! inDev (secret "token" "") = None
  ∧ objects (Reconcile "dev" shrunkClassCluster).2
      !! inDev (networkPolicy "deny-all" "") = Some "ingress=none"
  ∧ snd <$> classes (Reconcile "dev" shrunkClassCluster).2 !! "web"
    = Some [statusOf (networkPolicy "deny-all" ""); statusOf (configMap "settings" "")].
Proof. repeat split; reflexivity. Qed.

(** Claim C8, at a cluster where the code falls short of it: the pass that
    follows a successful pass on [shrunkClassCluster], with nothing changed in
    between, issues a delete and a status update; the NetworkPolicy that was
    live after the first pass is gone after the second, and the stored ledger
    differs. *)
Theorem second_pass_still_deletes :
  let st1 := (Reconcile "dev" shrunkClassCluster).2 in
  let st2 := (Reconcile "dev" st1).2 in
  (Reconcile "dev" shrunkClassCluster).1 = Ok ()
  ∧ (Reconcile "dev" st1).1 = Ok ()
  ∧ List.filter isDelete (newCalls (Reconcile "dev") st1)
    = [CallDelete (SetNamespace (networkPolicy "deny-all" "") "dev")]
  ∧ length (List.filter isStatusUpdate (newCalls (Reconcile "dev") st1)) = 1
  ∧ objects st1 !! inDev (networkPolicy "deny-all" "") = Some "ingress=none"
  ∧ objects st2 !! inDev (networkPolicy "deny-all" "") = None
  ∧ snd <$> classes st1 !! "web"
    = Some [statusOf (networkPolicy "deny-all" ""); statusOf (configMap "settings" "")]
  ∧ snd <$> classes st2 !! "web" = Some [statusOf (configMap "settings" "")].
Proof. intros st1 st2. subst st1 st2. repeat split; reflexivity. Qed.

(** Claim C7 as stated, refuted: the old class does not decode, the sweep
    fails and the namespace is never persisted. *)
Lemma failed_sweep_skips_persist :
  (Reconcile "dev" brokenOldClassCluster).1 = Err ErrDecode
  ∧ List.filter isPersist (calls (Reconcile "dev" brokenOldClassCluster).2) = []
  ∧ ¬ persistsExactlyOnce devFromLegacy emptyWeb brokenOldClassCluster.
Proof.
  split; [reflexivity |]. split; [reflexivity |].
  intros H. change (0 = 1) in H. discriminate H.
Qed.

(** The amended C7 on a namespace reconciled for the first time. *)
Lemma annotation_stage_order_witness :
  detectClassChange devFirstTime emptyWeb brokenOldClassCluster
    = (Ok (setLastName devFirstTime "web"), brokenOldClassCluster)
  ∧ persistsExactlyOnce devFirstTime emptyWeb brokenOldClassCluster.
Proof.
  destruct (annotation_stage_order devFirstTime emptyWeb brokenOldClassCluster)
    as (_ & Hinit & Hrun).
  assert (Hfirst : Annotations devFirstTime !! lastNameAnnotation = None
                   ∨ Annotations devFirstTime !! lastNameAnnotation
                     = Some (ncName emptyWeb)) by (left; reflexivity).
  specialize (Hinit Hfirst). split; [exact Hinit |].
  rewrite Hinit in Hrun. destruct Hrun as (_ & orphan & E & Horphan).
  unfold persistsExactlyOnce, newCalls. rewrite E.
  change (calls brokenOldClassCluster) with (@nil Call).
  cbn [app length drop List.filter isPersist].
  induction Horphan as [|c orphan Hc _ IH]; [reflexivity |].
  cbn [List.filter]. by destruct c.
Defined.


(** C6 on a cluster with one namespace of the class. *)
Lemma watch_fan_out_witness :
  (mapNamespaceClassToNamespaces (ObjNamespaceClass emptyWeb) driftedCluster).1
  = [mkRequest "dev"].
Proof.
  destruct (watch_fan_out emptyWeb driftedCluster) as (E & _).
  rewrite E. reflexivity.
Defined.

(** * Further properties of the controller *)

(** ** API failures are surfaced *)

Lemma surfaces_ret {A} (a : A) : surfaces (mret a).
Proof. intros st. exists []. by rewrite app_nil_r. Qed.

Lemma surfaces_fail {A} (e : error) : surfaces (@fail A e).
Proof. intros st. exists []. by rewrite app_nil_r. Qed.

Lemma surfaces_lift {A} (r : result A) : surfaces (lift r).
Proof. intros st. exists []. by rewrite app_nil_r. Qed.

Lemma surfaces_join (st s1 s2 : Cluster) (n1 n2 : list Call) :
  calls s1 = calls st ++ n1 → faults s1 = drop (length n1) (faults st) →
  calls s2 = calls s1 ++ n2 → faults s2 = drop (length n2) (faults s1) →
  calls s2 = calls st ++ (n1 ++ n2)
  ∧ faults s2 = drop (length (n1 ++ n2)) (faults st)
  ∧ (Forall (λ b, b = false) (take (length n1) (faults st)) →
     Forall (λ b, b = false) (take (length n2) (faults s1)) →
     Forall (λ b, b = false) (take (length (n1 ++ n2)) (faults st))).
Proof.
  intros C1 F1 C2 F2. rewrite C2, C1, F2, F1, drop_drop, length_app, <- app_assoc.
  split; [done |]. split; [done |]. intros H1 H2.
  rewrite <- take_take_drop. by apply Forall_app.
Qed.

Lemma surfaces_bind {A B} (m : M A) (f : A → M B) :
  surfaces m → (∀ a, surfaces (f a)) → surfaces (m ≫= f).
Proof.
  intros Hm Hf st. rewrite bind_run. destruct (Hm st) as (n1 & C1 & F1 & G1).
  destruct (m st) as [[a|e] s1]; cbn [fst snd] in *.
  - destruct (Hf a s1) as (n2 & C2 & F2 & G2).
    destruct (surfaces_join _ _ _ _ _ C1 F1 C2 F2) as (C & F & G).
    exists (n1 ++ n2). split; [done |]. split; [done |].
    intros Hr. apply G; [by apply G1 | by apply G2].
  - exists n1. split; [done |]. split; [done |].
    intros Hr. apply G1. intros E. apply Hr. by injection E as ->.
Qed.

(** The error branch of every [Get] in the controller: NotFound is handled,
    anything else is returned. *)
Lemma surfaces_catch {A B} (m : M A) (k : A → M B) (h : M B) :
  surfaces m → (∀ a, surfaces (k a)) → surfaces h →
  surfaces (r ← attempt m;
            match r with
            | Ok a => k a
            | Err err => if IsNotFound err then h else fail err
            end).
Proof.
  intros Hm Hk Hh st. rewrite bind_run, attempt_run.
  destruct (Hm st) as (n1 & C1 & F1 & G1).
  destruct (m st) as [[a|e] s1]; cbn [fst snd] in *.
  - destruct (Hk a s1) as (n2 & C2 & F2 & G2).
    destruct (surfaces_join _ _ _ _ _ C1 F1 C2 F2) as (C & F & G).
    exists (n1 ++ n2). split; [done |]. split; [done |].
    intros Hr. apply G; [by apply G1 | by apply G2].
  - destruct e; cbn [IsNotFound];
      try (exists n1; split; [done |]; split; [done |]; intros Hr;
           first [by apply G1 | by destruct Hr]).
    destruct (Hh s1) as (n2 & C2 & F2 & G2).
    destruct (surfaces_join _ _ _ _ _ C1 F1 C2 F2) as (C & F & G).
    exists (n1 ++ n2). split; [done |]. split; [done |].
    intros Hr. apply G; [by apply G1 | by apply G2].
Qed.

Lemma surfaces_api {A} (c : Call) (op : M A) :
  (∀ s, calls (op s).2 = calls s ∧ faults (op s).2 = faults s) →
  surfaces (api c op).
Proof.
  intros Hop st. rewrite api_run. exists [c].
  destruct (faults st) as [|b fs] eqn:Hf; cbn [hd].
  - destruct (Hop (record c st)) as [C F]. rewrite C, F. cbn. rewrite Hf. by repeat split.
  - destruct b; cbn [fst snd].
    + cbn. rewrite Hf. by repeat split.
    + destruct (Hop (record c st)) as [C F]. rewrite C, F. cbn. rewrite Hf.
      repeat split. intros _. by repeat constructor.
Qed.

Lemma GetNamespace_surfaces (name : string) : surfaces (GetNamespace name).
Proof.
  apply surfaces_api. intros s. by destruct (namespaces s !! name) as [[??]|].
Qed.

Lemma GetNamespaceClass_surfaces (name : string) : surfaces (GetNamespaceClass name).
Proof.
  apply surfaces_api. intros s. by destruct (classes s !! name) as [[??]|].
Qed.

Lemma Get_surfaces (obj : Unstructured) : surfaces (Get obj).
Proof. apply surfaces_api. intros s. by destruct (objects s !! keyOf obj). Qed.

Lemma Create_surfaces (obj : Unstructured) : surfaces (Create obj).
Proof. apply surfaces_api. intros s. by destruct (objects s !! keyOf obj). Qed.

Lemma Update_surfaces (obj : Unstructured) : surfaces (Update obj).
Proof. apply surfaces_api. intros s. by destruct (objects s !! keyOf obj). Qed.

Lemma Delete_surfaces (obj : Unstructured) : surfaces (Delete obj).
Proof. apply surfaces_api. intros s. by destruct (objects s !! keyOf obj). Qed.

Lemma UpdateNamespace_surfaces (ns : Namespace) : surfaces (UpdateNamespace ns).
Proof. apply surfaces_api. intros s. by destruct (namespaces s !! nsName ns). Qed.

Lemma StatusUpdate_surfaces (nc : NamespaceClass) : surfaces (StatusUpdate nc).
Proof.
  apply surfaces_api. intros s. by destruct (classes s !! ncName nc) as [[??]|].
Qed.

Lemma fetchNamespace_surfaces (name : string) (zero : Namespace) :
  surfaces (fetchNamespace name zero).
Proof.
  apply surfaces_catch;
    [apply GetNamespace_surfaces | intros; apply surfaces_ret | apply surfaces_ret].
Qed.

Lemma fetchNamespaceClass_surfaces (name : string) (zero : NamespaceClass) :
  surfaces (fetchNamespaceClass name zero).
Proof.
  apply surfaces_catch;
    [apply GetNamespaceClass_surfaces | intros; apply surfaces_ret | apply surfaces_ret].
Qed.

Lemma createOrUpdate_surfaces (obj : Unstructured) : surfaces (createOrUpdate obj).
Proof.
  apply (surfaces_catch (Get obj) (λ o, Update o ;; mret o) (Create obj ;; mret obj)).
  - apply Get_surfaces.
  - intros o. apply surfaces_bind; [apply Update_surfaces | intros; apply surfaces_ret].
  - apply surfaces_bind; [apply Create_surfaces | intros; apply surfaces_ret].
Qed.

Lemma trackResource_surfaces (obj : Unstructured) (nc : NamespaceClass) :
  surfaces (trackResource obj nc).
Proof.
  unfold trackResource. destruct (negb _); [| apply surfaces_ret].
  apply surfaces_bind; [apply StatusUpdate_surfaces | intros; apply surfaces_ret].
Qed.

Lemma handleResources_range_surfaces (namespace : Namespace)
    (resources : list RawExtension) (nc : NamespaceClass) :
  surfaces (handleResources_range namespace resources nc).
Proof.
  revert nc. induction resources as [|resource rest IH]; intros nc; simpl.
  - apply surfaces_ret.
  - apply surfaces_bind; [apply surfaces_lift |]. intros obj.
    apply surfaces_bind; [apply createOrUpdate_surfaces |]. intros obj'.
    apply surfaces_bind; [apply trackResource_surfaces | apply IH].
Qed.

Lemma handleNamespaceClassChange_range_surfaces (namespace : Namespace)
    (resources : list RawExtension) (nc : NamespaceClass) :
  surfaces (handleNamespaceClassChange_range namespace resources nc).
Proof.
  induction resources as [|resource rest IH]; simpl.
  - apply surfaces_ret.
  - apply surfaces_bind; [apply surfaces_lift |]. intros obj.
    apply (surfaces_catch (Get (SetNamespace obj (nsName namespace)))
             (λ o, (if negb (resourceExistsInNamespaceClass o nc) then Delete o
                    else mret ()) ;;
                   handleNamespaceClassChange_range namespace rest nc)
             (handleNamespaceClassChange_range namespace rest nc)).
    + apply Get_surfaces.
    + intros o. apply surfaces_bind; [| by intros].
      destruct (negb _); [apply Delete_surfaces | apply surfaces_ret].
    + exact IH.
Qed.

Lemma handleNamespaceClassChange_surfaces (namespace : Namespace)
    (lastName : string) (nc : NamespaceClass) :
  surfaces (handleNamespaceClassChange namespace lastName nc).
Proof.
  apply surfaces_bind; [apply fetchNamespaceClass_surfaces |].
  intros old. apply handleNamespaceClassChange_range_surfaces.
Qed.

Lemma untrack_range_surfaces (name : string) (spec : list RawExtension)
    (obj : Unstructured) (idxs : list nat) (backing : list ResourceStatus) (len : nat) :
  surfaces (untrack_range name spec obj idxs backing len).
Proof.
  revert backing len. induction idxs as [|i rest IH]; intros backing len; simpl.
  - apply surfaces_ret.
  - destruct (backing !! i) as [statusResource|]; [| apply surfaces_fail].
    destruct (sameResource statusResource obj); [| apply IH].
    case_bool_decide; [| apply surfaces_fail].
    apply surfaces_bind; [apply StatusUpdate_surfaces | intros; apply IH].
Qed.

Lemma handleResourcesDeletion_range_surfaces (namespace : Namespace) (name : string)
    (spec : list RawExtension) (js : list nat)
    (backing : list ResourceStatus) (len : nat) :
  surfaces (handleResourcesDeletion_range namespace name spec js backing len).
Proof.
  revert backing len. induction js as [|j rest IH]; intros backing len; simpl.
  - apply surfaces_ret.
  - destruct (backing !! j) as [resource|]; [| apply surfaces_fail].
    destruct (negb _); [| apply IH].
    apply surfaces_bind; [apply Delete_surfaces |]. intros _.
    apply surfaces_bind; [apply untrack_range_surfaces |].
    intros [backing' len']. apply IH.
Qed.

Lemma handleResourcesDeletion_surfaces (namespace : Namespace) (nc : NamespaceClass) :
  surfaces (handleResourcesDeletion namespace nc).
Proof.
  apply surfaces_bind; [apply handleResourcesDeletion_range_surfaces |].
  intros [backing len]. apply surfaces_ret.
Qed.

Lemma handleNamespaceAnnotations_surfaces (namespace : Namespace)
    (nc : NamespaceClass) :
  surfaces (handleNamespaceAnnotations namespace nc).
Proof.
  apply surfaces_bind.
  - unfold detectClassChange.
    destruct (Annotations namespace !! lastNameAnnotation); [| apply surfaces_ret].
    case_bool_decide; [| apply surfaces_ret].
    apply surfaces_bind;
      [apply handleNamespaceClassChange_surfaces | intros; apply surfaces_ret].
  - intros namespace'. apply surfaces_bind; [apply UpdateNamespace_surfaces |].
    intros _. apply surfaces_bind;
      [apply handleResourcesDeletion_surfaces | intros; apply surfaces_ret].
Qed.

Lemma Reconcile_surfaces (req : string) : surfaces (Reconcile req).
Proof.
  apply surfaces_bind; [apply fetchNamespace_surfaces |]. intros namespace.
  destruct (Labels namespace !! classLabel) as [label|]; [| apply surfaces_ret].
  apply surfaces_bind; [apply fetchNamespaceClass_surfaces |]. intros nc.
  apply surfaces_bind; [apply handleResources_range_surfaces |]. intros nc'.
  apply handleNamespaceAnnotations_surfaces.
Qed.

(** X1.  Every API call of a pass consumes one entry of the fault script, and
    a pass hit by an injected failure returns that failure: whenever
    [Reconcile] ends otherwise (without error, or with an error of its own
    such as a decode error or a NotFound it does not tolerate), none of the
    calls it issued had failed. *)
Theorem Reconcile_surfaces_failures (req : string) (st : Cluster) :
  let new := newCalls (Reconcile req) st in
  calls (Reconcile req st).2 = calls st ++ new
  ∧ faults (Reconcile req st).2 = drop (length new) (faults st)
  ∧ ((Reconcile req st).1 ≠ Err ErrTransport →
     Forall (λ b, b = false) (take (length new) (faults st)))
  ∧ (Exists (λ b, b = true) (take (length new) (faults st)) →
     (Reconcile req st).1 = Err ErrTransport).
Proof.
  destruct (Reconcile_surfaces req st) as (new & C & F & G). unfold newCalls. cbn zeta.
  rewrite C, drop_app_length. split; [done |]. split; [done |]. split; [done |].
  intros Hex. apply Exists_exists in Hex as (b & Hin & ->).
  destruct (Reconcile req st).1 as [[]|[]] eqn:Hr; try done;
    (assert (Hall : Forall (λ b, b = false) (take (length new) (faults st)))
       by (by apply G));
    rewrite Forall_forall in Hall; by apply Hall in Hin.
Qed.

Lemma Reconcile_surfaces_failures_witness :
  (Reconcile "dev" flakyCluster).1 = Err ErrTransport.
Proof.
  apply (Reconcile_surfaces_failures "dev" flakyCluster).
  assert (E : take (length (newCalls (Reconcile "dev") flakyCluster))
                   (faults flakyCluster) = [false; true]) by reflexivity.
  rewrite E. apply Exists_cons_tl, Exists_cons_hd. reflexivity.
Defined.

(** ** Requests that name no class *)

Lemma Reconcile_unlabelled (req : string) (st : Cluster) :
  namespaces st !! req = None
  ∨ (∃ ls an, namespaces st !! req = Some (ls, an) ∧ ls !! classLabel = None) →
  Reconcile req st =
  (if hd false (faults st) then Err ErrTransport else Ok (),
   record (CallGetNamespace req) st).
Proof.
  intros Hcase. unfold Reconcile. rewrite bind_run.
  destruct Hcase as [Hns|(ls & an & Hns & Hlabel)].
  - unfold fetchNamespace, GetNamespace. rewrite bind_run, attempt_run, api_run.
    destruct (hd false (faults st)); [done |].
    change (namespaces (record (CallGetNamespace req) st)) with (namespaces st).
    by rewrite Hns.
  - rewrite (fetchNamespace_found _ _ _ _ _ Hns).
    destruct (hd false (faults st)); [done |]. cbn [Labels]. by rewrite Hlabel.
Qed.

(** X2.  A request for a namespace that does not exist, or that carries no
    class label, is answered after the one get that fetches the namespace:
    no further call, no change to the store, and no error unless that get
    itself fails. *)
Theorem Reconcile_without_class_label (req : string) (st : Cluster) :
  namespaces st !! req = None
  ∨ (∃ ls an, namespaces st !! req = Some (ls, an) ∧ ls !! classLabel = None) →
  Reconcile req st =
  (if hd false (faults st) then Err ErrTransport else Ok (),
   record (CallGetNamespace req) st).
Proof. apply Reconcile_unlabelled. Qed.

Lemma Reconcile_without_class_label_witness :
  Reconcile "prod" unlabelledCluster
    = (Ok (), record (CallGetNamespace "prod") unlabelledCluster)
  ∧ Reconcile "dev" unlabelledCluster
    = (Ok (), record (CallGetNamespace "dev") unlabelledCluster).
Proof.
  split.
  - apply (Reconcile_without_class_label "prod" unlabelledCluster).
    left. reflexivity.
  - apply (Reconcile_without_class_label "dev" unlabelledCluster).
    right. exists {[ "team" := "payments" ]}, ∅. split; reflexivity.
Defined.

(** ** The declared-set check *)

(** X3.  On a class whose manifests all decode, the declared-set check
    answers [true] exactly when some manifest has the group-version-kind of
    the object in hand; name, namespace and content of the object play no
    part. *)
Theorem declared_check_by_group_version_kind (obj : Unstructured)
    (nc : NamespaceClass) :
  Forall decodable (SpecResources nc) →
  (resourceExistsInNamespaceClass obj nc = true ↔
   ∃ doc, RawObject doc ∈ SpecResources nc
          ∧ GroupVersionKind doc = GroupVersionKind obj)
  ∧ (∀ ns name body,
       resourceExistsInNamespaceClass
         (mkUnstructured (objAPIVersion obj) (objKind obj) ns name body) nc
       = resourceExistsInNamespaceClass obj nc).
Proof.
  intros Hdec. unfold resourceExistsInNamespaceClass. split; [split |].
  - apply resourceExistsInSpec_true.
  - intros (doc & Hin & E). by eapply resourceExistsInSpec_declared.
  - intros ns name body. by apply resourceExistsInSpec_gvk.
Qed.

Lemma declared_check_by_group_version_kind_witness :
  resourceExistsInNamespaceClass (configMap "other" "x")
    (mkNamespaceClass "public" publicSpec []) = true.
Proof.
  destruct (declared_check_by_group_version_kind (configMap "other" "x")
              (mkNamespaceClass "public" publicSpec [])) as [[_ Hfound] _].
  - repeat constructor.
  - apply Hfound. exists (configMap "settings" "public").
    split; [left | reflexivity].
Defined.

(** ** What a pass leaves alone *)

Lemma untouched_preorder (ns : string) : PreOrder (untouched ns).
Proof.
  split.
  - intros st. by split.
  - intros s1 s2 s3 [N1 C1 O1] [N2 C2 O2]. split; [congruence | congruence |].
    intros k Hk. by rewrite O2, O1.
Qed.
Global Existing Instance untouched_preorder.

Lemma ledgerOnly_preorder (ns name : string) : PreOrder (ledgerOnly ns name).
Proof.
  split.
  - intros st. by split.
  - intros s1 s2 s3 [N1 C1 S1 O1] [N2 C2 S2 O2]. split.
    + congruence.
    + intros n Hn. by rewrite C2, C1.
    + intros n. by rewrite S2, S1.
    + intros k Hk. by rewrite O2, O1.
Qed.
Global Existing Instance ledgerOnly_preorder.


Lemma converges_ledgerOnly (ns name : string) (st st' : Cluster) :
  converges ns name st st' → ledgerOnly ns name st st'.
Proof. intros [N C S _ O _]. by split. Qed.

Lemma Delete_untouched (ns : string) (obj : Unstructured) :
  objNamespace obj = ns → preserves (untouched ns) (Delete obj).
Proof.
  intros Hns. apply preserves_api; [apply _ | by intros st |].
  intros st. destruct (objects st !! keyOf obj); cbn; [| done].
  split; cbn; try done. intros k Hk. apply lookup_delete_ne.
  intros <-. apply Hk. by destruct obj.
Qed.

Lemma fetchNamespaceClass_untouched (ns label : string) (zero : NamespaceClass) :
  preserves (untouched ns) (fetchNamespaceClass label zero).
Proof.
  unfold fetchNamespaceClass. apply preserves_bind; [apply _ | |].
  - apply preserves_attempt, preserves_api; [apply _ | by intros st |].
    intros st. by destruct (classes st !! label) as [[??]|].
  - intros [found|e]; [apply preserves_ret; apply _ |].
    destruct (IsNotFound e); [apply preserves_ret | apply preserves_fail]; apply _.
Qed.

Lemma handleNamespaceClassChange_range_untouched (namespace : Namespace)
    (resources : list RawExtension) (nc : NamespaceClass) :
  preserves (untouched (nsName namespace))
            (handleNamespaceClassChange_range namespace resources nc).
Proof.
  induction resources as [|resource rest IH]; simpl.
  - apply preserves_ret; apply _.
  - apply preserves_bind; [apply _ | apply preserves_lift; apply _ |].
    intros obj.
    assert (Hbody : ∀ o, objNamespace o = nsName namespace →
              preserves (untouched (nsName namespace))
                ((if negb (resourceExistsInNamespaceClass o nc) then Delete o
                  else mret ()) ;;
                 handleNamespaceClassChange_range namespace rest nc)).
    { intros o Ho. apply preserves_bind; [apply _ | | by intros].
      destruct (negb _); [| apply preserves_ret; apply _].
      by apply Delete_untouched. }
    intros st. rewrite bind_run, attempt_run, Get_run.
    set (o := SetNamespace obj (nsName namespace)).
    set (s1 := record (CallGet (keyOf o)) st).
    assert (H1 : untouched (nsName namespace) st s1) by done.
    destruct (hd false (faults st)); cbn [fst snd IsNotFound]; [done |].
    destruct (objects st !! keyOf o) as [body|]; cbn [fst snd IsNotFound].
    + etrans; [exact H1 |]. by apply (Hbody (withBody o body)).
    + etrans; [exact H1 | apply IH].
Qed.

Lemma detectClassChange_untouched (namespace : Namespace) (nc : NamespaceClass) :
  preserves (untouched (nsName namespace)) (detectClassChange namespace nc).
Proof.
  unfold detectClassChange.
  destruct (Annotations namespace !! lastNameAnnotation) as [lastName|];
    [| apply preserves_ret; apply _].
  case_bool_decide; [| apply preserves_ret; apply _].
  apply preserves_bind; [apply _ | | intros; apply preserves_ret; apply _].
  unfold handleNamespaceClassChange. apply preserves_bind; [apply _ | |].
  - apply fetchNamespaceClass_untouched.
  - intros old.
    apply (handleNamespaceClassChange_range_untouched
             (setLastName namespace (ncName nc))).
Qed.







(** ** The ledger kept by the convergence stage *)

Lemma resourceExistsInNamespaceClassStatus_elem (obj : Unstructured)
    (nc : NamespaceClass) :
  resourceExistsInNamespaceClassStatus obj nc = true
  ↔ statusOf obj ∈ StatusResources nc.
Proof.
  unfold resourceExistsInNamespaceClassStatus. rewrite existsb_exists. split.
  - intros (r & Hin & Hr). apply list_elem_of_In in Hin.
    apply andb_prop in Hr as [Hr Hk]. apply andb_prop in Hr as [Hn Ha].
    apply bool_decide_eq_true in Hn, Ha, Hk.
    destruct r as [k n a]. cbn in *. subst. exact Hin.
  - intros Hin. exists (statusOf obj). split; [by apply list_elem_of_In |].
    cbn. by rewrite !bool_decide_true.
Qed.

Lemma createOrUpdate_Ok (obj obj' : Unstructured) (st st' : Cluster) :
  createOrUpdate obj st = (Ok obj', st') →
  keyOf obj' = keyOf obj ∧ classes st' = classes st
  ∧ match objects st !! keyOf obj with
    | Some body => objects st' = objects st
    | None => objects st' = <[keyOf obj := objBody obj]> (objects st)
    end.
Proof.
  unfold createOrUpdate. rewrite bind_run, attempt_run, Get_run.
  destruct (hd false (faults st)); cbn [fst snd IsNotFound]; [done |].
  destruct (objects st !! keyOf obj) as [body|] eqn:Hlive; cbn [fst snd IsNotFound];
    rewrite bind_run; [rewrite Update_run | rewrite Create_run];
    (destruct (hd false _); [done |]);
    change (objects (record _ ?s) !! keyOf _) with (objects s !! keyOf obj);
    rewrite Hlive; intros H; inversion H; subst; cbn;
    repeat split; try done.
  by apply insert_id.
Qed.

Lemma trackResource_Ok (obj : Unstructured) (nc nc' : NamespaceClass)
    (st st' : Cluster) :
  trackResource obj nc st = (Ok nc', st') →
  objects st' = objects st
  ∧ ((statusOf obj ∈ StatusResources nc ∧ nc' = nc ∧ classes st' = classes st)
     ∨ ((statusOf obj ∉ StatusResources nc)
        ∧ nc' = mkNamespaceClass (ncName nc) (SpecResources nc)
                                 (StatusResources nc ++ [statusOf obj])
        ∧ ∃ sp old, classes st !! ncName nc = Some (sp, old)
                    ∧ classes st' = <[ncName nc := (sp, StatusResources nc')]>
                                      (classes st))).
Proof.
  unfold trackResource.
  destruct (resourceExistsInNamespaceClassStatus obj nc) eqn:Hcheck; cbn [negb].
  - intros H. inversion H; subst. split; [done |]. left.
    by apply resourceExistsInNamespaceClassStatus_elem in Hcheck.
  - rewrite bind_run, StatusUpdate_run. destruct (hd false (faults st)); [done |].
    cbn [ncName]. destruct (classes st !! ncName nc) as [[sp old]|] eqn:Hc; [| done].
    intros H. inversion H; subst. cbn. split; [done |]. right.
    split; [| split; [done | by exists sp, old]].
    intros Hin. apply resourceExistsInNamespaceClassStatus_elem in Hin. congruence.
Qed.

Lemma statusOf_key (obj obj' : Unstructured) :
  keyOf obj' = keyOf obj → statusOf obj' = statusOf obj.
Proof. unfold keyOf, statusOf. by intros [= -> -> _ ->]. Qed.

Lemma handleResources_range_ledger (namespace : Namespace)
    (resources : list RawExtension) (nc nc' : NamespaceClass) (st st' : Cluster) :
  handleResources_range namespace resources nc st = (Ok nc', st') →
  (∃ added, StatusResources nc' = StatusResources nc ++ added
            ∧ ∀ e, e ∈ added → ∃ doc, RawObject doc ∈ resources ∧ e = statusOf doc)
  ∧ (∀ doc, RawObject doc ∈ resources → statusOf doc ∈ StatusResources nc')
  ∧ (NoDup (StatusResources nc) → NoDup (StatusResources nc'))
  ∧ (∀ sp, classes st !! ncName nc = Some (sp, StatusResources nc) →
           classes st' !! ncName nc = Some (sp, StatusResources nc')).
Proof.
  revert nc st. induction resources as [|resource rest IH]; intros nc st; simpl.
  - intros H. inversion H; subst.
    split; [exists []; split; [by rewrite app_nil_r | by intros e He%elem_of_nil] |].
    split; [by intros doc Hin%elem_of_nil |]. done.
  - intros H.
    apply bind_Ok in H as (obj & st0 & Hdec & H).
    destruct resource as [doc|bytes]; [| discriminate Hdec].
    inversion Hdec; subst st0 obj; clear Hdec.
    apply bind_Ok in H as (obj' & st1 & Hcou & H).
    apply bind_Ok in H as (nc1 & st2 & Htrack & H).
    apply createOrUpdate_Ok in Hcou as (Hkey & Hclasses & _).
    apply statusOf_key in Hkey. cbn in Hkey.
    change (statusOf (SetNamespace doc (nsName namespace)))
      with (statusOf doc) in Hkey.
    apply trackResource_Ok in Htrack as [_ Htrack]. rewrite Hkey in Htrack.
    destruct (IH _ _ H) as ((added & Eadded & Hadded) & Hall & Hnodup & Hsync).
    assert (Hstep : (∃ a1, StatusResources nc1 = StatusResources nc ++ a1
                           ∧ ∀ e, e ∈ a1 → e = statusOf doc)
                    ∧ statusOf doc ∈ StatusResources nc1
                    ∧ (NoDup (StatusResources nc) → NoDup (StatusResources nc1))
                    ∧ ncName nc1 = ncName nc
                    ∧ (∀ sp, classes st !! ncName nc = Some (sp, StatusResources nc) →
                             classes st2 !! ncName nc
                             = Some (sp, StatusResources nc1))).
    { destruct Htrack as [(Hin & -> & Hc2) | (Hnotin & -> & sp & old & Hc & Hc2)].
      - split; [exists []; split; [by rewrite app_nil_r | by intros e He%elem_of_nil] |].
        repeat split; try done. intros sp. by rewrite Hc2, Hclasses.
      - cbn. split; [exists [statusOf doc]; split;
                       [done | by intros e ->%list_elem_of_singleton] |].
        split; [apply elem_of_app; right; left |].
        split.
        { intros Hnd. apply NoDup_app. split; [done |].
          split; [| apply NoDup_singleton].
          intros e He Hin. apply list_elem_of_singleton in Hin as ->. done. }
        split; [done |]. intros sp' Hsp. rewrite Hclasses, Hsp in Hc.
        injection Hc as <- _. rewrite Hc2. apply lookup_insert_eq. }
    destruct Hstep as ((a1 & Ea1 & Ha1) & Hdocin & Hnd1 & Hname1 & Hsync1).
    split; [| split; [| split]].
    + exists (a1 ++ added). rewrite Eadded, Ea1, <- app_assoc. split; [done |].
      intros e [He|He]%elem_of_app.
      * exists doc. split; [left | by apply Ha1].
      * destruct (Hadded e He) as (d & Hd & ->). exists d. split; [by right | done].
    + intros d [E|Hd]%elem_of_cons; [| by apply Hall].
      injection E as ->. rewrite Eadded. apply elem_of_app. by left.
    + intros Hnd. by apply Hnodup, Hnd1.
    + intros sp Hsp. rewrite <- Hname1. apply Hsync. rewrite Hname1. by apply Hsync1.
Qed.

(** X5.  The ledger after a successful convergence stage, for a class in
    hand that carries the stored spec (as a class fetched in the pass does):
    the class keeps its name and spec, in hand and in the store; the ledger
    is the old ledger followed by entries of declared manifests, so nothing
    is removed or reordered; every declared manifest has its {kind, name,
    apiVersion} entry; a ledger without duplicates stays without duplicates;
    and the stored ledger, if it was the ledger in hand on entry, is the
    ledger in hand on exit. *)
Theorem handleResources_ledger (namespace : Namespace) (nc nc' : NamespaceClass)
    (st : Cluster) (stored : list ResourceStatus) :
  classes st !! ncName nc = Some (SpecResources nc, stored) →
  (handleResources namespace nc st).1 = Ok nc' →
  let st' := (handleResources namespace nc st).2 in
  ncName nc' = ncName nc ∧ SpecResources nc' = SpecResources nc
  ∧ (∃ added, StatusResources nc' = StatusResources nc ++ added
              ∧ ∀ e, e ∈ added →
                     ∃ doc, RawObject doc ∈ SpecResources nc ∧ e = statusOf doc)
  ∧ (∀ doc, RawObject doc ∈ SpecResources nc → statusOf doc ∈ StatusResources nc')
  ∧ (NoDup (StatusResources nc) → NoDup (StatusResources nc'))
  ∧ (∃ stored', classes st' !! ncName nc = Some (SpecResources nc, stored')
                ∧ (stored = StatusResources nc → stored' = StatusResources nc')).
Proof.
  intros Hclass Hok. unfold handleResources in *.
  pose proof (handleResources_range_converges namespace (SpecResources nc) nc st)
    as Hframe.
  destruct (handleResources_range namespace (SpecResources nc) nc st)
    as [r st'] eqn:Hrun.
  cbn [fst snd] in Hok, Hframe |- *. subst r.
  destruct (handleResources_range_name _ _ _ _ _ _ Hrun) as [Hn Hs].
  destruct (handleResources_range_ledger _ _ _ _ _ _ Hrun) as (Ha & Hall & Hnd & Hsy).
  split; [done |]. split; [done |]. split; [done |]. split; [done |].
  split; [done |].
  pose proof (conv_specs _ _ _ _ Hframe (ncName nc)) as Hspec.
  rewrite Hclass in Hspec.
  destruct (classes st' !! ncName nc) as [[sp stored']|] eqn:Hc'; [| done].
  injection Hspec as ->. exists stored'. split; [done |].
  intros ->. specialize (Hsy _ Hclass). congruence.
Qed.

Lemma handleResources_ledger_witness :
  classes (handleResources devFirstTime
             (mkNamespaceClass "web"
                [RawObject (configMap "settings" "replicas=3")] [])
             unlabelledCluster).2 !! "web"
  = Some ([RawObject (configMap "settings" "replicas=3")],
          [statusOf (configMap "settings" "replicas=3")]).
Proof.
  destruct (handleResources_ledger devFirstTime
              (mkNamespaceClass "web"
                 [RawObject (configMap "settings" "replicas=3")] [])
              (mkNamespaceClass "web"
                 [RawObject (configMap "settings" "replicas=3")]
                 [statusOf (configMap "settings" "replicas=3")])
              unlabelledCluster [])
    as (_ & _ & _ & _ & _ & stored' & Hc & Hsync);
    [reflexivity | reflexivity |].
  etrans; [exact Hc |]. by rewrite (Hsync eq_refl).
Defined.

(** ** The objects left by the convergence stage *)

(** The address and content a manifest declares in namespace [ns]. *)
Lemma createOrUpdate_objects (obj obj' : Unstructured) (st st' : Cluster) :
  createOrUpdate obj st = (Ok obj', st') →
  objects st' = objects st ∪ {[ keyOf obj := objBody obj ]}.
Proof.
  intros H. apply createOrUpdate_Ok in H as (_ & _ & H).
  destruct (objects st !! keyOf obj) as [body|] eqn:Hlive; rewrite H.
  - apply map_eq. intros k. rewrite lookup_union.
    destruct (decide (k = keyOf obj)) as [->|Hk].
    + by rewrite Hlive, lookup_singleton_eq.
    + rewrite lookup_singleton_ne by done. by destruct (objects st !! k).
  - rewrite insert_union_singleton_r by done. done.
Qed.

Lemma handleResources_range_objects (namespace : Namespace)
    (resources : list RawExtension) (nc nc' : NamespaceClass) (st st' : Cluster) :
  handleResources_range namespace resources nc st = (Ok nc', st') →
  ∃ docs, resources = RawObject <$> docs
          ∧ objects st' = objects st ∪ declaredObjects (nsName namespace) docs.
Proof.
  revert nc st. induction resources as [|resource rest IH]; intros nc st; simpl.
  - intros H. inversion H; subst. exists []. split; [done |].
    unfold declaredObjects. cbn. by rewrite (right_id ∅ (∪)).
  - intros H.
    apply bind_Ok in H as (obj & st0 & Hdec & H).
    destruct resource as [doc|bytes]; [| discriminate Hdec].
    inversion Hdec; subst st0 obj; clear Hdec.
    apply bind_Ok in H as (obj' & st1 & Hcou & H).
    apply bind_Ok in H as (nc1 & st2 & Htrack & H).
    apply createOrUpdate_objects in Hcou.
    apply trackResource_Ok in Htrack as [Hobj _].
    destruct (IH _ _ H) as (docs & -> & E).
    exists (doc :: docs). split; [done |].
    rewrite E, Hobj, Hcou. unfold declaredObjects. cbn [fmap list_fmap list_to_map foldr].
    rewrite <- (assoc_L (∪)). f_equal.
    by rewrite insert_union_singleton_l.
Qed.

Lemma declaredObjects_first (ns : string) (pre post : list Unstructured)
    (doc : Unstructured) :
  (∀ d, d ∈ pre → keyOf (SetNamespace d ns) ≠ keyOf (SetNamespace doc ns)) →
  declaredObjects ns (pre ++ doc :: post) !! keyOf (SetNamespace doc ns)
  = Some (objBody doc).
Proof.
  unfold declaredObjects. induction pre as [|d pre IH]; intros Hpre; cbn.
  - apply lookup_insert_eq.
  - rewrite lookup_insert_ne by (apply Hpre; left).
    apply IH. intros d' Hd'. apply Hpre. by right.
Qed.

Lemma declaredObjects_None (ns : string) (docs : list Unstructured) (k : ObjectKey) :
  declaredObjects ns docs !! k = None
  ↔ ∀ d, d ∈ docs → keyOf (SetNamespace d ns) ≠ k.
Proof.
  unfold declaredObjects. rewrite <- not_elem_of_list_to_map, <- list_fmap_compose.
  rewrite list_elem_of_fmap. split.
  - intros Hno d Hd E. apply Hno. by exists d.
  - intros Hno (d & E & Hd). by apply (Hno d Hd).
Qed.

(** X6.  The objects after a successful convergence stage: the store is the
    old store extended, at the addresses that were free, by what the
    manifests declare in the namespace.  So an address stays free only if no
    manifest names it, and a free address is filled with the content of the
    first manifest that names it. *)
Theorem handleResources_objects (namespace : Namespace) (nc nc' : NamespaceClass)
    (st : Cluster) :
  (handleResources namespace nc st).1 = Ok nc' →
  let st' := (handleResources namespace nc st).2 in
  ∃ docs, SpecResources nc = RawObject <$> docs
    ∧ objects st' = objects st ∪ declaredObjects (nsName namespace) docs
    ∧ (∀ k, objects st' !! k = None ↔
            objects st !! k = None
            ∧ ∀ d, d ∈ docs → keyOf (SetNamespace d (nsName namespace)) ≠ k)
    ∧ (∀ pre doc post, docs = pre ++ doc :: post →
         let k := keyOf (SetNamespace doc (nsName namespace)) in
         objects st !! k = None →
         (∀ d, d ∈ pre → keyOf (SetNamespace d (nsName namespace)) ≠ k) →
         objects st' !! k = Some (objBody doc)).
Proof.
  intros Hok. unfold handleResources in *.
  destruct (handleResources_range namespace (SpecResources nc) nc st)
    as [r st'] eqn:Hrun.
  cbn [fst snd] in Hok |- *. subst r.
  destruct (handleResources_range_objects _ _ _ _ _ _ Hrun) as (docs & Hdocs & E).
  exists docs. split; [done |]. split; [done |]. split.
  - intros k. rewrite E, lookup_union_None, declaredObjects_None. done.
  - intros pre doc post -> Hfree Hpre. rewrite E, lookup_union_r by done.
    by apply declaredObjects_first.
Qed.

Lemma handleResources_objects_witness :
  objects (handleResources devFirstTime
             (mkNamespaceClass "web"
                [RawObject (configMap "settings" "replicas=3")] [])
             unlabelledCluster).2 !! inDev (configMap "settings" "replicas=3")
  = Some "replicas=3".
Proof.
  destruct (handleResources_objects devFirstTime
              (mkNamespaceClass "web"
                 [RawObject (configMap "settings" "replicas=3")] [])
              (mkNamespaceClass "web"
                 [RawObject (configMap "settings" "replicas=3")]
                 [statusOf (configMap "settings" "replicas=3")])
              unlabelledCluster) as (docs & Hdocs & _ & _ & Hfirst);
    [reflexivity |].
  destruct docs as [|d [|d' docs]]; try discriminate Hdocs.
  injection Hdocs as <-.
  apply (Hfirst [] (configMap "settings" "replicas=3") []);
    [reflexivity | reflexivity |].
  intros d Hd. apply elem_of_nil in Hd. destruct Hd.
Defined.

(** ** The ledger kept by the orphan sweep *)

Lemma removeAt_length (backing : list ResourceStatus) (len i : nat) :
  (S i ≤ len)%nat → (len ≤ length backing)%nat →
  length (removeAt backing len i) = length backing.
Proof.
  intros Hi Hlen. unfold removeAt.
  rewrite !length_app, !length_take, !length_drop. lia.
Qed.

Lemma removeAt_take (backing : list ResourceStatus) (len i : nat) :
  (S i ≤ len)%nat → (len ≤ length backing)%nat →
  take (len - 1) (removeAt backing len i) = delete i (take len backing).
Proof.
  intros Hi Hlen. unfold removeAt.
  rewrite app_assoc, take_app_length'.
  - rewrite delete_take_drop, take_take, Nat.min_l by lia.
    f_equal. rewrite take_drop_commute. f_equal. f_equal. lia.
  - rewrite length_app, !length_take, length_drop. lia.
Qed.

Lemma removeAt_elem (backing : list ResourceStatus) (len i : nat)
    (e : ResourceStatus) :
  e ∈ removeAt backing len i → e ∈ backing.
Proof.
  unfold removeAt. rewrite !elem_of_app. intros [H|[H|H]].
  - by eapply subseteq_take.
  - eapply subseteq_drop. by eapply subseteq_take.
  - by eapply subseteq_drop.
Qed.

Lemma filter_delete {A} (P : A → Prop) `{!∀ x, Decision (P x)}
    (l : list A) (i : nat) (r : A) :
  l !! i = Some r → ¬ P r → filter P (delete i l) = filter P l.
Proof.
  revert i. induction l as [|x l IH]; intros [|i] Hi Hr; try done.
  - injection Hi as ->. by rewrite filter_cons_False.
  - change (delete (S i) (x :: l)) with (x :: delete i l).
    rewrite !filter_cons. by rewrite (IH i).
Qed.

Lemma sameResource_entryObject (ns : string) (e r : ResourceStatus) :
  sameResource e (entryObject ns r) = true ↔ e = r.
Proof.
  unfold sameResource, entryObject. cbn. split.
  - intros H. apply andb_prop in H as [H Hk]. apply andb_prop in H as [Hn Ha].
    apply bool_decide_eq_true in Hn, Ha, Hk. destruct e, r. cbn in *. congruence.
  - intros ->. by rewrite !bool_decide_true.
Qed.

Lemma untrack_range_ledger (name : string) (spec : list RawExtension)
    (obj : Unstructured) (idxs : list nat) (backing backing' : list ResourceStatus)
    (len len' : nat) (st st' : Cluster) :
  (len ≤ length backing)%nat →
  untrack_range name spec obj idxs backing len st = (Ok (backing', len'), st') →
  length backing' = length backing ∧ (len' ≤ len)%nat
  ∧ (∀ e, e ∈ backing' → e ∈ backing)
  ∧ take len' backing' `sublist_of` take len backing
  ∧ (∀ (P : ResourceStatus → Prop) (HP : ∀ e, Decision (P e)),
       (∀ e, sameResource e obj = true → ¬ P e) →
       filter P (take len' backing') = filter P (take len backing))
  ∧ (∀ e, e ∈ take len backing → e ∉ take len' backing' →
          sameResource e obj = true)
  ∧ objects st' = objects st
  ∧ ((backing' = backing ∧ len' = len ∧ classes st' = classes st)
     ∨ (∃ sp old, classes st !! name = Some (sp, old)
          ∧ classes st' = <[name := (sp, take len' backing')]> (classes st))).
Proof.
  revert backing len st. induction idxs as [|i rest IH]; intros backing len st Hlen;
    simpl.
  - intros H. inversion H; subst. repeat split; try done. by left.
  - destruct (backing !! i) as [sr|] eqn:Hsr; [| done].
    destruct (sameResource sr obj) eqn:Hsame; [| by apply IH].
    case_bool_decide as Hi; [| done].
    intros H. apply bind_Ok in H as ([] & s1 & Hupd & H).
    rewrite StatusUpdate_run in Hupd.
    destruct (hd false (faults st)); [done |]. cbn [ncName StatusResources] in Hupd.
    change (classes (record _ ?s)) with (classes s) in Hupd.
    destruct (classes st !! name) as [[sp old]|] eqn:Hc; [| done].
    inversion Hupd; subst s1; clear Hupd.
    pose proof (removeAt_length backing len i Hi Hlen) as Hl1.
    pose proof (removeAt_take backing len i Hi Hlen) as Ht1.
    apply IH in H as (Hl & Hle & Hin & Hsub & Hfil & Hgone & Hobj & Hcls);
      [| rewrite Hl1; lia].
    assert (Hpre : take len backing !! i = Some sr)
      by (rewrite lookup_take_lt by lia; done).
    split; [by rewrite Hl, Hl1 |]. split; [lia |].
    split; [intros e He; by eapply removeAt_elem, Hin |].
    split; [etrans; [exact Hsub |]; rewrite Ht1; apply sublist_delete |].
    split; [| split; [| split]].
    + intros P HP HPobj. rewrite (Hfil P HP HPobj), Ht1.
      eapply filter_delete; [exact Hpre |]. by apply HPobj.
    + intros e He Hnot.
      destruct (sameResource e obj) eqn:Hse; [done |].
      destruct Hnot. 
      assert (He1 : e ∈ filter (λ x, sameResource x obj = false)
                               (take len backing))
        by (by apply list_elem_of_filter).
      rewrite <- (filter_delete _ _ i sr Hpre) in He1 by congruence.
      rewrite <- Ht1 in He1. apply list_elem_of_filter in He1 as [_ He1].
      destruct (decide (e ∈ take len' backing')) as [|Hn]; [done |].
      pose proof (Hgone e He1 Hn). congruence.
    + done.
    + right. exists sp, old. split; [done |].
      destruct Hcls as [(-> & -> & Hcls)|(sp1 & old1 & Hc1 & Hcls)].
      * by rewrite Hcls.
      * rewrite Hcls. cbn in Hc1 |- *. rewrite lookup_insert_eq in Hc1.
        injection Hc1 as <- _. by rewrite insert_insert_eq.
Qed.

Lemma Delete_Ok_store (obj : Unstructured) (st st' : Cluster) :
  Delete obj st = (Ok (), st') →
  objects st' = delete (keyOf obj) (objects st) ∧ classes st' = classes st.
Proof.
  rewrite Delete_run. destruct (hd false (faults st)); [done |].
  destruct (objects st !! keyOf obj); [| done].
  intros H; inversion H; subst. done.
Qed.

Lemma handleResourcesDeletion_range_ledger (namespace : Namespace) (name : string)
    (spec : list RawExtension) (js : list nat)
    (backing backing' : list ResourceStatus) (len len' : nat) (st st' : Cluster) :
  (len ≤ length backing)%nat →
  handleResourcesDeletion_range namespace name spec js backing len st
    = (Ok (backing', len'), st') →
  length backing' = length backing ∧ (len' ≤ len)%nat
  ∧ (∀ e, e ∈ backing' → e ∈ backing)
  ∧ take len' backing' `sublist_of` take len backing
  ∧ filter (entryDeclared (nsName namespace) spec) (take len' backing')
    = filter (entryDeclared (nsName namespace) spec) (take len backing)
  ∧ (∀ e, e ∈ take len backing → e ∉ take len' backing' →
          ¬ entryDeclared (nsName namespace) spec e
          ∧ objects st' !! keyOf (entryObject (nsName namespace) e) = None)
  ∧ (∀ k, objects st !! k = None → objects st' !! k = None)
  ∧ ((backing' = backing ∧ len' = len ∧ classes st' = classes st)
     ∨ (∃ sp old, classes st !! name = Some (sp, old)
          ∧ classes st' = <[name := (sp, take len' backing')]> (classes st))).
Proof.
  revert backing len st. induction js as [|j rest IH]; intros backing len st Hlen;
    simpl.
  - intros H. inversion H; subst. repeat split; try done. by left.
  - destruct (backing !! j) as [resource|] eqn:Hres; [| done].
    fold (entryObject (nsName namespace) resource).
    destruct (resourceExistsInSpec (entryObject (nsName namespace) resource) spec)
      eqn:Hdecl; cbn [negb]; [by apply IH |].
    intros H. apply bind_Ok in H as ([] & s1 & Hdel & H).
    apply bind_Ok in H as ([backing1 len1] & s2 & Hunt & H).
    pose proof (Delete_Ok _ _ _ Hdel) as Hgone1.
    apply Delete_Ok_store in Hdel as [Hobj1 Hcls1].
    apply untrack_range_ledger in Hunt
      as (Hl1 & Hle1 & Hin1 & Hsub1 & Hfil1 & Hgone & Hobj2 & Hcls2); [| done].
    apply IH in H as (Hl & Hle & Hin & Hsub & Hfil & Hdropped & Hmono & Hcls);
      [| lia].
    assert (Hnone1 : ∀ k, objects st !! k = None → objects s2 !! k = None).
    { intros k Hk. rewrite Hobj2, Hobj1. by apply lookup_delete_None; right. }
    split; [by rewrite Hl, Hl1 |]. split; [lia |].
    split; [intros e He; by apply Hin1, Hin |].
    split; [by etrans |]. split; [| split; [| split]].
    + rewrite Hfil. apply Hfil1. intros e He%sameResource_entryObject Hd.
      subst e. unfold entryDeclared in Hd. congruence.
    + intros e He Hnot.
      destruct (decide (e ∈ take len1 backing1)) as [He1|He1];
        [by apply Hdropped |].
      apply Hgone, sameResource_entryObject in He1 as ->; [| done].
      split; [unfold entryDeclared; congruence |].
      apply Hmono. by rewrite Hobj2.
    + intros k Hk. by apply Hmono, Hnone1.
    + destruct Hcls2 as [(-> & -> & Hcls2)|(sp & old & Hc & Hcls2)].
      * rewrite Hcls2, Hcls1 in Hcls. done.
      * right. rewrite Hcls1 in Hc, Hcls2. exists sp, old. split; [done |].
        destruct Hcls as [(-> & -> & Hcls)|(sp1 & old1 & Hc1 & Hcls)].
        -- by rewrite Hcls.
        -- rewrite Hcls, Hcls2. rewrite Hcls2, lookup_insert_eq in Hc1.
           injection Hc1 as <- _. by rewrite insert_insert_eq.
Qed.

Lemma handleResourcesDeletion_Ok (namespace : Namespace)
    (nc nc' : NamespaceClass) (st st' : Cluster) :
  handleResourcesDeletion namespace nc st = (Ok nc', st') →
  ncName nc' = ncName nc ∧ SpecResources nc' = SpecResources nc
  ∧ StatusResources nc' `sublist_of` StatusResources nc
  ∧ filter (entryDeclared (nsName namespace) (SpecResources nc)) (StatusResources nc')
    = filter (entryDeclared (nsName namespace) (SpecResources nc)) (StatusResources nc)
  ∧ (∀ e, e ∈ StatusResources nc → e ∉ StatusResources nc' →
          ¬ entryDeclared (nsName namespace) (SpecResources nc) e
          ∧ objects st' !! keyOf (entryObject (nsName namespace) e) = None)
  ∧ ((StatusResources nc' = StatusResources nc ∧ classes st' = classes st)
     ∨ (∃ sp old, classes st !! ncName nc = Some (sp, old)
          ∧ classes st' = <[ncName nc := (sp, StatusResources nc')]> (classes st))).
Proof.
  unfold handleResourcesDeletion. rewrite bind_run.
  destruct (handleResourcesDeletion_range namespace (ncName nc) (SpecResources nc)
              (seq 0 (length (StatusResources nc))) (StatusResources nc)
              (length (StatusResources nc)) st) as [[[backing len]|e] s1] eqn:Hrun;
    [| discriminate].
  intros H. inversion H; subst nc' s1; clear H.
  cbn [ncName SpecResources StatusResources].
  apply handleResourcesDeletion_range_ledger in Hrun
    as (Hl & Hle & Hin & Hsub & Hfil & Hdropped & _ & Hcls); [| done].
  rewrite firstn_all in Hsub, Hfil, Hdropped.
  repeat split; try done.
  - by apply Hdropped.
  - by apply Hdropped.
  - destruct Hcls as [(-> & -> & Hcls)|Hcls]; [left | by right].
    by rewrite firstn_all.
Qed.

(** X7.  The ledger after a successful orphan sweep, for a class in hand
    that carries the stored spec (as a class fetched in the pass does): the
    class keeps its name and spec; the ledger is the old ledger with some
    entries dropped, in the old order; no entry whose group-version-kind the
    class declares is dropped; every entry that is dropped is one the class
    does not declare, and no object is left at its address; and the stored
    ledger is untouched when nothing was dropped, and the ledger in hand
    otherwise. *)
Theorem handleResourcesDeletion_keeps_declared (namespace : Namespace)
    (nc nc' : NamespaceClass) (st : Cluster) (stored : list ResourceStatus) :
  classes st !! ncName nc = Some (SpecResources nc, stored) →
  (handleResourcesDeletion namespace nc st).1 = Ok nc' →
  let st' := (handleResourcesDeletion namespace nc st).2 in
  let declared := entryDeclared (nsName namespace) (SpecResources nc) in
  ncName nc' = ncName nc ∧ SpecResources nc' = SpecResources nc
  ∧ StatusResources nc' `sublist_of` StatusResources nc
  ∧ filter declared (StatusResources nc') = filter declared (StatusResources nc)
  ∧ (∀ e, e ∈ StatusResources nc → e ∉ StatusResources nc' →
          ¬ declared e
          ∧ objects st' !! keyOf (entryObject (nsName namespace) e) = None)
  ∧ ((StatusResources nc' = StatusResources nc ∧ classes st' = classes st)
     ∨ classes st'
       = <[ncName nc := (SpecResources nc, StatusResources nc')]> (classes st)).
Proof.
  intros Hclass Hok st' declared. subst st' declared.
  destruct (handleResourcesDeletion namespace nc st) as [r st'] eqn:Hrun.
  cbn [fst snd] in Hok |- *. subst r.
  apply handleResourcesDeletion_Ok in Hrun
    as (Hn & Hs & Hsub & Hfil & Hdropped & Hcls).
  repeat split; try done; try (by apply Hdropped).
  destruct Hcls as [Hcls|(sp & old & Hc & Hcls)]; [by left | right].
  rewrite Hclass in Hc. by injection Hc as <- _.
Qed.

Lemma handleResourcesDeletion_keeps_declared_witness :
  objects (handleResourcesDeletion devFirstTime
             (mkNamespaceClass "web"
                [RawObject (configMap "settings" "replicas=3")] shrunkLedger)
             shrunkClassCluster).2 !! inDev (secret "token" "") = None.
Proof.
  destruct (handleResourcesDeletion_keeps_declared devFirstTime
              (mkNamespaceClass "web"
                 [RawObject (configMap "settings" "replicas=3")] shrunkLedger)
              (mkNamespaceClass "web"
                 [RawObject (configMap "settings" "replicas=3")]
                 [statusOf (networkPolicy "deny-all" "");
                  statusOf (configMap "settings" "")])
              shrunkClassCluster shrunkLedger) as (_ & _ & _ & _ & Hdropped & _);
    [reflexivity | reflexivity |].
  apply (Hdropped (statusOf (secret "token" ""))); [left |].
  intros Hin. apply elem_of_cons in Hin as [E|Hin]; [discriminate E |].
  apply elem_of_cons in Hin as [E|Hin]; [discriminate E |].
  apply elem_of_nil in Hin. destruct Hin.
Defined.

(** ** What a successful pass has achieved *)

Lemma entryDeclared_statusOf (ns : string) (spec : list RawExtension)
    (doc : Unstructured) :
  RawObject doc ∈ spec → Forall decodable spec →
  entryDeclared ns spec (statusOf doc).
Proof.
  intros Hin Hdec. unfold entryDeclared.
  by eapply resourceExistsInSpec_declared.
Qed.

Lemma Reconcile_Ok (req name : string) (st st' : Cluster)
    (ls an : gmap string string) (spec : list RawExtension)
    (ledger : list ResourceStatus) :
  namespaces st !! req = Some (ls, an) →
  ls !! classLabel = Some name →
  classes st !! name = Some (spec, ledger) →
  Reconcile req st = (Ok (), st') →
  ∃ docs ledger', spec = RawObject <$> docs
    ∧ classes st' !! name = Some (spec, ledger')
    ∧ (∀ doc, doc ∈ docs →
         is_Some (objects st' !! keyOf (SetNamespace doc req))
         ∧ statusOf doc ∈ ledger')
    ∧ (∀ e, e ∈ ledger' → e ∈ ledger ∨ ∃ doc, doc ∈ docs ∧ e = statusOf doc)
    ∧ namespaces st' !! req = Some (ls, <[lastNameAnnotation := name]> an).
Proof.
  intros Hns Hlabel Hclass Hrun. unfold Reconcile in Hrun.
  apply bind_Ok in Hrun as (namespace & s1 & Hfetch & Hrun).
  rewrite (fetchNamespace_found _ _ _ _ _ Hns) in Hfetch.
  destruct (hd false (faults st)); [done |].
  inversion Hfetch; subst namespace s1; clear Hfetch.
  cbn [Labels] in Hrun. rewrite Hlabel in Hrun.
  set (s1 := record (CallGetNamespace req) st) in *.
  apply bind_Ok in Hrun as (nc0 & s2 & Hfetch & Hrun).
  rewrite (fetchNamespaceClass_found _ _ s1 _ _ Hclass) in Hfetch.
  destruct (hd false (faults s1)); [done |].
  inversion Hfetch; subst nc0 s2; clear Hfetch.
  set (s2 := record (CallGetNamespaceClass name) s1) in *.
  set (namespace := mkNamespace req ls an) in *.
  apply bind_Ok in Hrun as (nc & s3 & Hconv & Hrun).
  unfold handleResources in Hconv. cbn [SpecResources] in Hconv.
  pose proof (handleResources_range_live _ _ _ _ _ _ Hconv) as Hlive.
  pose proof (handleResources_range_name _ _ _ _ _ _ Hconv) as [Hname Hspec].
  destruct (handleResources_range_objects _ _ _ _ _ _ Hconv) as (docs & Hdocs & _).
  destruct (handleResources_range_ledger _ _ _ _ _ _ Hconv)
    as ((added & Hadded & Hfrom) & Hall & _ & Hsync).
  cbn [ncName SpecResources StatusResources nsName namespace] in *.
  specialize (Hsync spec Hclass).
  assert (Hdec : Forall decodable spec) by (by eapply Forall_decodable_of_live).
  unfold handleNamespaceAnnotations in Hrun.
  apply bind_Ok in Hrun as (namespace' & s4 & Hdetect & Hrun).
  apply bind_Ok in Hrun as ([] & s5 & Hupd & Hrun).
  apply bind_Ok in Hrun as (ncf & s6 & Horphan & Hret).
  inversion Hret; subst s6; clear Hret.
  pose proof (detectClassChange_Ok _ _ _ _ _ Hdetect) as ->.
  pose proof (detectClassChange_tearsDown namespace nc s3) as Hsweepframe.
  pose proof (detectClassChange_untouched namespace nc s3) as Hsweepstore.
  rewrite Hdetect in Hsweepframe, Hsweepstore. cbn [snd] in Hsweepframe, Hsweepstore.
  rewrite Hspec in Hsweepframe.
  apply UpdateNamespace_Ok in Hupd.
  cbn [nsName Labels Annotations setLastName namespace] in Hupd.
  pose proof (handleResourcesDeletion_tearsDown
                (setLastName namespace (ncName nc)) nc s5) as Horphanframe.
  rewrite Horphan, Hspec in Horphanframe. cbn [snd] in Horphanframe.
  apply handleResourcesDeletion_Ok in Horphan
    as (_ & _ & Hsub & Hfil & _ & Hcls).
  rewrite Hspec in Hfil. cbn [nsName setLastName namespace] in Hfil.
  assert (Hobj5 : objects s5 = objects s4) by (by subst s5).
  assert (Hcls5 : classes s5 = classes s3).
  { subst s5. cbn. apply (unt_classes _ _ _ Hsweepstore). }
  exists docs, (StatusResources ncf). split; [done |].
  split; [| split; [| split]].
  - destruct Hcls as [[-> ->]|(sp & old & Hc & ->)].
    + by rewrite Hcls5.
    + rewrite Hname, lookup_insert_eq. rewrite Hname, Hcls5, Hsync in Hc.
      by injection Hc as <- _.
  - intros doc Hdoc.
    assert (Hin : RawObject doc ∈ spec)
      by (rewrite Hdocs; by apply list_elem_of_fmap_2).
    split.
    + rewrite Forall_forall in Hlive.
      destruct (Hlive _ Hin) as (doc' & E & Hsome). injection E as <-.
      set (k := keyOf (SetNamespace doc req)) in *.
      assert (Hk : keyDeclared spec k = true).
      { unfold k. rewrite <- resourceExistsInSpec_key.
        by eapply resourceExistsInSpec_declared. }
      rewrite (tearsDown_kept _ _ _ _ _ Horphanframe) by done. rewrite Hobj5.
      by rewrite (tearsDown_kept _ _ _ _ _ Hsweepframe).
    + assert (Hf : statusOf doc
                   ∈ filter (entryDeclared req spec) (StatusResources nc)).
      { apply list_elem_of_filter. split; [by apply entryDeclared_statusOf |].
        by apply Hall. }
      rewrite <- Hfil in Hf. by apply list_elem_of_filter in Hf as [_ Hf].
  - intros e He.
    assert (He' : e ∈ StatusResources nc) by (by eapply elem_of_sublist).
    rewrite Hadded in He'. apply elem_of_app in He' as [He'|He']; [by left |].
    right. destruct (Hfrom e He') as (doc & Hin & ->). exists doc.
    split; [| done]. rewrite Hdocs in Hin.
    apply list_elem_of_fmap in Hin as (d & E & Hd). by injection E as ->.
  - rewrite (tear_namespaces _ _ _ _ Horphanframe). subst s5. cbn.
    by rewrite lookup_insert_eq, Hname.
Qed.

(** X8.  What a successful pass has achieved, whatever the last-name
    annotation said before: for a namespace labelled with a class that is in
    the store, every manifest of the class decodes, has a live object at its
    address in the namespace and has its entry in the stored ledger; the
    stored ledger holds nothing but entries it held before and entries of
    manifests; the spec of the class is as before; and the stored namespace
    has its labels and annotations as before, but for the last-name
    annotation, which names the class. *)
Theorem Reconcile_converges (req name : string) (st : Cluster)
    (ls an : gmap string string) (spec : list RawExtension)
    (ledger : list ResourceStatus) :
  namespaces st !! req = Some (ls, an) →
  ls !! classLabel = Some name →
  classes st !! name = Some (spec, ledger) →
  (Reconcile req st).1 = Ok () →
  let st' := (Reconcile req st).2 in
  ∃ docs ledger', spec = RawObject <$> docs
    ∧ classes st' !! name = Some (spec, ledger')
    ∧ (∀ doc, doc ∈ docs →
         is_Some (objects st' !! keyOf (SetNamespace doc req))
         ∧ statusOf doc ∈ ledger')
    ∧ (∀ e, e ∈ ledger' → e ∈ ledger ∨ ∃ doc, doc ∈ docs ∧ e = statusOf doc)
    ∧ namespaces st' !! req = Some (ls, <[lastNameAnnotation := name]> an).
Proof.
  intros Hns Hlabel Hclass Hok st'. subst st'.
  destruct (Reconcile req st) as [[[]|e] st'] eqn:Hrun; [| discriminate Hok].
  cbn [snd]. by eapply Reconcile_Ok.
Qed.

Lemma Reconcile_converges_witness :
  namespaces (Reconcile "dev" freshCluster).2 !! "dev"
  = Some ({[ classLabel := "web" ]}, <[ lastNameAnnotation := "web" ]> ∅).
Proof.
  destruct (Reconcile_converges "dev" "web" freshCluster
              {[ classLabel := "web" ]} ∅
              [RawObject (configMap "settings" "replicas=3")] [])
    as (docs & ledger' & _ & _ & _ & _ & Hann);
    [reflexivity | reflexivity | reflexivity | reflexivity |].
  exact Hann.
Defined.

(** ** A pass over a namespace whose resources are all in place *)

Lemma noFaults_hd (st : Cluster) : noFaults st → hd false (faults st) = false.
Proof. unfold noFaults. by destruct 1. Qed.

Lemma noFaults_record (c : Call) (st : Cluster) :
  noFaults st → noFaults (record c st).
Proof. unfold noFaults. cbn. destruct 1; [constructor | done]. Qed.

Lemma settled_refl (st : Cluster) : noFaults st → settled st st.
Proof. intros Hq. split; try done. Qed.

Lemma settled_trans : Transitive settled.
Proof.
  intros st1 st2 st3 [N1 C1 O1 L1 F1] [N2 C2 O2 L2 F2].
  split; [congruence | congruence | congruence | by etrans | done].
Qed.
Global Existing Instance settled_trans.

Lemma settled_record (c : Call) (st : Cluster) :
  steadyCall c → noFaults st → settled st (record c st).
Proof.
  intros Hc Hq. split; try done.
  - by apply issues_record.
  - by apply noFaults_record.
Qed.

Lemma createOrUpdate_settled (obj : Unstructured) (body : string) (st : Cluster) :
  objects st !! keyOf obj = Some body → noFaults st →
  ∃ st', createOrUpdate obj st = (Ok (withBody obj body), st') ∧ settled st st'.
Proof.
  intros Hlive Hq. unfold createOrUpdate.
  rewrite bind_run, attempt_run, Get_run, (noFaults_hd _ Hq), Hlive.
  cbn [fst snd]. rewrite bind_run, Update_run.
  rewrite (noFaults_hd _ (noFaults_record _ _ Hq)).
  change (objects (record _ ?s) !! keyOf (withBody obj body))
    with (objects s !! keyOf obj).
  rewrite Hlive. eexists. split; [reflexivity |].
  etrans; [apply (settled_record (CallGet (keyOf obj))); done |].
  split; try done.
  - cbn. change (keyOf (withBody obj body)) with (keyOf obj). by apply insert_id.
  - apply issues_record. done.
  - apply noFaults_record, noFaults_record, Hq.
Qed.

Lemma handleResources_range_settled (namespace : Namespace)
    (docs : list Unstructured) (nc : NamespaceClass) (st : Cluster) :
  (∀ doc, doc ∈ docs →
     is_Some (objects st !! keyOf (SetNamespace doc (nsName namespace)))
     ∧ statusOf doc ∈ StatusResources nc) →
  noFaults st →
  ∃ st', handleResources_range namespace (RawObject <$> docs) nc st = (Ok nc, st')
         ∧ settled st st'.
Proof.
  revert st. induction docs as [|doc docs IH]; intros st Hdocs Hq.
  - exists st. split; [done | by apply settled_refl].
  - destruct (Hdocs doc) as [[body Hlive] Hin]; [left |].
    destruct (createOrUpdate_settled _ body st Hlive Hq) as (s1 & Hcou & Hs1).
    destruct (IH s1) as (s2 & Hrest & Hs2).
    { intros d Hd. rewrite (set_objects _ _ Hs1). apply Hdocs. by right. }
    { apply (set_faults _ _ Hs1). }
    exists s2. split; [| by etrans].
    cbn [fmap list_fmap handleResources_range UnmarshalJSON].
    change (lift (Ok doc) ≫= ?f) with (f doc). cbn beta.
    rewrite bind_run, Hcou, bind_run. unfold trackResource.
    assert (Hcheck : resourceExistsInNamespaceClassStatus
                       (withBody (SetNamespace doc (nsName namespace)) body) nc
                     = true)
      by (by apply resourceExistsInNamespaceClassStatus_elem).
    rewrite Hcheck. cbn [negb]. exact Hrest.
Qed.

Lemma handleResourcesDeletion_range_declared (namespace : Namespace) (name : string)
    (spec : list RawExtension) (js : list nat)
    (backing : list ResourceStatus) (len : nat) :
  (∀ j, j ∈ js → ∃ resource, backing !! j = Some resource
                   ∧ entryDeclared (nsName namespace) spec resource) →
  handleResourcesDeletion_range namespace name spec js backing len
  = mret (backing, len).
Proof.
  induction js as [|j rest IH]; intros Hjs; [done |]. simpl.
  destruct (Hjs j) as (resource & -> & Hdecl); [left |].
  unfold entryDeclared, entryObject in Hdecl. rewrite Hdecl. cbn [negb].
  apply IH. intros j' Hj'. apply Hjs. by right.
Qed.

Lemma handleResourcesDeletion_declared (namespace : Namespace)
    (nc : NamespaceClass) :
  Forall (entryDeclared (nsName namespace) (SpecResources nc)) (StatusResources nc) →
  handleResourcesDeletion namespace nc
  = mret (mkNamespaceClass (ncName nc) (SpecResources nc) (StatusResources nc)).
Proof.
  intros Hall. unfold handleResourcesDeletion.
  rewrite handleResourcesDeletion_range_declared.
  - change (mret ?a ≫= ?f) with (f a). cbn beta iota. cbn [ncName SpecResources StatusResources]. by rewrite firstn_all.
  - intros j Hj. apply elem_of_seq in Hj as [_ Hj].
    destruct (lookup_lt_is_Some_2 (StatusResources nc) j) as [r Hr]; [lia |].
    exists r. split; [done |]. rewrite Forall_forall in Hall.
    apply Hall. by eapply list_elem_of_lookup_2.
Qed.

Lemma Reconcile_settled (req name : string) (st : Cluster)
    (ls an : gmap string string) (docs : list Unstructured)
    (ledger : list ResourceStatus) :
  namespaces st !! req = Some (ls, an) →
  ls !! classLabel = Some name →
  an !! lastNameAnnotation = Some name →
  classes st !! name = Some (RawObject <$> docs, ledger) →
  (∀ doc, doc ∈ docs → is_Some (objects st !! keyOf (SetNamespace doc req))
                       ∧ statusOf doc ∈ ledger) →
  Forall (entryDeclared req (RawObject <$> docs)) ledger →
  noFaults st →
  ∃ st', Reconcile req st = (Ok (), st') ∧ settled st st'.
Proof.
  intros Hns Hlabel Han Hclass Hdocs Hledger Hq. unfold Reconcile.
  rewrite bind_run, (fetchNamespace_found _ _ _ _ _ Hns), (noFaults_hd _ Hq).
  cbn [Labels]. rewrite Hlabel.
  set (s1 := record (CallGetNamespace req) st).
  assert (Hs1 : settled st s1) by (by apply settled_record).
  rewrite bind_run, (fetchNamespaceClass_found _ _ s1 _ _ Hclass),
    (noFaults_hd _ (set_faults _ _ Hs1)).
  set (s2 := record (CallGetNamespaceClass name) s1).
  assert (Hs2 : settled st s2).
  { etrans; [exact Hs1 |]. apply settled_record; [done | apply (set_faults _ _ Hs1)]. }
  set (namespace := mkNamespace req ls an).
  set (nc := mkNamespaceClass name (RawObject <$> docs) ledger).
  destruct (handleResources_range_settled namespace docs nc s2) as (s3 & Hconv & Hs3).
  { intros doc Hdoc. rewrite (set_objects _ _ Hs2). by apply Hdocs. }
  { apply (set_faults _ _ Hs2). }
  rewrite bind_run. unfold handleResources. cbn [SpecResources nc]. fold nc.
  rewrite Hconv. unfold handleNamespaceAnnotations, detectClassChange.
  cbn [Annotations namespace ncName nc]. rewrite Han.
  rewrite bool_decide_false by (intros Hne; by apply Hne).
  change (mret namespace ≫= ?f) with (f namespace). cbn beta.
  rewrite bind_run, UpdateNamespace_run, (noFaults_hd _ (set_faults _ _ Hs3)).
  cbn [nsName Labels Annotations namespace].
  change (namespaces (record _ ?s)) with (namespaces s).
  rewrite (set_namespaces _ _ Hs3), (set_namespaces _ _ Hs2), Hns.
  rewrite handleResourcesDeletion_declared by done.
  eexists. split; [reflexivity |].
  etrans; [exact Hs2 |]. etrans; [exact Hs3 |].
  split; try done.
  - cbn. rewrite (set_namespaces _ _ Hs3), (set_namespaces _ _ Hs2).
    by apply insert_id.
  - apply issues_record. done.
  - apply noFaults_record, (set_faults _ _ Hs3).
Qed.

(** X9.  A pass over a namespace whose resources are all in place changes
    nothing.  The namespace is labelled and annotated with the class, every
    manifest has a live object at its address (whatever its content) and an
    entry in the ledger, every ledger entry has a group-version-kind the
    class declares, and no call fails: then the pass succeeds, namespaces,
    classes and objects are as before, and no create, delete or status
    update is issued. *)
Theorem Reconcile_fixed_point (req name : string) (st : Cluster)
    (ls an : gmap string string) (docs : list Unstructured)
    (ledger : list ResourceStatus) :
  namespaces st !! req = Some (ls, an) →
  ls !! classLabel = Some name →
  an !! lastNameAnnotation = Some name →
  classes st !! name = Some (RawObject <$> docs, ledger) →
  (∀ doc, doc ∈ docs → is_Some (objects st !! keyOf (SetNamespace doc req))
                       ∧ statusOf doc ∈ ledger) →
  Forall (entryDeclared req (RawObject <$> docs)) ledger →
  noFaults st →
  (Reconcile req st).1 = Ok ()
  ∧ let st' := (Reconcile req st).2 in
    namespaces st' = namespaces st ∧ classes st' = classes st
    ∧ objects st' = objects st
    ∧ Forall steadyCall (newCalls (Reconcile req) st).
Proof.
  intros Hns Hlabel Han Hclass Hdocs Hledger Hq.
  destruct (Reconcile_settled req name st ls an docs ledger)
    as (st' & Hrun & [HN HC HO (new & Hcalls & Hnew) _]); try done.
  unfold newCalls. rewrite Hrun. cbn [fst snd].
  repeat split; try done. by rewrite Hcalls, drop_app_length.
Qed.

Lemma Reconcile_fixed_point_witness :
  objects (Reconcile "dev" driftedCluster).2 = objects driftedCluster.
Proof.
  destruct (Reconcile_fixed_point "dev" "web" driftedCluster
              {[ classLabel := "web" ]} {[ lastNameAnnotation := "web" ]}
              [configMap "settings" "replicas=3"]
              [statusOf (configMap "settings" "")])
    as (_ & _ & _ & Hobj & _);
    [reflexivity | reflexivity | reflexivity | reflexivity | | | constructor |
     exact Hobj].
  - intros doc Hdoc. apply list_elem_of_singleton in Hdoc as ->.
    split; [by exists "replicas=1" | left].
  - repeat constructor.
Defined.

(** ** An orphan whose object is already gone *)

Lemma handleResourcesDeletion_range_skip (namespace : Namespace) (name : string)
    (spec : list RawExtension) (js1 js2 : list nat)
    (backing : list ResourceStatus) (len : nat) :
  (∀ j, j ∈ js1 → ∃ resource, backing !! j = Some resource
                    ∧ entryDeclared (nsName namespace) spec resource) →
  handleResourcesDeletion_range namespace name spec (js1 ++ js2) backing len
  = handleResourcesDeletion_range namespace name spec js2 backing len.
Proof.
  induction js1 as [|j rest IH]; intros Hjs; [done |]. simpl.
  destruct (Hjs j) as (resource & -> & Hdecl); [left |].
  unfold entryDeclared, entryObject in Hdecl. rewrite Hdecl. cbn [negb].
  apply IH. intros j' Hj'. apply Hjs. by right.
Qed.

(** X10.  An orphan whose object is already gone stops the orphan sweep.
    When the first ledger entry the class does not declare has no object at
    its address, the delete of that object is answered not-found and the
    sweep returns that error: the delete is the only call, the store is as
    before, and the entry stays in the ledger. *)
Theorem handleResourcesDeletion_missing_object (namespace : Namespace)
    (nc : NamespaceClass) (st : Cluster)
    (pre post : list ResourceStatus) (e : ResourceStatus) :
  StatusResources nc = pre ++ e :: post →
  Forall (entryDeclared (nsName namespace) (SpecResources nc)) pre →
  ¬ entryDeclared (nsName namespace) (SpecResources nc) e →
  objects st !! keyOf (entryObject (nsName namespace) e) = None →
  hd false (faults st) = false →
  handleResourcesDeletion namespace nc st
  = (Err ErrNotFound, record (CallDelete (entryObject (nsName namespace) e)) st).
Proof.
  intros Hledger Hpre He Hgone Hq. unfold handleResourcesDeletion.
  rewrite Hledger, length_app. cbn [length].
  replace (length pre + S (length post))%nat
    with (length pre + (1 + length post))%nat by lia.
  rewrite seq_app, seq_app. cbn [seq app Nat.add].
  rewrite bind_run, handleResourcesDeletion_range_skip.
  - simpl. rewrite list_lookup_middle by done.
    fold (entryObject (nsName namespace) e).
    apply not_true_is_false in He. unfold entryDeclared in He. rewrite He.
    cbn [negb]. rewrite bind_run, Delete_run, Hq, Hgone. done.
  - intros j Hj. apply elem_of_seq in Hj as [_ Hj].
    destruct (lookup_lt_is_Some_2 pre j) as [r Hr]; [lia |].
    exists r. split; [by apply lookup_app_l_Some |].
    rewrite Forall_forall in Hpre. apply Hpre. by eapply list_elem_of_lookup_2.
Qed.

Lemma handleResourcesDeletion_missing_object_witness :
  handleResourcesDeletion devFirstTime
    (mkNamespaceClass "web" [RawObject (configMap "settings" "replicas=3")]
       [statusOf (configMap "settings" ""); statusOf (secret "token" "")])
    driftedCluster
  = (Err ErrNotFound,
     record (CallDelete (entryObject "dev" (statusOf (secret "token" ""))))
            driftedCluster).
Proof.
  apply (handleResourcesDeletion_missing_object devFirstTime
           (mkNamespaceClass "web" [RawObject (configMap "settings" "replicas=3")]
              [statusOf (configMap "settings" ""); statusOf (secret "token" "")])
           driftedCluster [statusOf (configMap "settings" "")] []
           (statusOf (secret "token" ""))).
  - reflexivity.
  - constructor; [reflexivity | constructor].
  - intros H. change (false = true) in H. discriminate H.
  - reflexivity.
  - reflexivity.
Defined.

(** ** The outcome of the class-change sweep *)

Lemma handleNamespaceClassChange_range_outcome (namespace : Namespace)
    (resources : list RawExtension) (nc : NamespaceClass) (st : Cluster) :
  let r := (handleNamespaceClassChange_range namespace resources nc st).1 in
  (r = Ok () ∨ r = Err ErrTransport
   ∨ (r = Err ErrDecode ∧ ¬ Forall decodable resources))
  ∧ (noFaults st → r ≠ Err ErrTransport).
Proof.
  revert st. induction resources as [|resource rest IH]; intros st; simpl.
  - split; [by left | done].
  - destruct resource as [doc|bytes]; cbn [UnmarshalJSON].
    2:{ split; [| done]. right; right. split; [done |].
        intros Hdec. by apply Forall_cons_1 in Hdec as [Hbad _]. }
    change (lift (Ok doc) ≫= ?f) with (f doc). cbn beta.
    rewrite bind_run, attempt_run, Get_run.
    destruct (hd false (faults st)) eqn:Hfault; cbn [fst snd IsNotFound].
    { split; [by right; left |]. intros Hq. by rewrite (noFaults_hd _ Hq) in Hfault. }
    assert (Hstep : ∀ s, (noFaults st → noFaults s) →
              let r := (handleNamespaceClassChange_range namespace rest nc s).1 in
              (r = Ok () ∨ r = Err ErrTransport
               ∨ (r = Err ErrDecode ∧ ¬ Forall decodable (RawObject doc :: rest)))
              ∧ (noFaults st → r ≠ Err ErrTransport)).
    { intros s Hs. destruct (IH s) as [Hout Hquiet]. split; [| by auto].
      destruct Hout as [?|[?|[? Hbad]]]; [by left | by right; left |].
      right; right. split; [done |]. intros Hdec. apply Hbad.
      by apply Forall_cons_1 in Hdec as [_ ?]. }
    destruct (objects st !! keyOf (SetNamespace doc (nsName namespace)))
      as [body|] eqn:Hlive; cbn [fst snd IsNotFound].
    + rewrite bind_run.
      destruct (negb (resourceExistsInNamespaceClass _ nc)).
      * rewrite Delete_run.
        destruct (hd false (faults (record _ st))) eqn:Hfault2.
        { split; [by right; left |]. intros Hq.
          by rewrite (noFaults_hd _ (noFaults_record _ _ Hq)) in Hfault2. }
        change (objects (record _ ?s) !! keyOf (withBody ?o body))
          with (objects s !! keyOf o).
        rewrite Hlive. apply Hstep. intros Hq.
        by apply noFaults_record, noFaults_record.
      * apply Hstep. intros Hq. by apply noFaults_record.
    + apply Hstep. intros Hq. by apply noFaults_record.
Qed.

Lemma handleNamespaceClassChange_result (namespace : Namespace)
    (lastName : string) (nc : NamespaceClass) (st : Cluster) :
  let r := (handleNamespaceClassChange namespace lastName nc st).1 in
  (r = Ok () ∨ r = Err ErrTransport
   ∨ (r = Err ErrDecode
      ∧ ∃ spec ledger, classes st !! lastName = Some (spec, ledger)
                       ∧ ¬ Forall decodable spec))
  ∧ (noFaults st → r ≠ Err ErrTransport)
  ∧ (noFaults st →
     match classes st !! lastName with
     | Some (spec, _) => Forall decodable spec
     | None => True
     end → r = Ok ()).
Proof.
  intros r. subst r. unfold handleNamespaceClassChange. rewrite bind_run.
  assert (Hgoal : ∀ P Q R : Prop, P → Q → (P → Q → R) → P ∧ Q ∧ R) by tauto.
  destruct (classes st !! lastName) as [[spec ledger]|] eqn:Hold.
  - rewrite (fetchNamespaceClass_found _ _ _ _ _ Hold).
    destruct (hd false (faults st)) eqn:Hfault; cbn [fst snd].
    { apply Hgoal; [by right; left | |].
      - intros Hq. by rewrite (noFaults_hd _ Hq) in Hfault.
      - intros _ Hquiet Hq. by destruct (Hquiet Hq). }
    cbn [SpecResources].
    destruct (handleNamespaceClassChange_range_outcome namespace spec nc
                (record (CallGetNamespaceClass lastName) st)) as [Hout Hquiet].
    apply Hgoal.
    + destruct Hout as [?|[?|[? Hbad]]]; [by left | by right; left |].
      right; right. split; [done |]. by exists spec, ledger.
    + intros Hq. by apply Hquiet, noFaults_record.
    + intros _ Hquiet' Hq Hdec.
      destruct Hout as [?|[?|[? Hbad]]]; [done | by destruct (Hquiet' Hq) | done].
  - rewrite (fetchNamespaceClass_absent _ _ _ Hold).
    destruct (hd false (faults st)) eqn:Hfault; cbn [fst snd].
    + apply Hgoal; [by right; left | |].
      * intros Hq. by rewrite (noFaults_hd _ Hq) in Hfault.
      * intros _ Hquiet Hq. by destruct (Hquiet Hq).
    + split; [by left |]. done.
Qed.

(** X11.  The class-change sweep tolerates what is missing.  Its outcome is
    success, a failed call, or a manifest of the old class that does not
    decode, and nothing else: an old class that is no longer in the store and
    old objects that are no longer live are passed over, and a delete is only
    sent for an object the sweep has just read.  So when no call fails and
    the manifests of the old class decode, or there is no old class, the
    sweep succeeds. *)
Theorem handleNamespaceClassChange_outcome (namespace : Namespace)
    (lastName : string) (nc : NamespaceClass) (st : Cluster) :
  let r := (handleNamespaceClassChange namespace lastName nc st).1 in
  (r = Ok () ∨ r = Err ErrTransport
   ∨ (r = Err ErrDecode
      ∧ ∃ spec ledger, classes st !! lastName = Some (spec, ledger)
                       ∧ ¬ Forall decodable spec))
  ∧ (noFaults st → r ≠ Err ErrTransport)
  ∧ (noFaults st →
     match classes st !! lastName with
     | Some (spec, _) => Forall decodable spec
     | None => True
     end → r = Ok ()).
Proof. apply handleNamespaceClassChange_result. Qed.

Lemma handleNamespaceClassChange_outcome_witness :
  (handleNamespaceClassChange devFirstTime "ghost" emptyWeb freshCluster).1 = Ok ().
Proof.
  destruct (handleNamespaceClassChange_outcome devFirstTime "ghost" emptyWeb
              freshCluster) as (_ & _ & Hok).
  apply Hok; [constructor | exact I].
Defined.

(** ** When a pass succeeds *)

Lemma surfaces_noFaults {A} (m : M A) (st : Cluster) :
  surfaces m → noFaults st → noFaults (m st).2.
Proof.
  intros Hm Hq. destruct (Hm st) as (new & _ & E & _).
  unfold noFaults. rewrite E. by apply Forall_drop.
Qed.

Lemma createOrUpdate_succeeds (obj : Unstructured) (st : Cluster) :
  noFaults st → ∃ obj' st', createOrUpdate obj st = (Ok obj', st').
Proof.
  intros Hq. unfold createOrUpdate.
  rewrite bind_run, attempt_run, Get_run, (noFaults_hd _ Hq).
  destruct (objects st !! keyOf obj) as [body|] eqn:Hlive; cbn [fst snd IsNotFound];
    rewrite bind_run; [rewrite Update_run | rewrite Create_run];
    rewrite (noFaults_hd _ (noFaults_record _ _ Hq));
    change (objects (record _ ?s) !! keyOf _) with (objects s !! keyOf obj);
    rewrite Hlive; eauto.
Qed.

Lemma trackResource_succeeds (obj : Unstructured) (nc : NamespaceClass)
    (st : Cluster) :
  noFaults st → is_Some (classes st !! ncName nc) →
  ∃ nc' st', trackResource obj nc st = (Ok nc', st').
Proof.
  intros Hq [[sp old] Hc]. unfold trackResource.
  destruct (negb _); [| by eauto].
  rewrite bind_run, StatusUpdate_run, (noFaults_hd _ Hq). cbn [ncName].
  rewrite Hc. eauto.
Qed.

Lemma handleResources_range_succeeds (namespace : Namespace)
    (docs : list Unstructured) (nc : NamespaceClass) (st : Cluster) :
  noFaults st → is_Some (classes st !! ncName nc) →
  ∃ nc' st', handleResources_range namespace (RawObject <$> docs) nc st
             = (Ok nc', st').
Proof.
  revert nc st. induction docs as [|doc docs IH]; intros nc st Hq Hc.
  - by exists nc, st.
  - cbn [fmap list_fmap handleResources_range UnmarshalJSON].
    change (lift (Ok doc) ≫= ?f) with (f doc). cbn beta.
    destruct (createOrUpdate_succeeds (SetNamespace doc (nsName namespace)) st Hq)
      as (obj' & s1 & Hcou).
    pose proof (surfaces_noFaults _ st
                  (createOrUpdate_surfaces (SetNamespace doc (nsName namespace)))
                  Hq) as Hq1.
    rewrite Hcou in Hq1. cbn [snd] in Hq1.
    rewrite bind_run, Hcou.
    apply createOrUpdate_Ok in Hcou as (_ & Hcls1 & _).
    destruct (trackResource_succeeds obj' nc s1) as (nc1 & s2 & Htrack);
      [done | by rewrite Hcls1 |].
    pose proof (surfaces_noFaults _ s1 (trackResource_surfaces obj' nc) Hq1) as Hq2.
    rewrite Htrack in Hq2. cbn [snd] in Hq2.
    rewrite bind_run, Htrack.
    pose proof (trackResource_name _ _ _ _ _ Htrack) as [Hname _].
    apply trackResource_Ok in Htrack
      as [_ [(_ & _ & Hcls2)|(_ & _ & sp & old & Hold & Hcls2)]].
    + apply IH; [done |]. by rewrite Hname, Hcls2, Hcls1.
    + apply IH; [done |]. rewrite Hname, Hcls2. cbn [ncName].
      by rewrite lookup_insert_eq.
Qed.

Lemma Forall_decodable_fmap (docs : list Unstructured) :
  Forall decodable (RawObject <$> docs).
Proof. apply Forall_fmap, Forall_true. done. Qed.

Lemma Reconcile_Ok_of (req name : string) (st : Cluster)
    (ls an : gmap string string) (docs : list Unstructured)
    (ledger : list ResourceStatus) :
  namespaces st !! req = Some (ls, an) →
  ls !! classLabel = Some name →
  classes st !! name = Some (RawObject <$> docs, ledger) →
  Forall (entryDeclared req (RawObject <$> docs)) ledger →
  (∀ lastName spec old, an !! lastNameAnnotation = Some lastName →
                        classes st !! lastName = Some (spec, old) →
                        Forall decodable spec) →
  noFaults st →
  (Reconcile req st).1 = Ok ().
Proof.
  intros Hns Hlabel Hclass Hledger Hold Hq. unfold Reconcile.
  rewrite bind_run, (fetchNamespace_found _ _ _ _ _ Hns), (noFaults_hd _ Hq).
  cbn [Labels]. rewrite Hlabel.
  set (s1 := record (CallGetNamespace req) st).
  assert (Hq1 : noFaults s1) by (by apply noFaults_record).
  rewrite bind_run, (fetchNamespaceClass_found _ _ s1 _ _ Hclass),
    (noFaults_hd _ Hq1).
  set (s2 := record (CallGetNamespaceClass name) s1).
  assert (Hq2 : noFaults s2) by (by apply noFaults_record).
  set (namespace := mkNamespace req ls an).
  set (nc0 := mkNamespaceClass name (RawObject <$> docs) ledger).
  destruct (handleResources_range_succeeds namespace docs nc0 s2)
    as (nc & s3 & Hconv); [done | by exists (RawObject <$> docs, ledger) |].
  pose proof (surfaces_noFaults _ s2
                (handleResources_range_surfaces namespace (RawObject <$> docs) nc0)
                Hq2) as Hq3.
  pose proof (handleResources_range_converges namespace (RawObject <$> docs) nc0 s2)
    as Hframe.
  rewrite Hconv in Hq3, Hframe. cbn [snd nsName ncName namespace nc0] in Hq3, Hframe.
  pose proof (handleResources_range_name _ _ _ _ _ _ Hconv) as [Hname Hspec].
  destruct (handleResources_range_ledger _ _ _ _ _ _ Hconv)
    as ((added & Hadded & Hfrom) & _).
  cbn [ncName SpecResources StatusResources nc0] in Hname, Hspec, Hadded, Hfrom.
  rewrite bind_run. unfold handleResources. cbn [SpecResources nc0]. fold nc0.
  rewrite Hconv. unfold handleNamespaceAnnotations. rewrite bind_run.
  pose proof (detectClassChange_untouched namespace nc s3) as Hstore.
  assert (Hdetect : ∃ s4, detectClassChange namespace nc s3
                          = (Ok (setLastName namespace name), s4)
                          ∧ noFaults s4).
  { unfold detectClassChange. cbn [Annotations namespace]. rewrite Hname.
    destruct (an !! lastNameAnnotation) as [lastName|] eqn:Han; [| by eauto].
    case_bool_decide as Hne.
    - rewrite bind_run.
      pose proof (surfaces_noFaults _ s3
                    (handleNamespaceClassChange_surfaces
                       (setLastName namespace name) lastName nc) Hq3) as Hq4.
      destruct (handleNamespaceClassChange_result (setLastName namespace name)
                  lastName nc s3) as (_ & _ & Hok).
      destruct (handleNamespaceClassChange (setLastName namespace name)
                  lastName nc s3) as [r s4].
      cbn [fst snd] in Hok, Hq4. rewrite Hok; [by eauto | done |].
      rewrite (conv_classes _ _ _ _ Hframe) by done.
      change (classes s2) with (classes st).
      destruct (classes st !! lastName) as [[spec old]|] eqn:Hc; [| done].
      by eapply Hold.
    - subst lastName.
      exists s3. split; [| done]. by rewrite setLastName_id. }
  destruct Hdetect as (s4 & Hdetect & Hq4').
  rewrite Hdetect in Hstore |- *. cbn [snd nsName namespace] in Hstore.
  rewrite bind_run, UpdateNamespace_run, (noFaults_hd _ Hq4').
  cbn [nsName setLastName namespace].
  rewrite (unt_namespaces _ _ _ Hstore), (conv_namespaces _ _ _ _ Hframe).
  change (namespaces s2) with (namespaces st). rewrite Hns.
  rewrite handleResourcesDeletion_declared; [done |].
  rewrite Hspec, Hadded. cbn [nsName]. apply Forall_app. split; [done |].
  apply Forall_forall. intros e He. destruct (Hfrom e He) as (doc & Hin & ->).
  apply entryDeclared_statusOf; [done | apply Forall_decodable_fmap].
Qed.

(** X12.  When a pass succeeds.  The namespace is labelled with a class that
    is in the store and whose manifests all decode, every entry of the
    stored ledger has a group-version-kind the class declares, the class the
    annotation names (if any, and if it is still in the store) has manifests
    that all decode, and no call fails: then the pass returns without
    error. *)
Theorem Reconcile_succeeds (req name : string) (st : Cluster)
    (ls an : gmap string string) (docs : list Unstructured)
    (ledger : list ResourceStatus) :
  namespaces st !! req = Some (ls, an) →
  ls !! classLabel = Some name →
  classes st !! name = Some (RawObject <$> docs, ledger) →
  Forall (entryDeclared req (RawObject <$> docs)) ledger →
  (∀ lastName spec old, an !! lastNameAnnotation = Some lastName →
                        classes st !! lastName = Some (spec, old) →
                        Forall decodable spec) →
  noFaults st →
  (Reconcile req st).1 = Ok ().
Proof. apply Reconcile_Ok_of. Qed.

Lemma Reconcile_succeeds_witness : (Reconcile "dev" freshCluster).1 = Ok ().
Proof.
  apply (Reconcile_succeeds "dev" "web" freshCluster {[ classLabel := "web" ]} ∅
           [configMap "settings" "replicas=3"] []);
    [reflexivity | reflexivity | reflexivity | constructor | | constructor].
  intros lastName spec old Han. discriminate Han.
Defined.

(** ** A second pass *)

(** X13.  Reconciling twice is reconciling once, on a cluster without
    orphans.  Under the conditions that make a pass succeed, the pass that
    follows it, with nothing changed in between, succeeds as well and leaves
    namespaces, classes and objects as the first pass left them, issuing no
    create, delete or status update. *)
Theorem Reconcile_idempotent (req name : string) (st : Cluster)
    (ls an : gmap string string) (docs : list Unstructured)
    (ledger : list ResourceStatus) :
  namespaces st !! req = Some (ls, an) →
  ls !! classLabel = Some name →
  classes st !! name = Some (RawObject <$> docs, ledger) →
  Forall (entryDeclared req (RawObject <$> docs)) ledger →
  (∀ lastName spec old, an !! lastNameAnnotation = Some lastName →
                        classes st !! lastName = Some (spec, old) →
                        Forall decodable spec) →
  noFaults st →
  let st1 := (Reconcile req st).2 in
  let st2 := (Reconcile req st1).2 in
  (Reconcile req st).1 = Ok () ∧ (Reconcile req st1).1 = Ok ()
  ∧ namespaces st2 = namespaces st1 ∧ classes st2 = classes st1
  ∧ objects st2 = objects st1
  ∧ Forall steadyCall (newCalls (Reconcile req) st1).
Proof.
  intros Hns Hlabel Hclass Hledger Hold Hq st1 st2. subst st1 st2.
  pose proof (Reconcile_Ok_of req name st ls an docs ledger
                Hns Hlabel Hclass Hledger Hold Hq) as Hok.
  pose proof (surfaces_noFaults _ st (Reconcile_surfaces req) Hq) as Hq1.
  destruct (Reconcile req st) as [[[]|e] st1] eqn:Hrun; [| discriminate Hok].
  cbn [fst snd] in *.
  destruct (Reconcile_Ok _ _ _ _ _ _ _ _ Hns Hlabel Hclass Hrun)
    as (docs' & ledger' & Hdocs & Hclass1 & Hlive & Hfrom & Hns1).
  assert (Hinj : Inj (=) (=) RawObject) by (by intros x y [= ->]).
  apply (inj (fmap RawObject)) in Hdocs. subst docs'.
  destruct (Reconcile_settled req name st1 ls (<[lastNameAnnotation := name]> an)
              docs ledger') as (st2 & Hrun2 & [HN HC HO (new & Hcalls & Hnew) _]);
    try done.
  { apply lookup_insert_eq. }
  { apply Forall_forall. intros e He. destruct (Hfrom e He) as [Hin|(doc & Hin & ->)].
    - rewrite Forall_forall in Hledger. by apply Hledger.
    - apply entryDeclared_statusOf; [| apply Forall_decodable_fmap].
      by apply list_elem_of_fmap_2. }
  unfold newCalls. rewrite Hrun2. cbn [fst snd].
  repeat split; try done. by rewrite Hcalls, drop_app_length.
Qed.

Lemma Reconcile_idempotent_witness :
  (Reconcile "dev" (Reconcile "dev" freshCluster).2).1 = Ok ().
Proof.
  destruct (Reconcile_idempotent "dev" "web" freshCluster
              {[ classLabel := "web" ]} ∅
              [configMap "settings" "replicas=3"] [])
    as (_ & Hok & _);
    [reflexivity | reflexivity | reflexivity | constructor | | constructor |
     exact Hok].
  intros lastName spec old Han. discriminate Han.
Defined.

(** ** A lone orphan *)

Lemma untrack_range_skip (name : string) (spec : list RawExtension)
    (obj : Unstructured) (idxs : list nat)
    (backing : list ResourceStatus) (len : nat) :
  (∀ i, i ∈ idxs → ∃ r, backing !! i = Some r ∧ sameResource r obj = false) →
  untrack_range name spec obj idxs backing len = mret (backing, len).
Proof.
  induction idxs as [|i rest IH]; intros Hidxs; [done |]. simpl.
  destruct (Hidxs i) as (r & -> & ->); [left |].
  apply IH. intros i' Hi'. apply Hidxs. by right.
Qed.

Lemma untrack_range_app (name : string) (spec : list RawExtension)
    (obj : Unstructured) (idxs rest : list nat)
    (backing : list ResourceStatus) (len : nat) :
  (∀ i, i ∈ idxs → ∃ r, backing !! i = Some r ∧ sameResource r obj = false) →
  untrack_range name spec obj (idxs ++ rest) backing len
  = untrack_range name spec obj rest backing len.
Proof.
  induction idxs as [|i idxs IH]; intros Hidxs; [done |]. simpl.
  destruct (Hidxs i) as (r & -> & ->); [left |].
  apply IH. intros i' Hi'. apply Hidxs. by right.
Qed.

Lemma removeAt_middle (pre post : list ResourceStatus) (e : ResourceStatus) :
  removeAt (pre ++ e :: post) (length (pre ++ e :: post)) (length pre)
  = pre ++ post ++ drop (length post) (e :: post).
Proof.
  unfold removeAt.
  assert (Hdrop : drop (S (length pre)) (pre ++ e :: post) = post).
  { rewrite (cons_middle e pre post), app_assoc.
    apply drop_app_length'. rewrite length_app. cbn. lia. }
  rewrite Hdrop, length_app. cbn [length].
  rewrite take_app_length.
  replace (length pre + S (length post) - S (length pre))%nat
    with (length post) by lia.
  replace (length pre + S (length post) - 1)%nat
    with (length pre + length post)%nat by lia.
  by rewrite drop_app_add, firstn_all.
Qed.

Lemma removeAt_middle_tail (pre post : list ResourceStatus) (e : ResourceStatus)
    (i : nat) :
  i ∈ seq (S (length pre)) (length post) →
  ∃ r, (pre ++ post ++ drop (length post) (e :: post)) !! i = Some r ∧ r ∈ post.
Proof.
  intros [Hlo Hhi]%elem_of_seq.
  rewrite lookup_app_r by lia.
  destruct (decide (i - length pre < length post)%nat) as [Hk|Hk].
  - destruct (lookup_lt_is_Some_2 post (i - length pre)) as [r Hr]; [done |].
    exists r. split; [by apply lookup_app_l_Some | by eapply list_elem_of_lookup_2].
  - rewrite lookup_app_r by lia. rewrite lookup_drop.
    replace (length post + (i - length pre - length post))%nat
      with (S (length post - 1)) by lia.
    cbn [lookup list_lookup].
    destruct (lookup_lt_is_Some_2 post (length post - 1)) as [r Hr]; [lia |].
    exists r. split; [done | by eapply list_elem_of_lookup_2].
Qed.

Lemma sameResource_declared (ns : string) (spec : list RawExtension)
    (e r : ResourceStatus) :
  entryDeclared ns spec r → ¬ entryDeclared ns spec e →
  sameResource r (entryObject ns e) = false.
Proof.
  intros Hr He. apply not_true_is_false. intros Hsame.
  apply sameResource_entryObject in Hsame as ->. done.
Qed.

Lemma handleResourcesDeletion_lone (namespace : Namespace) (nc : NamespaceClass)
    (st : Cluster) (pre post : list ResourceStatus) (e : ResourceStatus)
    (body : string) (sp : list RawExtension) (old : list ResourceStatus) :
  StatusResources nc = pre ++ e :: post →
  Forall (entryDeclared (nsName namespace) (SpecResources nc)) pre →
  Forall (entryDeclared (nsName namespace) (SpecResources nc)) post →
  ¬ entryDeclared (nsName namespace) (SpecResources nc) e →
  objects st !! keyOf (entryObject (nsName namespace) e) = Some body →
  classes st !! ncName nc = Some (sp, old) →
  hd false (faults st) = false → hd false (tail (faults st)) = false →
  let nc' := mkNamespaceClass (ncName nc) (SpecResources nc) (pre ++ post) in
  handleResourcesDeletion namespace nc st
  = (Ok nc',
     setClasses <[ncName nc := (sp, pre ++ post)]>
       (record (CallStatusUpdate nc')
          (setObjects (delete (keyOf (entryObject (nsName namespace) e)))
             (record (CallDelete (entryObject (nsName namespace) e)) st)))).
Proof.
  intros Hledger Hpre Hpost He Hlive Hclass Hf1 Hf2 nc'. subst nc'.
  assert (Hskip : ∀ r, r ∈ pre ∨ r ∈ post →
            entryDeclared (nsName namespace) (SpecResources nc) r
            ∧ sameResource r (entryObject (nsName namespace) e) = false).
  { intros r Hr.
    assert (Hd : entryDeclared (nsName namespace) (SpecResources nc) r).
    { rewrite Forall_forall in Hpre, Hpost. destruct Hr; auto. }
    split; [done | by eapply sameResource_declared]. }
  assert (Hfront : ∀ j, j ∈ seq 0 (length pre) →
            ∃ r, (pre ++ e :: post) !! j = Some r ∧ r ∈ pre).
  { intros j [_ Hj]%elem_of_seq.
    destruct (lookup_lt_is_Some_2 pre j) as [r Hr]; [lia |].
    exists r. split; [by apply lookup_app_l_Some | by eapply list_elem_of_lookup_2]. }
  assert (Hseq : seq 0 (length (pre ++ e :: post))
                 = seq 0 (length pre) ++ length pre :: seq (S (length pre)) (length post)).
  { rewrite length_app. cbn [length].
    replace (length pre + S (length post))%nat
      with (length pre + (1 + length post))%nat by lia.
    rewrite seq_app, seq_app. cbn [seq app Nat.add].
    by replace (length pre + 1)%nat with (S (length pre)) by lia. }
  assert (Hsame : sameResource e (entryObject (nsName namespace) e) = true)
    by (by apply sameResource_entryObject).
  pose proof He as He'. apply not_true_is_false in He'.
  unfold entryDeclared in He'.
  unfold handleResourcesDeletion. rewrite Hledger, Hseq.
  rewrite bind_run, handleResourcesDeletion_range_skip.
  2:{ intros j Hj. destruct (Hfront j Hj) as (r & Hr & Hin).
      exists r. split; [done |]. apply Hskip. by left. }
  cbn [handleResourcesDeletion_range]. rewrite list_lookup_middle by done.
  fold (entryObject (nsName namespace) e).
  rewrite He'. cbn [negb].
  rewrite bind_run, Delete_run, Hf1, Hlive.
  set (s1 := setObjects _ (record _ st)).
  rewrite bind_run, Hseq, untrack_range_app.
  2:{ intros j Hj. destruct (Hfront j Hj) as (r & Hr & Hin).
      exists r. split; [done |]. apply Hskip. by left. }
  cbn [untrack_range]. rewrite list_lookup_middle by done.
  rewrite Hsame. rewrite bool_decide_true by (rewrite length_app; cbn; lia).
  rewrite removeAt_middle.
  replace (length (pre ++ e :: post) - 1)%nat
    with (length (pre ++ post)) by (rewrite !length_app; cbn; lia).
  rewrite (app_assoc pre post), take_app_length, <- (app_assoc pre post).
  rewrite bind_run, StatusUpdate_run.
  change (faults s1) with (tail (faults st)). rewrite Hf2. cbn [ncName StatusResources].
  change (classes s1) with (classes st). rewrite Hclass.
  set (s2 := setClasses _ (record _ s1)).
  rewrite untrack_range_skip.
  2:{ intros j Hj. destruct (removeAt_middle_tail pre post e j Hj) as (r & Hr & Hin).
      exists r. split; [done |]. apply Hskip. by right. }
  unfold mret, M_ret. cbn beta iota.
  rewrite handleResourcesDeletion_range_declared.
  2:{ intros j Hj. destruct (removeAt_middle_tail pre post e j Hj) as (r & Hr & Hin).
      exists r. split; [done |]. apply Hskip. by right. }
  unfold mret, M_ret. cbn beta iota.
  rewrite (app_assoc pre post), take_app_length. done.
Qed.

(** X14.  A lone orphan is pruned.  The class in hand carries the stored
    spec (as a class fetched in the pass does).  When exactly one ledger
    entry has a group-version-kind the class does not declare, its object is
    live and no call fails, the orphan sweep deletes that object, drops that
    entry and nothing else from the ledger, stores the ledger so shortened,
    and issues no other call. *)
Theorem handleResourcesDeletion_lone_orphan (namespace : Namespace)
    (nc : NamespaceClass) (st : Cluster) (pre post : list ResourceStatus)
    (e : ResourceStatus) (body : string) (old : list ResourceStatus) :
  classes st !! ncName nc = Some (SpecResources nc, old) →
  StatusResources nc = pre ++ e :: post →
  Forall (entryDeclared (nsName namespace) (SpecResources nc)) pre →
  Forall (entryDeclared (nsName namespace) (SpecResources nc)) post →
  ¬ entryDeclared (nsName namespace) (SpecResources nc) e →
  objects st !! keyOf (entryObject (nsName namespace) e) = Some body →
  noFaults st →
  let st' := (handleResourcesDeletion namespace nc st).2 in
  let nc' := mkNamespaceClass (ncName nc) (SpecResources nc) (pre ++ post) in
  (handleResourcesDeletion namespace nc st).1 = Ok nc'
  ∧ objects st' = delete (keyOf (entryObject (nsName namespace) e)) (objects st)
  ∧ classes st' = <[ncName nc := (SpecResources nc, pre ++ post)]> (classes st)
  ∧ namespaces st' = namespaces st
  ∧ newCalls (handleResourcesDeletion namespace nc) st
    = [CallDelete (entryObject (nsName namespace) e); CallStatusUpdate nc'].
Proof.
  intros Hclass Hledger Hpre Hpost He Hlive Hq st' nc'. subst st' nc'.
  unfold newCalls.
  rewrite (handleResourcesDeletion_lone namespace nc st pre post e body
             (SpecResources nc) old); try done.
  - cbn [fst snd]. repeat split; try done. cbn.
    rewrite <- app_assoc. by rewrite drop_app_length.
  - by apply noFaults_hd.
  - apply (noFaults_hd (record (CallDelete (entryObject (nsName namespace) e)) st)).
    by apply noFaults_record.
Qed.

Lemma handleResourcesDeletion_lone_orphan_witness :
  (handleResourcesDeletion devFirstTime
     (mkNamespaceClass "web" [RawObject (configMap "settings" "replicas=3")]
        [statusOf (configMap "settings" ""); statusOf (secret "token" "")])
     shrunkClassCluster).1
  = Ok (mkNamespaceClass "web" [RawObject (configMap "settings" "replicas=3")]
          [statusOf (configMap "settings" "")]).
Proof.
  apply (handleResourcesDeletion_lone_orphan devFirstTime
           (mkNamespaceClass "web" [RawObject (configMap "settings" "replicas=3")]
              [statusOf (configMap "settings" ""); statusOf (secret "token" "")])
           shrunkClassCluster [statusOf (configMap "settings" "")] []
           (statusOf (secret "token" "")) "s3cr3t" shrunkLedger).
  - reflexivity.
  - reflexivity.
  - constructor; [reflexivity | constructor].
  - constructor.
  - intros H. change (false = true) in H. discriminate H.
  - reflexivity.
  - constructor.
Defined.

(** * Claims C1, C2 and C9, as amended *)

(** ** The calls of the primitives *)

Lemma api_issues (P : Call → Prop) {A} (c : Call) (op : M A) :
  P c → (∀ st, calls (op st).2 = calls st) → preserves (issues P) (api c op).
Proof.
  intros Hc Hop. apply preserves_api; [apply _ | |].
  - intros st. by apply issues_record.
  - intros st. by apply issues_silent.
Qed.

Lemma Get_issues (P : Call → Prop) (obj : Unstructured) :
  P (CallGet (keyOf obj)) → preserves (issues P) (Get obj).
Proof.
  intros Hc. apply api_issues; [done |]. intros st.
  by destruct (objects st !! keyOf obj).
Qed.

Lemma Create_issues (P : Call → Prop) (obj : Unstructured) :
  P (CallCreate obj) → preserves (issues P) (Create obj).
Proof.
  intros Hc. apply api_issues; [done |]. intros st.
  by destruct (objects st !! keyOf obj).
Qed.

Lemma Update_issues (P : Call → Prop) (obj : Unstructured) :
  P (CallUpdate obj) → preserves (issues P) (Update obj).
Proof.
  intros Hc. apply api_issues; [done |]. intros st.
  by destruct (objects st !! keyOf obj).
Qed.


Lemma StatusUpdate_issues (P : Call → Prop) (nc : NamespaceClass) :
  P (CallStatusUpdate nc) → preserves (issues P) (StatusUpdate nc).
Proof.
  intros Hc. apply api_issues; [done |]. intros st.
  by destruct (classes st !! ncName nc) as [[spec ledger]|].
Qed.

Lemma createOrUpdate_issues (P : Call → Prop) (obj : Unstructured) :
  P (CallGet (keyOf obj)) → P (CallCreate obj) →
  (∀ body, P (CallUpdate (withBody obj body))) →
  preserves (issues P) (createOrUpdate obj).
Proof.
  intros Hget Hcre Hupd st. unfold createOrUpdate.
  rewrite bind_run, attempt_run, Get_run.
  assert (H1 : issues P st (record (CallGet (keyOf obj)) st))
    by (by apply issues_record).
  destruct (hd false (faults st)); cbn [fst snd IsNotFound]; [done |].
  destruct (objects st !! keyOf obj) as [body|]; cbn [fst snd IsNotFound];
    (etrans; [exact H1 |]).
  - apply (preserves_bind (issues P)); [by apply Update_issues |].
    intros _. apply preserves_ret; apply _.
  - apply (preserves_bind (issues P)); [by apply Create_issues |].
    intros _. apply preserves_ret; apply _.
Qed.

Lemma trackResource_issues (P : Call → Prop) (obj : Unstructured)
    (nc : NamespaceClass) :
  (∀ nc', ncName nc' = ncName nc → P (CallStatusUpdate nc')) →
  preserves (issues P) (trackResource obj nc).
Proof.
  intros Hc. unfold trackResource. destruct (negb _); [| apply preserves_ret; apply _].
  apply preserves_bind; [apply _ | | intros; apply preserves_ret; apply _].
  by apply StatusUpdate_issues, Hc.
Qed.

(** ** A namespace whose class does not exist: the class-change sweep *)

Lemma difference_delete_insert (m D : gmap ObjectKey string) (k : ObjectKey)
    (b : string) :
  delete k m ∖ D = m ∖ <[k := b]> D.
Proof.
  apply map_eq. intros i. rewrite !lookup_difference.
  destruct (decide (i = k)) as [->|Hne].
  - rewrite lookup_insert_eq, lookup_delete_eq. by destruct (D !! k).
  - by rewrite lookup_insert_ne, lookup_delete_ne.
Qed.

Lemma handleNamespaceClassChange_range_app (namespace : Namespace)
    (l1 l2 : list RawExtension) (nc : NamespaceClass) (st : Cluster) :
  handleNamespaceClassChange_range namespace (l1 ++ l2) nc st
  = match handleNamespaceClassChange_range namespace l1 nc st with
    | (Ok _, s) => handleNamespaceClassChange_range namespace l2 nc s
    | (Err e, s) => (Err e, s)
    end.
Proof.
  revert st. induction l1 as [|resource l1 IH]; intros st; [done |].
  cbn [app handleNamespaceClassChange_range]. rewrite !bind_run.
  destruct (lift (UnmarshalJSON resource) st) as [[obj|e] s0]; [| done].
  rewrite !bind_run.
  destruct (attempt (Get (SetNamespace obj (nsName namespace))) s0)
    as [[[live|e]|e] s1]; [| | done].
  - rewrite !bind_run.
    destruct ((if negb (resourceExistsInNamespaceClass live nc) then Delete live
               else mret ()) s1) as [[[]|e] s2]; [apply IH | done].
  - destruct (IsNotFound e); [apply IH | done].
Qed.

(** Against a class that declares nothing, the sweep deletes every live
    object the old manifests address in the namespace. *)
Lemma handleNamespaceClassChange_range_clears (namespace : Namespace)
    (docs : list Unstructured) (nc : NamespaceClass) (st : Cluster) :
  SpecResources nc = [] → noFaults st →
  ∃ st', handleNamespaceClassChange_range namespace (RawObject <$> docs) nc st
         = (Ok (), st')
         ∧ objects st' = objects st ∖ declaredObjects (nsName namespace) docs
         ∧ namespaces st' = namespaces st ∧ classes st' = classes st
         ∧ noFaults st'.
Proof.
  intros Hspec. revert st. induction docs as [|doc docs IH]; intros st Hq.
  - exists st. split; [done |]. split; [| done].
    unfold declaredObjects. cbn. by rewrite map_difference_empty.
  - cbn [fmap list_fmap handleNamespaceClassChange_range UnmarshalJSON].
    change (lift (Ok doc) ≫= ?f) with (f doc). cbn beta.
    set (o := SetNamespace doc (nsName namespace)).
    rewrite bind_run, attempt_run, Get_run, (noFaults_hd _ Hq).
    set (s1 := record (CallGet (keyOf o)) st).
    assert (Hq1 : noFaults s1) by (by apply noFaults_record).
    change (declaredObjects (nsName namespace) (doc :: docs))
      with (<[keyOf o := objBody doc]> (declaredObjects (nsName namespace) docs)).
    destruct (objects st !! keyOf o) as [body|] eqn:Hlive; cbn [fst snd IsNotFound].
    + rewrite bind_run. unfold resourceExistsInNamespaceClass. rewrite Hspec.
      cbn [resourceExistsInSpec negb].
      rewrite Delete_run, (noFaults_hd _ Hq1).
      change (objects s1 !! keyOf (withBody o body)) with (objects st !! keyOf o).
      rewrite Hlive.
      set (s2 := setObjects _ (record _ s1)).
      destruct (IH s2) as (st' & Hrun & Hobj & Hns & Hcls & Hq');
        [by apply noFaults_record |].
      exists st'. split; [exact Hrun |]. split; [| done].
      rewrite Hobj. apply difference_delete_insert.
    + destruct (IH s1 Hq1) as (st' & Hrun & Hobj & Hns & Hcls & Hq').
      exists st'. split; [exact Hrun |]. split; [| done].
      rewrite Hobj. change (objects s1) with (objects st).
      rewrite <- (difference_delete_insert _ _ (keyOf o) (objBody doc)).
      by rewrite delete_id.
Qed.

Lemma fetchNamespaceClass_quiet (label : string) (st : Cluster) :
  noFaults st →
  ∃ name ledger,
    fetchNamespaceClass label zeroNamespaceClass st
    = (Ok (mkNamespaceClass name (default [] (fst <$> classes st !! label)) ledger),
       record (CallGetNamespaceClass label) st).
Proof.
  intros Hq. destruct (classes st !! label) as [[spec ledger]|] eqn:Hc.
  - rewrite (fetchNamespaceClass_found _ _ _ _ _ Hc), (noFaults_hd _ Hq). by eauto.
  - rewrite (fetchNamespaceClass_absent _ _ _ Hc), (noFaults_hd _ Hq).
    by exists "", [].
Qed.

Lemma handleNamespaceClassChange_zero (namespace : Namespace) (lastName : string)
    (st : Cluster) (docs : list Unstructured) (rest : list RawExtension) :
  noFaults st →
  default [] (fst <$> classes st !! lastName) = (RawObject <$> docs) ++ rest →
  match rest with [] => True | bad :: _ => isOk (UnmarshalJSON bad) = false end →
  ∃ st', handleNamespaceClassChange namespace lastName zeroNamespaceClass st
         = (match rest with [] => Ok () | _ :: _ => Err ErrDecode end, st')
         ∧ objects st' = objects st ∖ declaredObjects (nsName namespace) docs
         ∧ namespaces st' = namespaces st ∧ classes st' = classes st
         ∧ noFaults st'.
Proof.
  intros Hq Hold Hrest. unfold handleNamespaceClassChange. rewrite bind_run.
  destruct (fetchNamespaceClass_quiet lastName st Hq) as (name & ledger & ->).
  cbn [SpecResources]. rewrite Hold, handleNamespaceClassChange_range_app.
  destruct (handleNamespaceClassChange_range_clears namespace docs zeroNamespaceClass
              (record (CallGetNamespaceClass lastName) st))
    as (s1 & -> & Hobj & Hns & Hcls & Hq1); [done | by apply noFaults_record |].
  exists s1. split; [| done].
  destruct rest as [|bad post]; [done |].
  cbn [handleNamespaceClassChange_range]. rewrite bind_run.
  by rewrite (UnmarshalJSON_Err _ Hrest).
Qed.

(** Claim C1, as amended.  When the class label of a namespace names a
    NamespaceClass that is not in the store, the pass issues no create, no
    resource update and no status update, and it does not end early: once the
    two gets have gone through, it is the annotation stage run with the
    empty, unnamed class.  When no call fails, that stage does the following.
    With the last-name annotation absent or empty, one namespace update
    records the empty name as last-name; objects and classes are as before
    and there is no error.  With the annotation naming a class, the
    class-change sweep runs against a class that declares nothing: if that
    old class is absent or all its manifests decode, every live object its
    manifests address in the namespace is deleted, nothing else is, the
    empty name is recorded as last-name and there is no error; if one of its
    manifests does not decode, the objects of the manifests before it are
    deleted, the decode error is returned and the namespace is not
    updated. *)
Theorem absent_class_pass (req label : string) (st : Cluster)
    (ls an : gmap string string) :
  namespaces st !! req = Some (ls, an) →
  ls !! classLabel = Some label →
  classes st !! label = None →
  let st' := (Reconcile req st).2 in
  let cleared := <[req := (ls, <[lastNameAnnotation := ""]> an)]> (namespaces st) in
  (∃ new, calls st' = calls st ++ new ∧ Forall noConvergeCall new)
  ∧ (hd false (faults st) = false → hd false (tail (faults st)) = false →
     Reconcile req st
     = handleNamespaceAnnotations (mkNamespace req ls an) zeroNamespaceClass
         (record (CallGetNamespaceClass label) (record (CallGetNamespace req) st)))
  ∧ (faults st = [] →
     an !! lastNameAnnotation = None ∨ an !! lastNameAnnotation = Some "" →
     Reconcile req st =
     (Ok (),
      mkCluster cleared (classes st) (objects st)
                (calls st ++ [CallGetNamespace req; CallGetNamespaceClass label;
                              CallUpdateNamespace
                                (mkNamespace req ls (<[lastNameAnnotation := ""]> an))])
                []))
  ∧ (noFaults st →
     ∀ lastName docs, an !! lastNameAnnotation = Some lastName → lastName ≠ "" →
       default [] (fst <$> classes st !! lastName) = RawObject <$> docs →
       (Reconcile req st).1 = Ok ()
       ∧ objects st' = objects st ∖ declaredObjects req docs
       ∧ classes st' = classes st ∧ namespaces st' = cleared)
  ∧ (noFaults st →
     ∀ lastName docs bad post,
       an !! lastNameAnnotation = Some lastName → lastName ≠ "" →
       default [] (fst <$> classes st !! lastName) = (RawObject <$> docs) ++ bad :: post →
       isOk (UnmarshalJSON bad) = false →
       (Reconcile req st).1 = Err ErrDecode
       ∧ objects st' = objects st ∖ declaredObjects req docs
       ∧ classes st' = classes st ∧ namespaces st' = namespaces st).
Proof.
  intros Hns Hlabel Habsent st' cleared. subst st' cleared.
  pose proof (Reconcile_absent_run _ _ _ _ _ Hns Hlabel Habsent) as Hrun.
  cbn zeta in Hrun.
  set (s1 := record (CallGetNamespace req) st) in *.
  set (s2 := record (CallGetNamespaceClass label) s1) in *.
  assert (Hquiet : noFaults st →
            Reconcile req st
            = handleNamespaceAnnotations (mkNamespace req ls an) zeroNamespaceClass s2
            ∧ noFaults s2).
  { intros Hq. assert (Hq1 : noFaults s1) by (by apply noFaults_record).
    rewrite Hrun, (noFaults_hd _ Hq), (noFaults_hd _ Hq1).
    split; [done | by apply noFaults_record]. }
  assert (Hstage : ∀ lastName docs rest,
            noFaults st → an !! lastNameAnnotation = Some lastName → lastName ≠ "" →
            default [] (fst <$> classes st !! lastName) = (RawObject <$> docs) ++ rest →
            match rest with
            | [] => True
            | bad :: _ => isOk (UnmarshalJSON bad) = false
            end →
            (Reconcile req st).1
            = match rest with [] => Ok () | _ :: _ => Err ErrDecode end
            ∧ objects (Reconcile req st).2 = objects st ∖ declaredObjects req docs
            ∧ classes (Reconcile req st).2 = classes st
            ∧ namespaces (Reconcile req st).2
              = match rest with
                | [] => <[req := (ls, <[lastNameAnnotation := ""]> an)]> (namespaces st)
                | _ :: _ => namespaces st
                end).
  { intros lastName docs rest Hq Han Hne Hold Hrest.
    destruct (Hquiet Hq) as [E Hq2].
    assert (Hgoal : ∃ stf,
              Reconcile req st
              = (match rest with [] => Ok () | _ :: _ => Err ErrDecode end, stf)
              ∧ objects stf = objects st ∖ declaredObjects req docs
              ∧ classes stf = classes st
              ∧ namespaces stf
                = match rest with
                  | [] => <[req := (ls, <[lastNameAnnotation := ""]> an)]>
                            (namespaces st)
                  | _ :: _ => namespaces st
                  end).
    { rewrite E. unfold handleNamespaceAnnotations, detectClassChange.
      cbn [Annotations ncName zeroNamespaceClass]. rewrite Han.
      rewrite bool_decide_true by done. rewrite !bind_run.
      destruct (handleNamespaceClassChange_zero
                  (setLastName (mkNamespace req ls an) "") lastName s2 docs rest)
        as (s3 & -> & Hobj & Hnss & Hcls & Hq3); [done | done | done |].
      cbn [nsName setLastName] in Hobj.
      destruct rest as [|bad post]; [| by exists s3].
      unfold mret at 1, M_ret at 1. cbn beta iota.
      rewrite bind_run, UpdateNamespace_run, (noFaults_hd _ Hq3).
      cbn [nsName setLastName Labels Annotations].
      rewrite Hnss. change (namespaces s2) with (namespaces st). rewrite Hns.
      rewrite bind_run. unfold zeroNamespaceClass.
      rewrite handleResourcesDeletion_empty.
      eexists. split; [reflexivity |]. cbn. by rewrite Hnss. }
    destruct Hgoal as (stf & -> & H). cbn [fst snd]. by split. }
  split; [| split; [| split; [| split]]].
  - change (issues noConvergeCall st (Reconcile req st).2). rewrite Hrun.
    assert (H1 : issues noConvergeCall st s1) by (by apply issues_record).
    assert (H2 : issues noConvergeCall s1 s2) by (by apply issues_record).
    destruct (hd false (faults st)); [done |].
    destruct (hd false (faults s1)); [by etrans |].
    etrans; [exact H1 |]. etrans; [exact H2 |].
    apply handleNamespaceAnnotations_zero_issues.
  - intros Hf1 Hf2. rewrite Hrun, Hf1.
    change (hd false (faults s1)) with (hd false (tail (faults st))). by rewrite Hf2.
  - intros Hfaults Han.
    assert (Hupd : ∀ an', an' = <[lastNameAnnotation := ""]> an →
              (UpdateNamespace (mkNamespace req ls an') ≫=
                 λ _, handleResourcesDeletion (mkNamespace req ls an')
                        zeroNamespaceClass ≫= λ _, mret ()) s2
              = (Ok (),
                 mkCluster (<[req := (ls, an')]> (namespaces st)) (classes st)
                   (objects st)
                   (calls st ++ [CallGetNamespace req; CallGetNamespaceClass label;
                                 CallUpdateNamespace (mkNamespace req ls an')]) [])).
    { intros an' _. rewrite bind_run, UpdateNamespace_run.
      change (hd false (faults s2)) with (hd false (tail (tail (faults st)))).
      rewrite Hfaults. cbn [tail hd nsName].
      change (namespaces s2) with (namespaces st). rewrite Hns.
      rewrite bind_run. unfold zeroNamespaceClass.
      rewrite handleResourcesDeletion_empty.
      unfold mret, M_ret, setNamespaces, s2, s1, record. cbn.
      rewrite Hfaults. by rewrite <- !app_assoc. }
    rewrite Hrun, Hfaults. cbn [hd]. unfold s1 at 1. cbn [faults record tail hd].
    rewrite Hfaults. cbn [tail hd].
    unfold handleNamespaceAnnotations, detectClassChange.
    cbn [Annotations ncName zeroNamespaceClass].
    rewrite bind_run.
    destruct Han as [Han|Han]; rewrite Han.
    + cbn [mret M_ret]. apply Hupd. done.
    + rewrite bool_decide_false by (intros H; by apply H).
      cbn [mret M_ret]. rewrite (insert_id an lastNameAnnotation "" Han).
      apply Hupd. by rewrite insert_id.
  - intros Hq lastName docs Han Hne Hold.
    apply (Hstage lastName docs [] Hq Han Hne); [by rewrite app_nil_r | done].
  - intros Hq lastName docs bad post Han Hne Hold Hbad.
    by apply (Hstage lastName docs (bad :: post) Hq Han Hne).
Qed.

(** Claim C1 as stated, refuted three times over.  With the class absent the
    pass still updates the namespace; when the last-name annotation names
    another class it deletes the live objects of that class; and when that
    class has a manifest that does not decode it returns an error. *)
Lemma absent_class_mutates :
  (namespaces absentClassCluster !! "dev" = Some ({[ classLabel := "ghost" ]}, ∅)
   ∧ classes absentClassCluster !! "ghost" = None
   ∧ List.filter isMutation (calls (Reconcile "dev" absentClassCluster).2)
     = [CallUpdateNamespace
          (mkNamespace "dev" {[ classLabel := "ghost" ]} {[ lastNameAnnotation := "" ]})]
   ∧ ¬ zeroMutations "dev" absentClassCluster)
  ∧ (classes ghostAfterInternalCluster !! "ghost" = None
     ∧ (Reconcile "dev" ghostAfterInternalCluster).1 = Ok ()
     ∧ List.filter isDelete (calls (Reconcile "dev" ghostAfterInternalCluster).2)
       = [CallDelete (SetNamespace (secret "token" "s3cr3t") "dev");
          CallDelete (SetNamespace (configMap "settings" "internal") "dev")]
     ∧ objects (Reconcile "dev" ghostAfterInternalCluster).2 = ∅
     ∧ ¬ zeroMutations "dev" ghostAfterInternalCluster)
  ∧ (classes ghostAfterLegacyCluster !! "ghost" = None
     ∧ (Reconcile "dev" ghostAfterLegacyCluster).1 = Err ErrDecode
     ∧ ¬ zeroMutations "dev" ghostAfterLegacyCluster).
Proof.
  split; [| split].
  - split; [reflexivity |]. split; [reflexivity |]. split; [reflexivity |].
    intros [_ H]. change (false = true) in H. discriminate H.
  - split; [reflexivity |]. split; [reflexivity |]. split; [reflexivity |].
    split; [reflexivity |].
    intros [_ H]. change (false = true) in H. discriminate H.
  - split; [reflexivity |]. split; [reflexivity |].
    intros [H _]. change (Err ErrDecode = Ok ()) in H. discriminate H.
Qed.

(** The amended C1 on [absentClassCluster], where the annotation is absent,
    and on [ghostAfterInternalCluster], where it names class [internal]. *)
Lemma absent_class_pass_witness :
  Reconcile "dev" absentClassCluster =
  (Ok (),
   mkCluster {[ "dev" := ({[ classLabel := "ghost" ]}, {[ lastNameAnnotation := "" ]}) ]}
             ∅ ∅
             [CallGetNamespace "dev"; CallGetNamespaceClass "ghost";
              CallUpdateNamespace
                (mkNamespace "dev" {[ classLabel := "ghost" ]}
                             {[ lastNameAnnotation := "" ]})] [])
  ∧ objects (Reconcile "dev" ghostAfterInternalCluster).2
    = objects ghostAfterInternalCluster
      ∖ declaredObjects "dev" [secret "token" "s3cr3t";
                                configMap "settings" "internal"].
Proof.
  split.
  - destruct (absent_class_pass "dev" "ghost" absentClassCluster
                {[ classLabel := "ghost" ]} ∅) as (_ & _ & H & _);
      [reflexivity | reflexivity | reflexivity |].
    exact (H eq_refl (or_introl eq_refl)).
  - destruct (absent_class_pass "dev" "ghost" ghostAfterInternalCluster
                {[ classLabel := "ghost" ]} {[ lastNameAnnotation := "internal" ]})
      as (_ & _ & _ & H & _);
      [reflexivity | reflexivity | reflexivity |].
    destruct (H (List.Forall_nil _) "internal"
                [secret "token" "s3cr3t"; configMap "settings" "internal"])
      as (_ & Hobj & _); [reflexivity | discriminate | reflexivity |].
    exact Hobj.
Defined.

(** ** A class with an undecodable manifest: what is applied *)

Lemma handleResources_range_applies (namespace : Namespace)
    (docs0 docs : list Unstructured) (nc : NamespaceClass) :
  (∀ d, d ∈ docs → d ∈ docs0) →
  preserves (issues (appliesOnly (nsName namespace) (ncName nc) docs0))
            (handleResources_range namespace (RawObject <$> docs) nc).
Proof.
  revert nc. induction docs as [|doc docs IH]; intros nc Hsub.
  - apply preserves_ret; apply _.
  - cbn [fmap list_fmap handleResources_range UnmarshalJSON].
    change (lift (Ok doc) ≫= ?f) with (f doc). cbn beta.
    assert (Hdoc : ∃ d, d ∈ docs0
                     ∧ keyOf (SetNamespace doc (nsName namespace))
                       = keyOf (SetNamespace d (nsName namespace))).
    { exists doc. split; [apply Hsub; left | done]. }
    apply preserves_bind; [apply _ | |].
    { apply createOrUpdate_issues; [done | done |]. intros body. by split. }
    intros obj' st. rewrite bind_run.
    pose proof (trackResource_issues
                  (appliesOnly (nsName namespace) (ncName nc) docs0) obj' nc) as Ht.
    specialize (Ht (λ nc' Hn, conj Hn I) st).
    destruct (trackResource obj' nc st) as [[nc'|e] st1] eqn:Htrack;
      cbn [fst snd] in *; [| done].
    apply trackResource_name in Htrack as [Hname _].
    etrans; [exact Ht |]. rewrite <- Hname. apply IH.
    intros d Hd. apply Hsub. by right.
Qed.

Lemma createOrUpdate_Err (obj : Unstructured) (e : error) (st st' : Cluster) :
  createOrUpdate obj st = (Err e, st') → objects st' = objects st.
Proof.
  unfold createOrUpdate. rewrite bind_run, attempt_run, Get_run.
  destruct (hd false (faults st)); cbn [fst snd IsNotFound];
    [by intros H; inversion H |].
  destruct (objects st !! keyOf obj) as [body|] eqn:Hlive; cbn [fst snd IsNotFound];
    rewrite bind_run; [rewrite Update_run | rewrite Create_run];
    (destruct (hd false _); [by intros H; inversion H |]);
    change (objects (record _ ?s) !! keyOf _) with (objects s !! keyOf obj);
    rewrite Hlive; by intros H; inversion H.
Qed.

Lemma trackResource_objects (obj : Unstructured) (nc : NamespaceClass)
    (st : Cluster) :
  objects (trackResource obj nc st).2 = objects st.
Proof.
  unfold trackResource. destruct (negb _); [| done].
  rewrite bind_run, StatusUpdate_run.
  destruct (hd false (faults st)); [done |]. cbn [ncName].
  by destruct (classes _ !! _) as [[spec ledger]|].
Qed.

(** Whatever its outcome, the loop has applied a prefix of its manifests,
    and all of them if it returns without error. *)
Lemma handleResources_range_applied (namespace : Namespace)
    (docs : list Unstructured) (nc : NamespaceClass) (st : Cluster) :
  ∃ n, (n ≤ length docs)%nat
       ∧ objects (handleResources_range namespace (RawObject <$> docs) nc st).2
         = objects st ∪ declaredObjects (nsName namespace) (take n docs)
       ∧ (isOk (handleResources_range namespace (RawObject <$> docs) nc st).1 = true
          → n = length docs).
Proof.
  revert nc st. induction docs as [|doc docs IH]; intros nc st.
  - exists 0%nat. split; [done |]. split; [| done].
    unfold declaredObjects. cbn. by rewrite (right_id ∅ (∪)).
  - cbn [fmap list_fmap handleResources_range UnmarshalJSON].
    change (lift (Ok doc) ≫= ?f) with (f doc). cbn beta.
    rewrite bind_run.
    destruct (createOrUpdate (SetNamespace doc (nsName namespace)) st)
      as [[obj'|e] s1] eqn:Hcou.
    2:{ exists 0%nat. split; [cbn; lia |]. split; [| done].
        apply createOrUpdate_Err in Hcou. cbn [snd take]. unfold declaredObjects.
        cbn. by rewrite (right_id ∅ (∪)). }
    apply createOrUpdate_objects in Hcou.
    rewrite bind_run.
    pose proof (trackResource_objects obj' nc s1) as Htr.
    destruct (trackResource obj' nc s1) as [[nc1|e] s2]; cbn [snd] in Htr.
    2:{ exists 1%nat. split; [cbn; lia |]. split; [| done].
        cbn [snd take]. rewrite Htr, Hcou. unfold declaredObjects. cbn.
        by rewrite insert_empty. }
    destruct (IH nc1 s2) as (n & Hn & Hobj & Hok).
    exists (S n). split; [cbn; lia |]. split; [| intros H; cbn; f_equal; by apply Hok].
    rewrite Hobj, Htr, Hcou. cbn [take]. unfold declaredObjects.
    cbn [fmap list_fmap list_to_map foldr].
    rewrite <- (assoc_L (∪)). f_equal. by rewrite insert_union_singleton_l.
Qed.

(** Claim C2, as amended.  When the class of a namespace holds a manifest
    [bad] that does not decode, and the manifests [docs] before it decode,
    the pass always returns an error.  After the two gets it issues calls of
    the convergence stage only, and of these every create and every update
    goes to the address of one of [docs]: nothing at or after [bad] is
    created or updated and the annotation stage is not reached, so no
    namespace is updated and nothing is deleted.  The objects it leaves are
    the old ones and, at the addresses that were free, those declared by a
    prefix of [docs].  When no call fails that prefix is all of [docs],
    every one of them is in the stored ledger, and the error is the decode
    error: the outcome for a class declaring [docs] only, but for the
    error. *)
Theorem malformed_manifest_aborts (req label : string) (st : Cluster)
    (ls an : gmap string string) (docs : list Unstructured)
    (post : list RawExtension) (bad : RawExtension) (status : list ResourceStatus) :
  namespaces st !! req = Some (ls, an) →
  ls !! classLabel = Some label →
  classes st !! label = Some ((RawObject <$> docs) ++ bad :: post, status) →
  isOk (UnmarshalJSON bad) = false →
  let st' := (Reconcile req st).2 in
  let new := newCalls (Reconcile req) st in
  isOk (Reconcile req st).1 = false
  ∧ (∃ conv, (new = [CallGetNamespace req]
              ∨ new = [CallGetNamespace req; CallGetNamespaceClass label] ++ conv)
             ∧ Forall (appliesOnly req label docs) conv)
  ∧ (∃ n, (n ≤ length docs)%nat
          ∧ objects st' = objects st ∪ declaredObjects req (take n docs))
  ∧ namespaces st' = namespaces st
  ∧ (noFaults st →
     (Reconcile req st).1 = Err ErrDecode
     ∧ objects st' = objects st ∪ declaredObjects req docs
     ∧ ∃ ledger', classes st' !! label
                  = Some ((RawObject <$> docs) ++ bad :: post, ledger')
                  ∧ ∀ doc, doc ∈ docs → statusOf doc ∈ ledger').
Proof.
  intros Hns Hlabel Hclass Hbad st' new. subst st' new. unfold newCalls.
  set (spec := (RawObject <$> docs) ++ bad :: post) in *.
  set (s1 := record (CallGetNamespace req) st).
  set (s2 := record (CallGetNamespaceClass label) s1).
  set (namespace := mkNamespace req ls an).
  set (nc := mkNamespaceClass label spec status).
  assert (E : Reconcile req st =
    if hd false (faults st) then (Err ErrTransport, s1)
    else if hd false (faults s1) then (Err ErrTransport, s2)
    else match handleResources_range namespace (RawObject <$> docs) nc s2 with
         | (Ok _, s3) => (Err ErrDecode, s3)
         | (Err e, s3) => (Err e, s3)
         end).
  { unfold Reconcile. rewrite bind_run, (fetchNamespace_found _ _ _ _ _ Hns).
    fold s1. destruct (hd false (faults st)); [done |].
    cbn [Labels]. rewrite Hlabel.
    rewrite bind_run, (fetchNamespaceClass_found label _ s1 _ _ Hclass).
    fold s2. destruct (hd false (faults s1)); [done |].
    rewrite bind_run. unfold handleResources. cbn [SpecResources]. fold nc.
    unfold spec. rewrite (handleResources_range_undecodable _ _ _ _ _ _ Hbad).
    fold spec. fold nc.
    by destruct (handleResources_range _ (RawObject <$> docs) _ _) as [[?|?] ?]. }
  pose proof (handleResources_range_applies namespace docs docs nc (λ d H, H) s2)
    as Hcalls.
  pose proof (handleResources_range_converges namespace (RawObject <$> docs) nc s2)
    as Hframe.
  destruct (handleResources_range_applied namespace docs nc s2)
    as (n & Hn & Hobj & Hall).
  cbn [nsName ncName namespace nc] in Hcalls, Hframe, Hobj.
  assert (Hempty : objects st = objects st ∪ declaredObjects req (take 0 docs)).
  { change (declaredObjects req (take 0 docs)) with (∅ : gmap ObjectKey string).
    by rewrite (right_id ∅ (∪)). }
  split; [| split; [| split; [| split]]].
  - rewrite E. destruct (hd false (faults st)); [done |].
    destruct (hd false (faults s1)); [done |].
    by destruct (handleResources_range _ _ _ _) as [[?|?] ?].
  - rewrite E. destruct (hd false (faults st)).
    { exists []. split; [left | done]. cbn. by rewrite drop_app_length. }
    destruct (hd false (faults s1)).
    { exists []. split; [right | done]. cbn.
      by rewrite <- app_assoc, drop_app_length. }
    destruct Hcalls as (conv & Econv & Hconv).
    exists conv. split; [right | done].
    destruct (handleResources_range _ _ _ _) as [[?|?] s3]; cbn [snd] in *;
      rewrite Econv; cbn; by rewrite <- !app_assoc, drop_app_length.
  - rewrite E. destruct (hd false (faults st)); [by exists 0%nat; split; [lia |] |].
    destruct (hd false (faults s1)); [by exists 0%nat; split; [lia |] |].
    exists n. split; [done |].
    by destruct (handleResources_range _ _ _ _) as [[?|?] s3].
  - rewrite E. destruct (hd false (faults st)); [done |].
    destruct (hd false (faults s1)); [done |].
    pose proof (conv_namespaces _ _ _ _ Hframe) as Hnss.
    by destruct (handleResources_range _ _ _ _) as [[?|?] s3].
  - intros Hq. assert (Hq1 : noFaults s1) by (by apply noFaults_record).
    assert (Hq2 : noFaults s2) by (by apply noFaults_record).
    rewrite E, (noFaults_hd _ Hq), (noFaults_hd _ Hq1).
    destruct (handleResources_range_succeeds namespace docs nc s2)
      as (nc' & s3 & Hrun); [done | by exists (spec, status) |].
    rewrite Hrun in Hobj, Hall |- *. cbn [fst snd] in *.
    rewrite (Hall eq_refl), firstn_all in Hobj.
    split; [done |]. split; [done |].
    destruct (handleResources_range_ledger _ _ _ _ _ _ Hrun)
      as (_ & Htracked & _ & Hsync).
    exists (StatusResources nc'). split; [by apply Hsync |].
    intros doc Hdoc. apply Htracked. by apply list_elem_of_fmap_2.
Qed.

(** The amended C2 on [malformedSecondCluster]: the ConfigMap before the
    malformed manifest is applied, the NetworkPolicy after it is not. *)
Lemma malformed_manifest_aborts_witness :
  (Reconcile "dev" malformedSecondCluster).1 = Err ErrDecode
  ∧ objects (Reconcile "dev" malformedSecondCluster).2
    = objects malformedSecondCluster
      ∪ declaredObjects "dev" [configMap "settings" "replicas=3"].
Proof.
  destruct (malformed_manifest_aborts "dev" "web" malformedSecondCluster
              {[ classLabel := "web" ]} ∅
              [configMap "settings" "replicas=3"]
              [RawObject (networkPolicy "deny-all" "ingress=none")]
              (RawMalformed "{") []) as (_ & _ & _ & _ & H);
    [reflexivity | reflexivity | reflexivity | reflexivity |].
  destruct (H (List.Forall_nil _)) as (Herr & Hobj & _). by split.
Defined.

(** ** The declared-set check on a class with an undecodable manifest *)





(** * The frame of a pass *)

(** ** The calls of a pass over plain classes *)










